(** * TaxCalc2026: the scenario calculation engine

    A shallow embedding of [src/components/TaxCalculator.jsx] (the tax
    engine, the amortization schedule, the deduction phase-out rows, the
    delta charts and the scenario and state handlers) and of the
    retirement projection and the financial-independence backsolver of
    [src/components/TaxCalculator - Backup.jsx].

    Numbers.  JavaScript numbers are IEEE doubles; the embedding reads the
    arithmetic of the engine over the exact rationals [Q] (equality is
    [==]) and the backsolver, which takes logarithms, over the reals [R].
    [NaN] is the [None] of [option Q]; the engine removes it with
    [Number(x) || 0] before any arithmetic.  [Infinity] occurs as the
    [max] of a last bracket and as the "never" result of the backsolver
    and has a constructor of its own in both places. *)

From Stdlib Require Import ZArith QArith Qminmax Qpower Lqa Lia.
From Stdlib Require Import Reals Lra.
From Stdlib Require Import String Ascii List.
From stdpp Require Import gmap strings list.
Import ListNotations.

Local Open Scope Q_scope.

(** ** JavaScript values held by the form state *)

Module Js.

(** A form field holds the number it was initialised with, the text typed
    into its input box, or nothing at all (a key absent from a loaded
    blob). *)
Inductive value : Type :=
  | VNumber (q : Q)
  | VString (s : string)
  | VUndefined.

Definition digit_of (c : ascii) : option Z :=
  let n := Z.of_nat (nat_of_ascii c) in
  if ((48 <=? n) && (n <=? 57))%Z then Some (n - 48)%Z else None.

(** Digits of a decimal literal, most significant first: the value read so
    far and the number of digits. *)
Fixpoint digits (cs : list ascii) (acc : Z) (len : nat) : option (Z * nat) :=
  match cs with
  | [] => Some (acc, len)
  | c :: cs' =>
      match digit_of c with
      | Some d => digits cs' (10 * acc + d)%Z (S len)
      | None => None
      end
  end.

Fixpoint split_dot (cs : list ascii) : list ascii * option (list ascii) :=
  match cs with
  | [] => ([], None)
  | c :: cs' =>
      if Ascii.eqb c "."%char then ([], Some cs')
      else let '(i, f) := split_dot cs' in (c :: i, f)
  end.

Definition unsigned_decimal (cs : list ascii) : option Q :=
  let '(ip, fp) := split_dot cs in
  match digits ip 0%Z 0, fp with
  | Some (i, li), None =>
      if Nat.eqb li 0 then None else Some (inject_Z i)
  | Some (i, li), Some fcs =>
      match digits fcs 0%Z 0 with
      | Some (f, lf) =>
          if Nat.eqb li 0 && Nat.eqb lf 0 then None
          else Some (inject_Z i + inject_Z f / inject_Z (10 ^ Z.of_nat lf))
      | None => None
      end
  | None, _ => None
  end.

(** [StringToNumber] on the texts an [<input type="number">] yields: the
    empty string is 0, a signed decimal literal is its value, anything
    else (exponent and hexadecimal forms included, which the embedding
    does not read) is [NaN]. *)
Definition StringToNumber (s : string) : option Q :=
  match list_ascii_of_string s with
  | [] => Some 0
  | c :: cs =>
      if Ascii.eqb c "-"%char then option_map Qopp (unsigned_decimal cs)
      else if Ascii.eqb c "+"%char then unsigned_decimal cs
      else unsigned_decimal (c :: cs)
  end.

(** [Number(v)]; [None] is [NaN]. *)
Definition Number (v : value) : option Q :=
  match v with
  | VNumber q => Some q
  | VString s => StringToNumber s
  | VUndefined => None
  end.

Definition is_zero (q : Q) : bool := Qeq_bool q 0.

(** Truthiness: [0], [NaN], the empty string and [undefined] are falsy. *)
Definition truthy (v : value) : bool :=
  match v with
  | VNumber q => negb (is_zero q)
  | VString s => negb (String.eqb s "")
  | VUndefined => false
  end.

(** [v || d] on values. *)
Definition or_else (v d : value) : value := if truthy v then v else d.

(** [n || 0] on a number that may be [NaN]. *)
Definition or_zero (n : option Q) : Q :=
  match n with
  | Some q => if is_zero q then 0 else q
  | None => 0
  end.

(** [Number(v) || 0], the coercion applied to every engine input. *)
Definition num (v : value) : Q := or_zero (Number v).

End Js.

(** ** Tax tables *)

(** The upper end of a bracket: a currency amount or [Infinity]. *)
Inductive bound : Type :=
  | Finite (q : Q)
  | Infinity.

Module Bracket.
Record t : Type := mk { rate : Q; min : Q; max : bound }.
End Bracket.

Module LtcgBracket.
Record t : Type := mk { rate : Q; max : bound }.
End LtcgBracket.

Definition FEDERAL_BRACKETS_MFJ : list Bracket.t :=
  [ Bracket.mk 0.10 0 (Finite 23850); Bracket.mk 0.12 23851 (Finite 96950);
    Bracket.mk 0.22 96951 (Finite 206700); Bracket.mk 0.24 206701 (Finite 394600);
    Bracket.mk 0.32 394601 (Finite 501050); Bracket.mk 0.35 501051 (Finite 751600);
    Bracket.mk 0.37 751601 Infinity ].

Definition LTCG_BRACKETS_MFJ : list LtcgBracket.t :=
  [ LtcgBracket.mk 0.00 (Finite 96950); LtcgBracket.mk 0.15 (Finite 583750);
    LtcgBracket.mk 0.20 Infinity ].

Definition FEDERAL_STANDARD_DEDUCTION_MFJ : Q := 31500.
Definition SALT_CAP : Q := 40000.
Definition FEDERAL_MORTGAGE_DEBT_LIMIT : Q := 750000.
Definition CA_MORTGAGE_DEBT_LIMIT : Q := 1000000.
Definition CA_SDI_RATE : Q := 0.013.
Definition NIIT_RATE : Q := 0.038.
Definition NIIT_THRESHOLD_MFJ : Q := 250000.

Definition STATE_STANDARD_DEDUCTIONS_MFJ : gmap string Q :=
  {[ "California"%string := 10404; "North Carolina"%string := 25500 ]}.

Definition STATE_TAX_DATA : gmap string (list Bracket.t) :=
  {[ "California"%string :=
       [ Bracket.mk 0.01 0 (Finite 22108); Bracket.mk 0.02 22109 (Finite 52420);
         Bracket.mk 0.04 52421 (Finite 82734); Bracket.mk 0.06 82735 (Finite 114902);
         Bracket.mk 0.08 114903 (Finite 145194); Bracket.mk 0.093 145195 (Finite 742568);
         Bracket.mk 0.103 742569 (Finite 891080); Bracket.mk 0.113 891081 (Finite 1485132);
         Bracket.mk 0.123 1485133 Infinity ];
     "Colorado"%string := [ Bracket.mk 0.044 0 Infinity ];
     "Ohio"%string :=
       [ Bracket.mk 0.00 0 (Finite 26050); Bracket.mk 0.0275 26051 (Finite 100000);
         Bracket.mk 0.035 100001 Infinity ];
     "North Carolina"%string := [ Bracket.mk 0.0425 0 Infinity ];
     "Texas"%string := [];
     "Florida"%string := [] ]}.

(** ** calculateTax *)

(** [bracket.min > 0 ? bracket.min - 1 : 0] *)
Definition bracket_floor (bracket : Bracket.t) : Q :=
  if Qlt_le_dec 0 (Bracket.min bracket) then Bracket.min bracket - 1 else 0.

(** [bracket.max - floor]; [Infinity - x] is [Infinity]. *)
Definition bracket_span (bracket : Bracket.t) : bound :=
  match Bracket.max bracket with
  | Finite m => Finite (m - bracket_floor bracket)
  | Infinity => Infinity
  end.

(** [Math.min(x, b)] when [b] may be [Infinity]. *)
Definition min_bound (x : Q) (b : bound) : Q :=
  match b with
  | Finite q => Qmin x q
  | Infinity => x
  end.

(** The [for] loop of [calculateTax], with [tax] and [remainingIncome] as
    arguments; the [break] returns the tax accumulated so far. *)
Fixpoint calculateTax_loop (brackets : list Bracket.t) (tax remainingIncome : Q) : Q :=
  match brackets with
  | [] => tax
  | bracket :: rest =>
      if Qlt_le_dec 0 remainingIncome then
        let taxableInBracket := min_bound remainingIncome (bracket_span bracket) in
        if Qlt_le_dec 0 taxableInBracket then
          calculateTax_loop rest (tax + taxableInBracket * Bracket.rate bracket)
                            (remainingIncome - taxableInBracket)
        else calculateTax_loop rest tax remainingIncome
      else tax
  end.

Definition calculateTax (income : Q) (brackets : list Bracket.t) : Q :=
  calculateTax_loop brackets 0 income.


(** ** Mortgage arithmetic *)

(** [x || 0] on a number. *)
Definition or0 (x : Q) : Q := Js.or_zero (Some x).

Definition calculateMonthlyHousingCost (amount rate propTax insurance : Q) : Q :=
  if Js.is_zero amount || Js.is_zero rate then 0
  else
    let monthlyRate := rate / 100 / 12 in
    let numberOfPayments := (30 * 12)%Z in
    let principalAndInterest :=
      amount * (monthlyRate * (1 + monthlyRate) ^ numberOfPayments)
      / ((1 + monthlyRate) ^ numberOfPayments - 1) in
    let monthlyPropTax := or0 propTax / 12 in
    let monthlyInsurance := or0 insurance / 12 in
    principalAndInterest + monthlyPropTax + monthlyInsurance.

Module AmortizationYear.
Record t : Type := mk { year : nat; interest : Q }.
End AmortizationYear.

(** The [for] loop of [getInterestSchedule]: [todo] counts the iterations
    left before [i] reaches [years * 12]; the loop also stops as soon as
    the balance is no longer positive. *)
Fixpoint schedule_loop (todo i years : nat) (r monthlyPayment balance : Q)
    (yearInterest : list Q) : list Q :=
  match todo with
  | O => yearInterest
  | S todo' =>
      if Qlt_le_dec 0 balance then
        let interest := balance * r in
        let yearIdx := (i / 12)%nat in
        let yearInterest' :=
          if (yearIdx <? years)%nat
          then alter (fun acc => acc + interest) yearIdx yearInterest
          else yearInterest in
        let principal := monthlyPayment - interest in
        schedule_loop todo' (S i) years r monthlyPayment (balance - principal) yearInterest'
      else yearInterest
  end.

Definition getInterestSchedule (amount annualRate : Q) (years : nat)
    : list AmortizationYear.t :=
  if Js.is_zero amount || Js.is_zero annualRate then []
  else
    let n := (30 * 12)%Z in
    let r := annualRate / 100 / 12 in
    let monthlyPayment := amount * (r * (1 + r) ^ n) / ((1 + r) ^ n - 1) in
    let yearInterest :=
      schedule_loop (years * 12) 0 years r monthlyPayment amount (replicate years 0) in
    imap (fun idx interest => AmortizationYear.mk (idx + 1) interest) yearInterest.

(** [schedule[k]?.interest || 0] *)
Definition interest_at (schedule : list AmortizationYear.t) (k : nat) : Q :=
  match schedule !! k with
  | Some entry => or0 (AmortizationYear.interest entry)
  | None => 0
  end.

(** ** Capital-gains stacking *)

Definition ltcg_max (k : nat) : Q :=
  match LTCG_BRACKETS_MFJ !! k with
  | Some {| LtcgBracket.max := Finite m |} => m
  | _ => 0
  end.

Definition zeroRateMax : Q := ltcg_max 0.
Definition fifteenRateMax : Q := ltcg_max 1.

Definition taxableAtZero (ordinaryIncome longTermGains : Q) : Q :=
  Qmin longTermGains (Qmax 0 (zeroRateMax - ordinaryIncome)).

Definition taxableAtFifteen (ordinaryIncome longTermGains : Q) : Q :=
  let remainingLTCG := longTermGains - taxableAtZero ordinaryIncome longTermGains in
  Qmin remainingLTCG (Qmax 0 (fifteenRateMax - Qmax zeroRateMax ordinaryIncome)).

(** [remainingLTCG] after both subtractions. *)
Definition remainingLTCG (ordinaryIncome longTermGains : Q) : Q :=
  longTermGains - taxableAtZero ordinaryIncome longTermGains
  - taxableAtFifteen ordinaryIncome longTermGains.

(** The amount that reaches the 20% tier: [remainingLTCG] when the final
    [if (remainingLTCG > 0)] adds it to the tax, nothing otherwise. *)
Definition taxableAtTwenty (ordinaryIncome longTermGains : Q) : Q :=
  if Qlt_le_dec 0 (remainingLTCG ordinaryIncome longTermGains)
  then remainingLTCG ordinaryIncome longTermGains else 0.

(** [capitalGainsTax] of [resultsByState] (buy and rent blocks alike). *)
Definition capitalGainsTax (ordinaryIncome longTermGains : Q) : Q :=
  let capitalGainsTax := 0 + taxableAtFifteen ordinaryIncome longTermGains * 0.15 in
  if Qlt_le_dec 0 (remainingLTCG ordinaryIncome longTermGains)
  then capitalGainsTax + remainingLTCG ordinaryIncome longTermGains * 0.20
  else capitalGainsTax.

(** [newCapitalGainsTax] of [calcMonthlyTakeHomeDelta]. *)
Definition newCapitalGainsTax (ordinaryIncome longTermGains : Q) : Q :=
  let newCapitalGainsTax := taxableAtFifteen ordinaryIncome longTermGains * 0.15 in
  if Qlt_le_dec 0 (remainingLTCG ordinaryIncome longTermGains)
  then newCapitalGainsTax + remainingLTCG ordinaryIncome longTermGains * 0.20
  else newCapitalGainsTax.

(** ** Inputs and outcomes of one evaluation *)

Module Household.
Record t : Type := mk {
  income : Js.value; stGains : Js.value; ltGains : Js.value; hsa : Js.value;
  k401 : Js.value; medicalPremiums : Js.value; otherItemized : Js.value }.
End Household.

Module StateInputs.
Record t : Type := mk {
  mortgageAmount : Js.value; mortgageRate : Js.value; propertyTax : Js.value;
  homeInsurance : Js.value; localTaxRate : Js.value; monthlyRent : Js.value }.
(** The object [{}]: every field is [undefined]. *)
Definition empty : t :=
  mk Js.VUndefined Js.VUndefined Js.VUndefined Js.VUndefined Js.VUndefined Js.VUndefined.
End StateInputs.

Module Itemized.
Record t : Type := mk {
  mortgageInterest : Q; salt : Q; other : Q; stateIncomeTax : Q; propertyTax : Q }.
End Itemized.

Module Rent.
Record t : Type := mk {
  totalTaxBurden : Q; annualTakeHome : Q; monthlyTakeHome : Q;
  monthlyHousingCost : Q; monthlyNetCash : Q; deductionToUse : Q;
  federalTaxableIncome : Q; stateTaxableIncome : Q; totalSaltPaid : Q;
  stateTax : Q; sdiTax : Q; localTax : Q; niit : Q; stateStandardDed : Q }.
End Rent.

Module Outcome.
Record t : Type := mk {
  totalTaxBurden : Q; effectiveTaxRate : Q; annualTakeHome : Q; monthlyTakeHome : Q;
  totalFederalTax : Q; ficaTax : Q; stateTax : Q; sdiTax : Q; localTax : Q;
  niit : Q; agi : Q; deductionToUse : Q; federalTaxableIncome : Q;
  stateTaxableIncome : Q; totalSaltPaid : Q; monthlyHousingCost : Q;
  monthlyNetCash : Q; itemized : Itemized.t; stateStandardDed : Q; rent : Rent.t }.
End Outcome.

(** ** resultsByState: the constants of the [useMemo] block, in order *)

Section Engine.

Variable h : Household.t.

Definition grossIncome : Q := Js.num (Household.income h).
Definition shortTermGains : Q := Js.num (Household.stGains h).
Definition longTermGains : Q := Js.num (Household.ltGains h).
Definition hsaDed : Q := Js.num (Household.hsa h).
Definition k401Ded : Q := Js.num (Household.k401 h).
Definition medicalDed : Q := Js.num (Household.medicalPremiums h).
Definition otherItemizedVal : Q := Js.num (Household.otherItemized h).

Definition totalIncome : Q := grossIncome + shortTermGains + longTermGains.
Definition aboveTheLineDeductions : Q := k401Ded + hsaDed + medicalDed.
Definition agi : Q := totalIncome - aboveTheLineDeductions.

Definition ssWageBase : Q := 182400.
Definition ssTax : Q := Qmin grossIncome ssWageBase * 0.062.
Definition medicareTax : Q := grossIncome * 0.0145.
Definition additionalMedicareTax : Q :=
  if Qlt_le_dec 250000 agi then (agi - 250000) * 0.009 else 0.
Definition ficaTax : Q := ssTax + medicareTax + additionalMedicareTax.

Definition netInvestmentIncome : Q := shortTermGains + longTermGains.
Definition niitBase : Q := Qmax 0 (Qmin netInvestmentIncome (agi - NIIT_THRESHOLD_MFJ)).
Definition niit : Q := niitBase * NIIT_RATE.

Section PerState.

Variable state : string.
Variable currentStateInputs : StateInputs.t.

Definition mortgageAmountVal : Q := Js.num (StateInputs.mortgageAmount currentStateInputs).
Definition mortgageRateVal : Q := Js.num (StateInputs.mortgageRate currentStateInputs).
Definition propertyTaxVal : Q := Js.num (StateInputs.propertyTax currentStateInputs).
Definition homeInsuranceVal : Q := Js.num (StateInputs.homeInsurance currentStateInputs).
Definition localTaxRateVal : Q :=
  Js.or_zero (option_map (fun x => x / 100)
                (Js.Number (StateInputs.localTaxRate currentStateInputs))).
Definition monthlyRentVal : Q := Js.num (StateInputs.monthlyRent currentStateInputs).

Definition isCalifornia : bool := String.eqb state "California".

(** *** Buy scenario *)

Definition stateAgi : Q := if isCalifornia then agi + hsaDed else agi.
Definition stateMortgageDebtLimit : Q :=
  if isCalifornia then CA_MORTGAGE_DEBT_LIMIT else FEDERAL_MORTGAGE_DEBT_LIMIT.
Definition stateDeductibleMortgagePrincipal : Q :=
  Qmin mortgageAmountVal stateMortgageDebtLimit.
Definition stateAnnualMortgageInterest : Q :=
  interest_at (getInterestSchedule stateDeductibleMortgagePrincipal mortgageRateVal 1) 0.
Definition federalDeductibleMortgagePrincipal : Q :=
  Qmin mortgageAmountVal FEDERAL_MORTGAGE_DEBT_LIMIT.
Definition federalAnnualMortgageInterest : Q :=
  interest_at (getInterestSchedule federalDeductibleMortgagePrincipal mortgageRateVal 1) 0.

Definition stateItemizedDed : Q :=
  stateAnnualMortgageInterest + propertyTaxVal + otherItemizedVal.
Definition stateStandardDed : Q :=
  or0 (default 0 (STATE_STANDARD_DEDUCTIONS_MFJ !! state)).
Definition stateDeductionToUse : Q := Qmax stateItemizedDed stateStandardDed.
Definition stateTaxableIncome : Q := Qmax 0 (stateAgi - stateDeductionToUse).
Definition stateBrackets : list Bracket.t := default [] (STATE_TAX_DATA !! state).
Definition stateTax : Q := calculateTax stateTaxableIncome stateBrackets.
Definition sdiTax : Q := if isCalifornia then grossIncome * CA_SDI_RATE else 0.
Definition localTax : Q :=
  if Qlt_le_dec 0 localTaxRateVal then agi * localTaxRateVal else 0.

Definition totalSaltPaid : Q := stateTax + propertyTaxVal + sdiTax + localTax.
Definition cappedSalt : Q := Qmin totalSaltPaid SALT_CAP.
Definition totalFederalItemizedDeductions : Q :=
  federalAnnualMortgageInterest + cappedSalt + otherItemizedVal.
Definition deductionToUse : Q :=
  Qmax totalFederalItemizedDeductions FEDERAL_STANDARD_DEDUCTION_MFJ.

Definition federalTaxableIncome : Q := Qmax 0 (agi - deductionToUse).
Definition ordinaryIncome : Q := federalTaxableIncome - longTermGains.
Definition ordinaryTax : Q := calculateTax ordinaryIncome FEDERAL_BRACKETS_MFJ.

Definition totalFederalTax : Q :=
  ordinaryTax + capitalGainsTax ordinaryIncome longTermGains + niit.
Definition totalTaxBurden : Q := totalFederalTax + ficaTax + stateTax + sdiTax + localTax.
Definition effectiveTaxRate : Q :=
  if Qlt_le_dec 0 totalIncome then totalTaxBurden / totalIncome * 100 else 0.
Definition annualTakeHome : Q := totalIncome - totalTaxBurden - k401Ded - hsaDed - medicalDed.
Definition monthlyTakeHome : Q := annualTakeHome / 12.
Definition monthlyHousingCost : Q :=
  calculateMonthlyHousingCost mortgageAmountVal mortgageRateVal propertyTaxVal homeInsuranceVal.
Definition monthlyNetCash : Q := monthlyTakeHome - monthlyHousingCost.

(** *** Rent scenario *)

Definition rentStateAgi : Q := if isCalifornia then agi + hsaDed else agi.
Definition rentStateStandardDed : Q :=
  or0 (default 0 (STATE_STANDARD_DEDUCTIONS_MFJ !! state)).
Definition rentStateTaxableIncome : Q := Qmax 0 (rentStateAgi - rentStateStandardDed).
Definition rentStateTax : Q := calculateTax rentStateTaxableIncome stateBrackets.
Definition rentSdiTax : Q := if isCalifornia then grossIncome * CA_SDI_RATE else 0.
Definition rentLocalTax : Q :=
  if Qlt_le_dec 0 localTaxRateVal then agi * localTaxRateVal else 0.

Definition rentTotalSaltPaid : Q := rentStateTax + rentSdiTax + rentLocalTax.
Definition rentCappedSalt : Q := Qmin rentTotalSaltPaid SALT_CAP.
Definition rentDeductionToUse : Q := Qmax FEDERAL_STANDARD_DEDUCTION_MFJ 0.
Definition rentFederalTaxableIncome : Q := Qmax 0 (agi - rentDeductionToUse).
Definition rentOrdinaryIncome : Q := rentFederalTaxableIncome - longTermGains.
Definition rentOrdinaryTax : Q := calculateTax rentOrdinaryIncome FEDERAL_BRACKETS_MFJ.

Definition rentNetInvestmentIncome : Q := shortTermGains + longTermGains.
Definition rentNiitBase : Q :=
  Qmax 0 (Qmin rentNetInvestmentIncome (agi - NIIT_THRESHOLD_MFJ)).
Definition rentNiit : Q := rentNiitBase * NIIT_RATE.

Definition rentTotalFederalTax : Q :=
  rentOrdinaryTax + capitalGainsTax rentOrdinaryIncome longTermGains + rentNiit.
Definition rentTotalTaxBurden : Q :=
  rentTotalFederalTax + ficaTax + rentStateTax + rentSdiTax + rentLocalTax.
Definition rentAnnualTakeHome : Q :=
  totalIncome - rentTotalTaxBurden - k401Ded - hsaDed - medicalDed.
Definition rentMonthlyTakeHome : Q := rentAnnualTakeHome / 12.
Definition rentMonthlyHousingCost : Q := monthlyRentVal.
Definition rentMonthlyNetCash : Q := rentMonthlyTakeHome - rentMonthlyHousingCost.

(** The object stored in [newResults[state]]. *)
Definition stateResult : Outcome.t :=
  {| Outcome.totalTaxBurden := totalTaxBurden;
     Outcome.effectiveTaxRate := effectiveTaxRate;
     Outcome.annualTakeHome := annualTakeHome;
     Outcome.monthlyTakeHome := monthlyTakeHome;
     Outcome.totalFederalTax := totalFederalTax;
     Outcome.ficaTax := ficaTax;
     Outcome.stateTax := stateTax;
     Outcome.sdiTax := sdiTax;
     Outcome.localTax := localTax;
     Outcome.niit := niit;
     Outcome.agi := agi;
     Outcome.deductionToUse := deductionToUse;
     Outcome.federalTaxableIncome := federalTaxableIncome;
     Outcome.stateTaxableIncome := stateTaxableIncome;
     Outcome.totalSaltPaid := totalSaltPaid;
     Outcome.monthlyHousingCost := monthlyHousingCost;
     Outcome.monthlyNetCash := monthlyNetCash;
     Outcome.itemized :=
       {| Itemized.mortgageInterest := federalAnnualMortgageInterest;
          Itemized.salt := cappedSalt;
          Itemized.other := otherItemizedVal;
          Itemized.stateIncomeTax := stateTax;
          Itemized.propertyTax := propertyTaxVal |};
     Outcome.stateStandardDed := stateStandardDed;
     Outcome.rent :=
       {| Rent.totalTaxBurden := rentTotalTaxBurden;
          Rent.annualTakeHome := rentAnnualTakeHome;
          Rent.monthlyTakeHome := rentMonthlyTakeHome;
          Rent.monthlyHousingCost := rentMonthlyHousingCost;
          Rent.monthlyNetCash := rentMonthlyNetCash;
          Rent.deductionToUse := rentDeductionToUse;
          Rent.federalTaxableIncome := rentFederalTaxableIncome;
          Rent.stateTaxableIncome := rentStateTaxableIncome;
          Rent.totalSaltPaid := rentTotalSaltPaid;
          Rent.stateTax := rentStateTax;
          Rent.sdiTax := rentSdiTax;
          Rent.localTax := rentLocalTax;
          Rent.niit := rentNiit;
          Rent.stateStandardDed := rentStateStandardDed |} |}.

End PerState.

(** [selectedStates.forEach(state => { ...; newResults[state] = {...} })],
    with [stateInputs[state] || {}] for a state that has no inputs yet. *)
Definition resultsByState (selectedStates : list string)
    (stateInputs : gmap string StateInputs.t) : gmap string Outcome.t :=
  foldl (fun newResults state =>
           <[state := stateResult state (default StateInputs.empty (stateInputs !! state))]>
             newResults)
        ∅ selectedStates.

End Engine.

(** ** calcMonthlyTakeHomeDelta *)

Module DeltaArgs.
Record t : Type := mk {
  origDeduction : Q; newDeduction : Q; agi : Q; federalTaxableIncome : Q;
  totalIncome : Q; shortTermGains : Q; longTermGains : Q; k401Ded : Q;
  hsaDed : Q; medicalDed : Q; ficaTax : Q; stateTax : Q; sdiTax : Q;
  localTax : Q; niit : Q; totalFederalTax : Q }.
End DeltaArgs.

Section TakeHomeDelta.

Variable a : DeltaArgs.t.

Definition newFedTaxableIncome : Q := Qmax 0 (DeltaArgs.agi a - DeltaArgs.newDeduction a).
Definition newOrdinaryIncome : Q := newFedTaxableIncome - DeltaArgs.longTermGains a.
Definition newOrdinaryTax : Q := calculateTax newOrdinaryIncome FEDERAL_BRACKETS_MFJ.
Definition newNiit : Q :=
  let netInvestmentIncome := DeltaArgs.shortTermGains a + DeltaArgs.longTermGains a in
  let niitBase := Qmax 0 (Qmin netInvestmentIncome (DeltaArgs.agi a - NIIT_THRESHOLD_MFJ)) in
  niitBase * NIIT_RATE.

Definition calcMonthlyTakeHomeDelta : Q :=
  let newTotalFederalTax :=
    newOrdinaryTax + newCapitalGainsTax newOrdinaryIncome (DeltaArgs.longTermGains a) + newNiit in
  let newTotalTaxBurden :=
    newTotalFederalTax + DeltaArgs.ficaTax a + DeltaArgs.stateTax a + DeltaArgs.sdiTax a
    + DeltaArgs.localTax a in
  let newAnnualTakeHome :=
    DeltaArgs.totalIncome a - newTotalTaxBurden - DeltaArgs.k401Ded a - DeltaArgs.hsaDed a
    - DeltaArgs.medicalDed a in
  let newMonthlyTakeHome := newAnnualTakeHome / 12 in
  newMonthlyTakeHome.

End TakeHomeDelta.

(** ** Saving and loading scenarios *)

(** A stored scenario.  A scalar key that is absent reads as [undefined];
    the two object-valued keys are optional.  [JSON.stringify] followed by
    [JSON.parse] returns finite numbers and strings unchanged, so the
    store holds the blob itself. *)
Module Scenario.
Record t : Type := mk {
  income : Js.value; stGains : Js.value; ltGains : Js.value; hsa : Js.value;
  k401 : Js.value; medicalPremiums : Js.value; otherItemized : Js.value;
  selectedStates : option (list string);
  stateInputs : option (gmap string StateInputs.t) }.
(** The blob [{}]. *)
Definition empty : t :=
  mk Js.VUndefined Js.VUndefined Js.VUndefined Js.VUndefined Js.VUndefined
     Js.VUndefined Js.VUndefined None None.
End Scenario.

(** The [useState] cells of the component that the handlers read or
    write, and the scenarios kept under [LOCAL_STORAGE_KEY]. *)
Module App.
Record t : Type := mk {
  income : Js.value; stGains : Js.value; ltGains : Js.value; hsa : Js.value;
  k401 : Js.value; medicalPremiums : Js.value; otherItemized : Js.value;
  selectedStates : list string;
  stateInputs : gmap string StateInputs.t;
  scenarioName : string;
  selectedScenario : string;
  savedScenarios : gmap string Scenario.t;
  localStorage : gmap string Scenario.t }.
End App.

Definition household (st : App.t) : Household.t :=
  Household.mk (App.income st) (App.stGains st) (App.ltGains st) (App.hsa st)
               (App.k401 st) (App.medicalPremiums st) (App.otherItemized st).

(** What the engine computes from the current state. *)
Definition results (st : App.t) : gmap string Outcome.t :=
  resultsByState (household st) (App.selectedStates st) (App.stateInputs st).

Definition handleSaveScenario (st : App.t) : App.t :=
  if String.eqb (App.scenarioName st) "" then st
  else
    let scenarioData :=
      Scenario.mk (App.income st) (App.stGains st) (App.ltGains st) (App.hsa st)
                  (App.k401 st) (App.medicalPremiums st) (App.otherItemized st)
                  (Some (App.selectedStates st)) (Some (App.stateInputs st)) in
    let updatedScenarios := <[App.scenarioName st := scenarioData]> (App.localStorage st) in
    App.mk (App.income st) (App.stGains st) (App.ltGains st) (App.hsa st)
           (App.k401 st) (App.medicalPremiums st) (App.otherItemized st)
           (App.selectedStates st) (App.stateInputs st)
           "" (App.selectedScenario st) updatedScenarios updatedScenarios.

Definition handleLoadScenario (name : string) (st : App.t) : App.t :=
  match App.savedScenarios st !! name with
  | Some scenario =>
      App.mk (Js.or_else (Scenario.income scenario) (Js.VNumber 250000))
             (Js.or_else (Scenario.stGains scenario) (Js.VNumber 5000))
             (Js.or_else (Scenario.ltGains scenario) (Js.VNumber 10000))
             (Js.or_else (Scenario.hsa scenario) (Js.VNumber 8300))
             (Js.or_else (Scenario.k401 scenario) (Js.VNumber 46000))
             (Js.or_else (Scenario.medicalPremiums scenario) (Js.VNumber 6000))
             (Js.or_else (Scenario.otherItemized scenario) (Js.VNumber 5000))
             (default ["California"; "Texas"]%string (Scenario.selectedStates scenario))
             (default ∅ (Scenario.stateInputs scenario))
             (App.scenarioName st) name (App.savedScenarios st) (App.localStorage st)
  | None => st
  end.

(** The state the component starts in. *)
Definition initialState : App.t :=
  let n q := Js.VNumber q in
  App.mk (n 250000) (n 5000) (n 10000) (n 8300) (n 46000) (n 6000) (n 5000)
    ["California"; "Ohio"; "Texas"]%string
    {[ "California"%string :=
         StateInputs.mk (n 1000000) (n 5.5) (n 12000) (n 1500) Js.VUndefined (n 4000);
       "Texas"%string :=
         StateInputs.mk (n 450000) (n 5.8) (n 9500) (n 2000) Js.VUndefined (n 2500);
       "Colorado"%string :=
         StateInputs.mk (n 600000) (n 5.6) (n 6000) (n 1200) Js.VUndefined (n 2200);
       "Ohio"%string :=
         StateInputs.mk (n 300000) (n 5.9) (n 5500) (n 1000) (n 2.5) (n 1800);
       "North Carolina"%string :=
         StateInputs.mk (n 400000) (n 5.7) (n 4000) (n 1100) Js.VUndefined (n 2000) ]}
    "" "" ∅ ∅.

(** Typing into an input box stores the text of the box. *)
Definition setHsa (text : string) (st : App.t) : App.t :=
  App.mk (App.income st) (App.stGains st) (App.ltGains st) (Js.VString text)
         (App.k401 st) (App.medicalPremiums st) (App.otherItemized st)
         (App.selectedStates st) (App.stateInputs st)
         (App.scenarioName st) (App.selectedScenario st)
         (App.savedScenarios st) (App.localStorage st).

Definition setScenarioName (text : string) (st : App.t) : App.t :=
  App.mk (App.income st) (App.stGains st) (App.ltGains st) (App.hsa st)
         (App.k401 st) (App.medicalPremiums st) (App.otherItemized st)
         (App.selectedStates st) (App.stateInputs st)
         text (App.selectedScenario st)
         (App.savedScenarios st) (App.localStorage st).

(** ** The financial-independence backsolver (Backup variant) *)

Module Retirement.

Local Open Scope R_scope.

(** The solved number of years: a real, or JavaScript's [Infinity], which
    the table prints as "Never". *)
Inductive years : Type :=
  | Years (y : R)
  | Never.

Definition Rleb (x y : R) : bool := if Rle_dec x y then true else false.
Definition Rltb (x y : R) : bool := if Rlt_dec x y then true else false.

(** The body of the [for (const state of selectedStates)] loop from
    [let years = Infinity] down to the last assignment of [years]. *)
Definition solveYears (rate targetAssets currentAssets totalAnnualContribution : R) : years :=
  if Rleb totalAnnualContribution 0 && Rleb (currentAssets * rate) 0 then Never
  else if Rltb 0 rate then
    let val1 := targetAssets * rate + totalAnnualContribution in
    let val2 := currentAssets * rate + totalAnnualContribution in
    if Rltb 0 val1 && Rltb 0 val2
    then Years (ln (val1 / val2) / ln (1 + rate))
    else Never
  else
    if Rltb 0 totalAnnualContribution
    then Years ((targetAssets - currentAssets) / totalAnnualContribution)
    else Never.

(** [const finalYears = years > 100 ? Infinity : years] *)
Definition finalYears (y : years) : years :=
  match y with
  | Years v => if Rltb 100 v then Never else Years v
  | Never => Never
  end.

(** The value stored in the [years] field of a table row. *)
Definition reportedYears (rate targetAssets currentAssets totalAnnualContribution : R) : years :=
  finalYears (solveYears rate targetAssets currentAssets totalAnnualContribution).

Module Row.
Record t : Type := mk { state : string; years : Retirement.years; totalAnnualContribution : R }.
End Row.

Module Point.
Record t : Type := mk { age : R; value : R }.
End Point.

(** [Math.ceil]: the least integer that is not below [x]. *)
Definition ceil (x : R) : Z := (1 - up (- x))%Z.

Section Backsolver.

(** [portfolioGrowthRate], [fiNumber], [currentAssets] and
    [baseAnnualSavings] after their coercion to numbers, and the
    [monthlyNetSavings] of every evaluated state. *)
Variables portfolioGrowthRate fiNumber currentAssets baseAnnualSavings : R.
Variable monthlyNetSavings : gmap string R.
Variable baseState : string.

Definition rate : R := portfolioGrowthRate / 100.
Definition targetAssets : R := fiNumber.

(** [(resultsByState[state]?.monthlyNetSavings || 0) * 12]: a state
    without a result contributes 0, a number contributes itself. *)
Definition annualNetSavings (state : string) : R :=
  default 0 (monthlyNetSavings !! state) * 12.

Definition totalAnnualContribution (state : string) : R :=
  let cashDelta := annualNetSavings state - annualNetSavings baseState in
  baseAnnualSavings + cashDelta.

Definition row (state : string) : Row.t :=
  Row.mk state
         (reportedYears rate targetAssets currentAssets (totalAnnualContribution state))
         (totalAnnualContribution state).

(** The rows pushed by the loop over [selectedStates]. *)
Definition tableData (selectedStates : list string) : list Row.t :=
  map row selectedStates.

(** [maxYears] when the loop over [selectedStates] ends: the largest
    [Math.ceil(finalYears)] among the finite ones, starting from 0. *)
Definition maxFiniteYears (table : list Row.t) : Z :=
  fold_left (fun maxYears r =>
               match Row.years r with
               | Years v => Z.max maxYears (ceil v)
               | Never => maxYears
               end) table 0%Z.

(** [maxYears = Math.min(maxYears + 2, 50)], the chart horizon. *)
Definition maxYears (table : list Row.t) : Z :=
  Z.min (maxFiniteYears table + 2) 50.

(** The chart series of one state: the starting point, then one point per
    year up to [maxYears], stopping after the first year above the
    target. *)
Fixpoint series_loop (todo : nat) (i : nat) (currentAge contribution assets : R)
    : list Point.t :=
  match todo with
  | O => []
  | S todo' =>
      let assets' := assets * (1 + rate) + contribution in
      Point.mk (currentAge + INR i) assets'
      :: (if Rltb targetAssets assets' then []
          else series_loop todo' (S i) currentAge contribution assets')
  end.

Definition series (currentAge : R) (horizon : Z) (r : Row.t) : list Point.t :=
  Point.mk currentAge currentAssets
  :: series_loop (Z.to_nat horizon) 1 currentAge (Row.totalAnnualContribution r) currentAssets.

Definition chartData (currentAge : R) (table : list Row.t) : list (string * list Point.t) :=
  map (fun r => (Row.state r, series currentAge (maxYears table) r)) table.

(** [backsolverCalculations]: the table and the chart, both empty when
    there is no base state or the base state has no result. *)
Definition backsolverCalculations (currentAge : R) (selectedStates : list string)
    : list Row.t * list (string * list Point.t) :=
  if String.eqb baseState "" then ([], [])
  else match monthlyNetSavings !! baseState with
       | None => ([], [])
       | Some _ =>
           let table := tableData selectedStates in
           (table, chartData currentAge table)
       end.

End Backsolver.

End Retirement.

(** ** Well-formed bracket tables *)

(** Each bracket but the last ends at a finite [max] and the next one
    starts one unit above it. *)
Fixpoint contiguous (brackets : list Bracket.t) : Prop :=
  match brackets with
  | b :: ((b' :: _) as rest) =>
      (exists m, Bracket.max b = Finite m /\ Bracket.min b' == m + 1) /\ contiguous rest
  | _ => True
  end.

Definition ascending (b : Bracket.t) : Prop :=
  match Bracket.max b with
  | Finite m => Bracket.min b <= m
  | Infinity => True
  end.

Definition starts_at_zero (brackets : list Bracket.t) : Prop :=
  match brackets with
  | b :: _ => Bracket.min b == 0
  | [] => True
  end.

(** The configuration precondition on a bracket table: it starts at 0,
    its brackets are ascending and contiguous, and no rate is negative. *)
Record valid_brackets (brackets : list Bracket.t) : Prop := {
  valid_rates : Forall (fun b => 0 <= Bracket.rate b) brackets;
  valid_ascending : Forall ascending brackets;
  valid_contiguous : contiguous brackets;
  valid_start : starts_at_zero brackets }.

(** The largest marginal rate of a table (0 for the empty table). *)
Definition top_rate (brackets : list Bracket.t) : Q :=
  fold_right (fun b acc => Qmax (Bracket.rate b) acc) 0 brackets.

(** The width the loop gives a bracket whose [max] is finite, and the
    income and the tax that a run of such brackets absorbs. *)
Definition finite_span (b : Bracket.t) : Q :=
  match bracket_span b with
  | Finite s => s
  | Infinity => 0
  end.

Definition span_total (brackets : list Bracket.t) : Q :=
  fold_right (fun b acc => finite_span b + acc) 0 brackets.

Definition tax_total (brackets : list Bracket.t) : Q :=
  fold_right (fun b acc => finite_span b * Bracket.rate b + acc) 0 brackets.

Definition bounded_span (b : Bracket.t) : Prop :=
  exists s, bracket_span b = Finite s /\ 0 <= s.

(** ** A scenario with a cleared field *)

(** The HSA box is emptied (the engine reads an empty box as 0), the
    scenario is named, saved, and loaded back. *)
Definition clearedHsa : App.t := setScenarioName "s" (setHsa "" initialState).
Definition reloaded : App.t := handleLoadScenario "s" (handleSaveScenario clearedHsa).

(** The seven scalar fields of a state are all truthy. *)
Definition scalars_truthy (st : App.t) : Prop :=
  Js.truthy (App.income st) = true /\ Js.truthy (App.stGains st) = true /\
  Js.truthy (App.ltGains st) = true /\ Js.truthy (App.hsa st) = true /\
  Js.truthy (App.k401 st) = true /\ Js.truthy (App.medicalPremiums st) = true /\
  Js.truthy (App.otherItemized st) = true.

(** ** The balance of the loan, month by month *)

(** [r] and [monthlyPayment] as [getInterestSchedule] computes them. *)
Definition monthlyRate (annualRate : Q) : Q := annualRate / 100 / 12.

Definition monthlyPayment (amount annualRate : Q) : Q :=
  let r := monthlyRate annualRate in
  amount * (r * (1 + r) ^ (30 * 12)) / ((1 + r) ^ (30 * 12) - 1).

(** The balance after [i] payments: each month [balance -= principal]
    with [principal = monthlyPayment - balance * r]. *)
Fixpoint balance_after (r payment amount : Q) (i : nat) : Q :=
  match i with
  | O => amount
  | S j =>
      let balance := balance_after r payment amount j in
      balance - (payment - balance * r)
  end.

(** The interest month [i] adds to its year: [balance * r] while the
    balance is positive, nothing once it is not. *)
Definition month_interest (r payment amount : Q) (i : nat) : Q :=
  if Qlt_le_dec 0 (balance_after r payment amount i)
  then balance_after r payment amount i * r else 0.

(** [f 0 + ... + f (n - 1)] *)
Fixpoint sum_months (f : nat -> Q) (n : nat) : Q :=
  match n with
  | O => 0
  | S k => sum_months f k + f k
  end.

(** The interest of the twelve months of year [k + 1]. *)
Definition year_interest (amount annualRate : Q) (k : nat) : Q :=
  sum_months (fun j => month_interest (monthlyRate annualRate)
                         (monthlyPayment amount annualRate) amount (12 * k + j)) 12.

(** The sum of the [interest] fields of a schedule. *)
Definition total_interest (schedule : list AmortizationYear.t) : Q :=
  fold_right (fun entry acc => AmortizationYear.interest entry + acc) 0 schedule.

(** ** The other handlers of the form *)

(** The keys of a state's housing inputs that the input boxes write. *)
Module Field.
Inductive t : Type :=
  | mortgageAmount | mortgageRate | propertyTax | homeInsurance | localTaxRate | monthlyRent.
End Field.

#[global] Instance Field_eq_dec : EqDecision Field.t.
Proof. solve_decision. Defined.

(** [inputs[field]] *)
Definition getField (field : Field.t) (inputs : StateInputs.t) : Js.value :=
  match field with
  | Field.mortgageAmount => StateInputs.mortgageAmount inputs
  | Field.mortgageRate => StateInputs.mortgageRate inputs
  | Field.propertyTax => StateInputs.propertyTax inputs
  | Field.homeInsurance => StateInputs.homeInsurance inputs
  | Field.localTaxRate => StateInputs.localTaxRate inputs
  | Field.monthlyRent => StateInputs.monthlyRent inputs
  end.

(** [{ ...inputs, [field]: value }] *)
Definition setField (field : Field.t) (value : Js.value) (inputs : StateInputs.t)
    : StateInputs.t :=
  let pick f := match field, f with
                | Field.mortgageAmount, Field.mortgageAmount
                | Field.mortgageRate, Field.mortgageRate
                | Field.propertyTax, Field.propertyTax
                | Field.homeInsurance, Field.homeInsurance
                | Field.localTaxRate, Field.localTaxRate
                | Field.monthlyRent, Field.monthlyRent => value
                | _, _ => getField f inputs
                end in
  StateInputs.mk (pick Field.mortgageAmount) (pick Field.mortgageRate)
                 (pick Field.propertyTax) (pick Field.homeInsurance)
                 (pick Field.localTaxRate) (pick Field.monthlyRent).

(** [setStateInputs] and [setSelectedStates] on the state record. *)
Definition withStateInputs (stateInputs : gmap string StateInputs.t) (st : App.t) : App.t :=
  App.mk (App.income st) (App.stGains st) (App.ltGains st) (App.hsa st)
         (App.k401 st) (App.medicalPremiums st) (App.otherItemized st)
         (App.selectedStates st) stateInputs
         (App.scenarioName st) (App.selectedScenario st)
         (App.savedScenarios st) (App.localStorage st).

Definition withSelectedStates (selectedStates : list string) (st : App.t) : App.t :=
  App.mk (App.income st) (App.stGains st) (App.ltGains st) (App.hsa st)
         (App.k401 st) (App.medicalPremiums st) (App.otherItemized st)
         selectedStates (App.stateInputs st)
         (App.scenarioName st) (App.selectedScenario st)
         (App.savedScenarios st) (App.localStorage st).

Definition handleStateInputChange (state : string) (field : Field.t) (value : Js.value)
    (st : App.t) : App.t :=
  let prev := App.stateInputs st in
  withStateInputs
    (<[state := setField field value (default StateInputs.empty (prev !! state))]> prev) st.

(** The inputs a state gets when it is selected for the first time. *)
Definition newStateInputs : StateInputs.t :=
  StateInputs.mk (Js.VNumber 500000) (Js.VNumber 6.0) (Js.VNumber 7000)
                 (Js.VNumber 1200) (Js.VNumber 0) (Js.VNumber 2000).

Definition handleStateSelection (state : string) (st : App.t) : App.t :=
  let prevSelectedStates := App.selectedStates st in
  let newSelectedStates :=
    if bool_decide (state ∈ prevSelectedStates)
    then filter (fun s => s <> state) prevSelectedStates
    else prevSelectedStates ++ [state] in
  let stateInputs :=
    match App.stateInputs st !! state with
    | None => <[state := newStateInputs]> (App.stateInputs st)
    | Some _ => App.stateInputs st
    end in
  withSelectedStates newSelectedStates (withStateInputs stateInputs st).

(** [handleDeleteScenario]; [confirmed] is the answer to
    [window.confirm]. *)
Definition handleDeleteScenario (confirmed : bool) (st : App.t) : App.t :=
  if String.eqb (App.selectedScenario st) "" then st
  else if confirmed then
    let updatedScenarios := delete (App.selectedScenario st) (App.localStorage st) in
    App.mk (App.income st) (App.stGains st) (App.ltGains st) (App.hsa st)
           (App.k401 st) (App.medicalPremiums st) (App.otherItemized st)
           (App.selectedStates st) (App.stateInputs st)
           (App.scenarioName st) "" updatedScenarios updatedScenarios
  else st.

Definition handleUpdateScenario (st : App.t) : App.t :=
  if String.eqb (App.selectedScenario st) "" then st
  else
    let scenarioData :=
      Scenario.mk (App.income st) (App.stGains st) (App.ltGains st) (App.hsa st)
                  (App.k401 st) (App.medicalPremiums st) (App.otherItemized st)
                  (Some (App.selectedStates st)) (Some (App.stateInputs st)) in
    let updatedScenarios := <[App.selectedScenario st := scenarioData]> (App.localStorage st) in
    App.mk (App.income st) (App.stGains st) (App.ltGains st) (App.hsa st)
           (App.k401 st) (App.medicalPremiums st) (App.otherItemized st)
           (App.selectedStates st) (App.stateInputs st)
           (App.scenarioName st) (App.selectedScenario st) updatedScenarios updatedScenarios.

(** The blob that [handleSaveScenario] and [handleUpdateScenario] store. *)
Definition scenarioData (st : App.t) : Scenario.t :=
  Scenario.mk (App.income st) (App.stGains st) (App.ltGains st) (App.hsa st)
              (App.k401 st) (App.medicalPremiums st) (App.otherItemized st)
              (Some (App.selectedStates st)) (Some (App.stateInputs st)).

(** ** The deduction phase-out rows *)

(** [calculateTax] on an income that may be [NaN]: with [NaN] every
    comparison of the loop is false, no bracket adds anything and the loop
    returns the initial 0. *)
Definition calculateTaxOf (income : option Q) (brackets : list Bracket.t) : Q :=
  match income with
  | Some i => calculateTax i brackets
  | None => 0
  end.

(** [calcStateMonthlyTakeHomeDelta]; [origDeduction] may be [NaN].  The
    [state] and [stateStandardDed] arguments are not used by the body. *)
Definition calcStateMonthlyTakeHomeDelta (origDeduction : option Q) (newDeduction agi : Q)
    (stateTaxBrackets : list Bracket.t) (localTax sdiTax : Q) : Q :=
  match stateTaxBrackets with
  | [] => 0
  | _ :: _ =>
      let stateTaxableIncomeOrig := option_map (fun d => Qmax 0 (agi - d)) origDeduction in
      let stateTaxableIncomeNew := Qmax 0 (agi - newDeduction) in
      let origStateTax :=
        calculateTaxOf stateTaxableIncomeOrig stateTaxBrackets + or0 sdiTax + or0 localTax in
      let newStateTax :=
        calculateTax stateTaxableIncomeNew stateTaxBrackets + or0 sdiTax + or0 localTax in
      (origStateTax - newStateTax) / 12
  end.

Module YearRow.
Record t : Type := mk { year : nat; interest : Q; impact : option Q }.
End YearRow.

(** The argument object that [perStateInterestSchedules] passes to
    [calcMonthlyTakeHomeDelta], read from the result [r] of the state. *)
Definition deltaArgs (h : Household.t) (r : Outcome.t) (newDeduction totalIncome : Q)
    : DeltaArgs.t :=
  {| DeltaArgs.origDeduction := or0 (Outcome.deductionToUse r);
     DeltaArgs.newDeduction := newDeduction;
     DeltaArgs.agi := or0 (Outcome.agi r);
     DeltaArgs.federalTaxableIncome := or0 (Outcome.federalTaxableIncome r);
     DeltaArgs.totalIncome := totalIncome;
     DeltaArgs.shortTermGains := shortTermGains h;
     DeltaArgs.longTermGains := longTermGains h;
     DeltaArgs.k401Ded := k401Ded h;
     DeltaArgs.hsaDed := hsaDed h;
     DeltaArgs.medicalDed := medicalDed h;
     DeltaArgs.ficaTax := or0 (Outcome.ficaTax r);
     DeltaArgs.stateTax := or0 (Outcome.stateTax r);
     DeltaArgs.sdiTax := or0 (Outcome.sdiTax r);
     DeltaArgs.localTax := or0 (Outcome.localTax r);
     DeltaArgs.niit := or0 (Outcome.niit r);
     DeltaArgs.totalFederalTax := or0 (Outcome.totalFederalTax r) |}.

(** The ten-year schedule of the rows, on the principal capped at the
    federal limit. *)
Definition phaseOutSchedule (currentStateInputs : StateInputs.t) : list AmortizationYear.t :=
  getInterestSchedule (Qmin (mortgageAmountVal currentStateInputs) FEDERAL_MORTGAGE_DEBT_LIMIT)
                      (mortgageRateVal currentStateInputs) 10.

(** [schedule[0]?.interest + propertyTaxVal + otherItemizedVal], which is
    [NaN] when the schedule is empty, under [Math.max(_, stateStandardDed)],
    which keeps a [NaN]. *)
Definition origStateDed (h : Household.t) (r : Outcome.t) (currentStateInputs : StateInputs.t)
    : option Q :=
  match phaseOutSchedule currentStateInputs !! 0%nat with
  | Some entry =>
      Some (Qmax (AmortizationYear.interest entry + propertyTaxVal currentStateInputs
                  + otherItemizedVal h)
                 (or0 (Outcome.stateStandardDed r)))
  | None => None
  end.

(** One pass of the [for (let y = 2; y <= 10; ++y)] loop for a selected
    state, whose result [r] is [resultsByState[state]].  [totalIncome] is
    [Number(income) + shortTermGains + longTermGains], without the [|| 0]
    of the engine, and makes the impact [NaN] when the income is not a
    number. *)
Definition yearRow (h : Household.t) (state : string) (currentStateInputs : StateInputs.t)
    (y : nat) : YearRow.t :=
  let r := stateResult h state currentStateInputs in
  let agi := or0 (Outcome.agi r) in
  let cappedSalt := or0 (Itemized.salt (Outcome.itemized r)) in
  let localTax := or0 (Outcome.localTax r) in
  let sdiTax := or0 (Outcome.sdiTax r) in
  let origMonthlyTakeHome := or0 (Outcome.monthlyTakeHome r) in
  let stateStandardDed := or0 (Outcome.stateStandardDed r) in
  let stateTaxBrackets := default [] (STATE_TAX_DATA !! state) in
  let thisYearInterest := interest_at (phaseOutSchedule currentStateInputs) (y - 1) in
  let newDeduction := thisYearInterest + cappedSalt + otherItemizedVal h in
  let deductionUsed := Qmax newDeduction FEDERAL_STANDARD_DEDUCTION_MFJ in
  let stateDedUsed :=
    Qmax (thisYearInterest + propertyTaxVal currentStateInputs + otherItemizedVal h)
         stateStandardDed in
  let stateTaxDelta :=
    calcStateMonthlyTakeHomeDelta (origStateDed h r currentStateInputs) stateDedUsed agi
      stateTaxBrackets localTax sdiTax in
  let dollarImpact :=
    match Js.Number (Household.income h) with
    | Some income =>
        let totalIncome := income + shortTermGains h + longTermGains h in
        let newMonthlyTakeHome :=
          calcMonthlyTakeHomeDelta (deltaArgs h r deductionUsed totalIncome) in
        Some (newMonthlyTakeHome - origMonthlyTakeHome + stateTaxDelta)
    | None => None
    end in
  YearRow.mk y thisYearInterest dollarImpact.

(** [perStateInterestSchedules]: the rows of the years 2 to 10 for every
    selected state. *)
Definition perStateInterestSchedules (h : Household.t) (selectedStates : list string)
    (stateInputs : gmap string StateInputs.t) : gmap string (list YearRow.t) :=
  foldl (fun schedules state =>
           <[state := map (yearRow h state (default StateInputs.empty (stateInputs !! state)))
                          (seq 2 9)]> schedules)
        ∅ selectedStates.

(** [{ ...args, newDeduction }] *)
Definition withNewDeduction (newDeduction : Q) (a : DeltaArgs.t) : DeltaArgs.t :=
  {| DeltaArgs.origDeduction := DeltaArgs.origDeduction a;
     DeltaArgs.newDeduction := newDeduction;
     DeltaArgs.agi := DeltaArgs.agi a;
     DeltaArgs.federalTaxableIncome := DeltaArgs.federalTaxableIncome a;
     DeltaArgs.totalIncome := DeltaArgs.totalIncome a;
     DeltaArgs.shortTermGains := DeltaArgs.shortTermGains a;
     DeltaArgs.longTermGains := DeltaArgs.longTermGains a;
     DeltaArgs.k401Ded := DeltaArgs.k401Ded a;
     DeltaArgs.hsaDed := DeltaArgs.hsaDed a;
     DeltaArgs.medicalDed := DeltaArgs.medicalDed a;
     DeltaArgs.ficaTax := DeltaArgs.ficaTax a;
     DeltaArgs.stateTax := DeltaArgs.stateTax a;
     DeltaArgs.sdiTax := DeltaArgs.sdiTax a;
     DeltaArgs.localTax := DeltaArgs.localTax a;
     DeltaArgs.niit := DeltaArgs.niit a;
     DeltaArgs.totalFederalTax := DeltaArgs.totalFederalTax a |}.

(** ** The delta charts *)

Definition STATE_ABBREVIATIONS : gmap string string :=
  {[ "California"%string := "CA"%string; "Colorado"%string := "CO"%string;
     "Ohio"%string := "OH"%string; "North Carolina"%string := "NC"%string;
     "Texas"%string := "TX"%string; "Florida"%string := "FL"%string ]}.

(** The two positions of a chart's Monthly / Annual switch. *)
Inductive view : Type := monthly | annual.

(** [resultsByState[state]?.field || 0] *)
Definition resultOr0 (resultsByState : gmap string Outcome.t) (state : string)
    (field : Outcome.t -> Q) : Q :=
  match resultsByState !! state with
  | Some r => or0 (field r)
  | None => 0
  end.

Module Bar.
Record t : Type := mk { name : string; Delta : Q }.
End Bar.

(** [STATE_ABBREVIATIONS[state] || state] *)
Definition barName (state : string) : string :=
  match STATE_ABBREVIATIONS !! state with
  | Some abbreviation => if String.eqb abbreviation "" then state else abbreviation
  | None => state
  end.

Definition takeHomeDeltaData (resultsByState : gmap string Outcome.t)
    (selectedStates : list string) (baseState : string) (takeHomeDeltaView : view)
    : list Bar.t :=
  map (fun state =>
         let baseValue :=
           match takeHomeDeltaView with
           | monthly => resultOr0 resultsByState baseState Outcome.monthlyTakeHome
           | annual => resultOr0 resultsByState baseState Outcome.annualTakeHome
           end in
         let stateValue :=
           match takeHomeDeltaView with
           | monthly => resultOr0 resultsByState state Outcome.monthlyTakeHome
           | annual => resultOr0 resultsByState state Outcome.annualTakeHome
           end in
         Bar.mk (barName state) (stateValue - baseValue))
      selectedStates.

Definition netCashDeltaData (resultsByState : gmap string Outcome.t)
    (selectedStates : list string) (baseState : string) (netCashDeltaView : view)
    : list Bar.t :=
  map (fun state =>
         let baseValue :=
           match netCashDeltaView with
           | monthly => resultOr0 resultsByState baseState Outcome.monthlyNetCash
           | annual => resultOr0 resultsByState baseState Outcome.monthlyNetCash * 12
           end in
         let stateValue :=
           match netCashDeltaView with
           | monthly => resultOr0 resultsByState state Outcome.monthlyNetCash
           | annual => resultOr0 resultsByState state Outcome.monthlyNetCash * 12
           end in
         Bar.mk (barName state) (stateValue - baseValue))
      selectedStates.

(** ** The retirement projection and the year-by-year growth of the chart *)

(** The value of [assets] after [n] turns of the chart loop
    [assets = assets * (1 + rate) + totalAnnualContribution] that starts
    from [currentAssets], had the loop not been left. *)
Fixpoint assetsAfter (rate contribution currentAssets : R) (n : nat) : R :=
  match n with
  | O => currentAssets
  | S n' => (assetsAfter rate contribution currentAssets n' * (1 + rate) + contribution)%R
  end.

Module Projection.

Local Open Scope R_scope.

Module YearValue.
Record t : Type := mk { year : R; value : R }.
End YearValue.

Record t : Type := mk {
  state : string;
  annualDifference : R;
  futureValue : R;
  chartData : list YearValue.t
}.

(** [Math.floor], which counts the turns of [for (let i = 1; i <= y; i++)]. *)
Definition floor (x : R) : Z := (up x - 1)%Z.

(** [Math.max(0, Number(retirementAge) - Number(currentAge))] *)
Definition yearsToProject (retirementAge currentAge : R) : R :=
  Rmax 0 (retirementAge - currentAge).

(** The [for] loop of one state: [todo] turns are left, the next one is
    turn [i].  Returns the last [futureValue] and the points pushed. *)
Fixpoint projection_loop (todo i : nat) (currentAge rate annualDifference futureValue : R)
    : R * list YearValue.t :=
  match todo with
  | O => (futureValue, [])
  | S todo' =>
      let futureValue' := (futureValue + annualDifference) * (1 + rate) in
      let '(final, points) :=
        projection_loop todo' (S i) currentAge rate annualDifference futureValue' in
      (final, YearValue.mk (currentAge + INR i) futureValue' :: points)
  end.

Section ProjectionData.

Variables portfolioGrowthRate currentAge yearsToProject : R.
Variable monthlyNetSavings : gmap string R.
Variable baseState : string.

Definition projection (baseAnnualNetSavings : R) (state : string) : option t :=
  match monthlyNetSavings !! state with
  | None => None
  | Some savings =>
      let stateAnnualNetSavings := savings * 12 in
      let annualDifference := stateAnnualNetSavings - baseAnnualNetSavings in
      let rate := portfolioGrowthRate / 100 in
      let '(futureValue, futureValueChartData) :=
        projection_loop (Z.to_nat (floor yearsToProject)) 1 currentAge rate
                        annualDifference 0 in
      Some (mk state annualDifference futureValue futureValueChartData)
  end.

(** [projectionData]: empty without a base state or without its result;
    otherwise one entry per selected state that has a result. *)
Definition projectionData (selectedStates : list string) : list t :=
  if String.eqb baseState "" then []
  else match monthlyNetSavings !! baseState with
       | None => []
       | Some savings =>
           let baseAnnualNetSavings := savings * 12 in
           omap (projection baseAnnualNetSavings) selectedStates
       end.

End ProjectionData.

(** The sum [(1 + rate) + (1 + rate)^2 + ... + (1 + rate)^n]: what one unit
    saved at the start of every year has grown to after [n] years. *)
Fixpoint growthFactor (rate : R) (n : nat) : R :=
  match n with
  | O => 0
  | S n' => (growthFactor rate n' + 1) * (1 + rate)
  end.

End Projection.

(** * Properties *)

(** Linear arithmetic over [Q] and over [R]. *)
Ltac lraQ := Lqa.lra.
Ltac nraQ := Lqa.nra.
Ltac lraR := Lra.lra.

(** ** calculateTax *)

Lemma calculateTax_loop_nonpos brackets tax remainingIncome :
  remainingIncome <= 0 -> calculateTax_loop brackets tax remainingIncome = tax.
Proof.
  intros H. destruct brackets as [|b rest]; simpl; [reflexivity|].
  destruct (Qlt_le_dec 0 remainingIncome); [lraQ | reflexivity].
Qed.

Lemma min_bound_spec x b :
  match b with
  | Finite q => (x < q /\ min_bound x b == x) \/ (q <= x /\ min_bound x b == q)
  | Infinity => min_bound x b == x
  end.
Proof.
  destruct b as [q|]; simpl; [|reflexivity].
  destruct (Q.min_spec x q) as [[H1 H2]|[H1 H2]]; [left | right]; split; assumption.
Qed.

Lemma min_bound_proper x y b : x == y -> min_bound x b == min_bound y b.
Proof.
  intros H. destruct b as [q|]; simpl; [|assumption].
  destruct (Q.min_spec x q) as [[? ?]|[? ?]], (Q.min_spec y q) as [[? ?]|[? ?]]; lraQ.
Qed.

(** The loop respects [==] on the tax accumulated and on the income left. *)
Lemma calculateTax_loop_proper brackets :
  forall tax tax' rem rem', tax == tax' -> rem == rem' ->
    calculateTax_loop brackets tax rem == calculateTax_loop brackets tax' rem'.
Proof.
  induction brackets as [|b rest IH]; intros tax tax' rem rem' Ht Hr; simpl; [assumption|].
  pose proof (min_bound_proper rem rem' (bracket_span b) Hr) as Hm.
  destruct (Qlt_le_dec 0 rem), (Qlt_le_dec 0 rem'); try lraQ.
  destruct (Qlt_le_dec 0 (min_bound rem (bracket_span b))),
           (Qlt_le_dec 0 (min_bound rem' (bracket_span b))); try lraQ.
  - apply IH; [|lraQ].
    apply Qplus_comp; [assumption|]. apply Qmult_comp; [assumption | reflexivity].
  - apply IH; assumption.
Qed.

(** The tax already accumulated is carried through unchanged. *)
Lemma calculateTax_loop_acc brackets :
  forall tax rem, calculateTax_loop brackets tax rem == tax + calculateTax rem brackets.
Proof.
  unfold calculateTax.
  induction brackets as [|b rest IH]; intros tax rem; simpl; [lraQ|].
  destruct (Qlt_le_dec 0 rem); [|lraQ].
  destruct (Qlt_le_dec 0 (min_bound rem (bracket_span b))).
  - rewrite (IH (tax + _)), (IH (0 + _)). lraQ.
  - apply IH.
Qed.

Lemma calculateTax_nonpos brackets income :
  income <= 0 -> calculateTax income brackets = 0.
Proof. apply calculateTax_loop_nonpos. Qed.

(** One iteration of the loop, as an equation on [calculateTax]. *)
Lemma calculateTax_cons b rest income :
  0 < income ->
  let t := min_bound income (bracket_span b) in
  (0 < t -> calculateTax income (b :: rest)
            == t * Bracket.rate b + calculateTax (income - t) rest) /\
  (t <= 0 -> calculateTax income (b :: rest) == calculateTax income rest).
Proof.
  intros Hpos t. unfold calculateTax at 1 3. simpl. fold t.
  destruct (Qlt_le_dec 0 income); [|lraQ].
  destruct (Qlt_le_dec 0 t); split; intros Ht; try lraQ.
  - rewrite calculateTax_loop_acc. lraQ.
  - reflexivity.
Qed.

(** Between two incomes the tax grows, and by no more than the income
    difference taxed at a rate that bounds every rate of the table. *)
Lemma calculateTax_growth (R : Q) brackets :
  Forall (fun b => 0 <= Bracket.rate b /\ Bracket.rate b <= R) brackets ->
  0 <= R ->
  forall x y, x <= y ->
    calculateTax x brackets <= calculateTax y brackets /\
    calculateTax y brackets - calculateTax x brackets <= R * (y - x).
Proof.
  intros Hrates HR. induction Hrates as [|b rest [Hr0 HrR] _ IH]; intros x y Hxy.
  - unfold calculateTax; simpl. split; [lraQ | nraQ].
  - destruct (Qlt_le_dec 0 y) as [Hy|Hy].
    2:{ rewrite !calculateTax_nonpos by lraQ. split; [lraQ | nraQ]. }
    destruct (calculateTax_cons b rest y Hy) as [Hy1 Hy2].
    pose proof (min_bound_spec y (bracket_span b)) as Sy.
    destruct (Qlt_le_dec 0 x) as [Hx|Hx].
    + destruct (calculateTax_cons b rest x Hx) as [Hx1 Hx2].
      pose proof (min_bound_spec x (bracket_span b)) as Sx.
      set (tx := min_bound x (bracket_span b)) in *.
      set (ty := min_bound y (bracket_span b)) in *.
      assert (Htxy : tx <= ty /\ x - tx <= y - ty).
      { destruct (bracket_span b) as [s|]; [|lraQ].
        destruct Sx as [[? ?]|[? ?]], Sy as [[? ?]|[? ?]]; lraQ. }
      destruct Htxy as [Ht1 Ht2].
      destruct (Qlt_le_dec 0 tx) as [Htx|Htx].
      * specialize (Hx1 Htx). specialize (Hy1 ltac:(lraQ)).
        destruct (IH (x - tx) (y - ty) Ht2) as [I1 I2].
        split; [nraQ|]. rewrite Hx1, Hy1. nraQ.
      * specialize (Hx2 Htx).
        assert (Hty : ty <= 0).
        { destruct (bracket_span b) as [s|]; [|lraQ].
          destruct Sx as [[? ?]|[? ?]], Sy as [[? ?]|[? ?]]; lraQ. }
        specialize (Hy2 Hty). destruct (IH x y Hxy) as [I1 I2].
        split; lraQ.
    + rewrite (calculateTax_nonpos _ x Hx).
      set (ty := min_bound y (bracket_span b)) in *.
      assert (Hty : ty <= y).
      { destruct (bracket_span b) as [s|]; [|lraQ]. destruct Sy as [[? ?]|[? ?]]; lraQ. }
      destruct (Qlt_le_dec 0 ty) as [Htyp|Htyp].
      * specialize (Hy1 Htyp).
        destruct (IH 0 (y - ty) ltac:(lraQ)) as [I1 I2].
        rewrite (calculateTax_nonpos rest 0) in I1, I2 by lraQ.
        split; [nraQ|]. rewrite Hy1. nraQ.
      * specialize (Hy2 Htyp).
        destruct (IH 0 y ltac:(lraQ)) as [I1 I2].
        rewrite (calculateTax_nonpos rest 0) in I1, I2 by lraQ.
        split; [lraQ|]. nraQ.
Qed.

#[global] Instance calculateTax_Proper : Proper (Qeq ==> eq ==> Qeq) calculateTax.
Proof.
  intros x y Hxy bs ? <-. apply calculateTax_loop_proper; [reflexivity | assumption].
Qed.

Lemma top_rate_bounds brackets :
  Forall (fun b => 0 <= Bracket.rate b) brackets ->
  0 <= top_rate brackets /\
  Forall (fun b => 0 <= Bracket.rate b /\ Bracket.rate b <= top_rate brackets) brackets.
Proof.
  induction 1 as [|b rest Hb _ [IH0 IH]]; simpl; [split; [lraQ | constructor]|].
  destruct (Q.max_spec (Bracket.rate b) (top_rate rest)) as [[H1 H2]|[H1 H2]].
  - split; [lraQ|]. constructor; [lraQ|].
    eapply Forall_impl; [exact IH|]. simpl. intros c [? ?]. lraQ.
  - split; [lraQ|]. constructor; [lraQ|].
    eapply Forall_impl; [exact IH|]. simpl. intros c [? ?]. lraQ.
Qed.

Lemma span_total_nonneg pre : Forall bounded_span pre -> 0 <= span_total pre.
Proof.
  induction 1 as [|b rest (s & Hs & Hs0) _ IH]; simpl; [lraQ|].
  unfold finite_span. rewrite Hs. lraQ.
Qed.

(** A run of bounded brackets that the income covers is used up whole. *)
Lemma calculateTax_exhaust pre rest :
  Forall bounded_span pre ->
  forall x, span_total pre <= x ->
    calculateTax x (pre ++ rest) == tax_total pre + calculateTax (x - span_total pre) rest.
Proof.
  induction 1 as [|b pre' (s & Hs & Hs0) Hpre IH]; intros x Hx; simpl in *.
  - assert (E : x - 0 == x) by lraQ. rewrite E. lraQ.
  - pose proof (span_total_nonneg _ Hpre) as HS.
    unfold finite_span in *. rewrite Hs in Hx |- *.
    destruct (Qlt_le_dec 0 x) as [Hpos|Hneg].
    + destruct (calculateTax_cons b (pre' ++ rest) x Hpos) as [H1 H2].
      assert (Et : min_bound x (bracket_span b) == s).
      { rewrite Hs. simpl. destruct (Q.min_spec x s) as [[? ?]|[? ?]]; lraQ. }
      set (t := min_bound x (bracket_span b)) in *.
      destruct (Qlt_le_dec 0 t) as [Ht|Ht].
      * rewrite (H1 Ht).
        assert (E1 : x - t == x - s) by lraQ. rewrite E1.
        rewrite (IH (x - s)) by lraQ.
        assert (E2 : x - s - span_total pre' == x - (s + span_total pre')) by lraQ.
        rewrite E2. nraQ.
      * rewrite (H2 Ht). rewrite (IH x) by lraQ.
        assert (E2 : x - span_total pre' == x - (s + span_total pre')) by lraQ.
        rewrite E2. nraQ.
    + rewrite (calculateTax_nonpos _ x Hneg).
      pose proof (IH x ltac:(lraQ)) as IHx.
      rewrite (calculateTax_nonpos _ x Hneg) in IHx.
      rewrite (calculateTax_nonpos rest (x - span_total pre')) in IHx by lraQ.
      rewrite (calculateTax_nonpos rest (x - (s + span_total pre'))) by lraQ.
      assert (E : s == 0) by lraQ. rewrite E. lraQ.
Qed.

Lemma contiguous_app pre l : contiguous (pre ++ l) -> contiguous l.
Proof.
  induction pre as [|c pre' IH]; simpl; [tauto|].
  destruct (pre' ++ l) eqn:E; [|intros [_ H]; apply IH, H].
  destruct pre', l; simpl in *; try discriminate; trivial.
Qed.

(** In a contiguous ascending run that starts at floor [f], the brackets up
    to one with a finite [max] absorb exactly the income from [f] to that
    [max]. *)
Lemma span_total_chain pre : forall b rest f m,
  Forall ascending (pre ++ b :: rest) ->
  contiguous (pre ++ b :: rest) ->
  match pre ++ b :: rest with
  | c :: _ => bracket_floor c == f /\ f <= Bracket.min c /\ 0 <= f
  | [] => True
  end ->
  Bracket.max b = Finite m ->
  Forall bounded_span (pre ++ [b]) /\ span_total (pre ++ [b]) == m - f.
Proof.
  induction pre as [|c pre' IH]; intros b rest f m Hasc Hcont Hhd Hmax.
  - simpl in *. destruct Hhd as (Hfl & Hfm & Hf0).
    apply Forall_cons in Hasc as [Hb _]. unfold ascending in Hb. rewrite Hmax in Hb.
    assert (Hspan : bracket_span b = Finite (m - bracket_floor b))
      by (unfold bracket_span; rewrite Hmax; reflexivity).
    split.
    + constructor; [|constructor]. exists (m - bracket_floor b). split; [assumption | lraQ].
    + unfold finite_span. rewrite Hspan. lraQ.
  - rewrite <- app_comm_cons in *. destruct Hhd as (Hfl & Hfm & Hf0).
    apply Forall_cons in Hasc as [Hc Hasc].
    assert (Hnext : exists c' tl, pre' ++ b :: rest = c' :: tl)
      by (destruct pre'; simpl; eauto).
    destruct Hnext as (c' & tl & Etl).
    assert (Hc' : (exists mc, Bracket.max c = Finite mc /\ Bracket.min c' == mc + 1)
                  /\ contiguous (pre' ++ b :: rest)).
    { simpl in Hcont. rewrite Etl in Hcont |- *. exact Hcont. }
    destruct Hc' as ((mc & Hmc & Hmin') & Hcont').
    unfold ascending in Hc. rewrite Hmc in Hc.
    destruct (IH b rest mc m Hasc Hcont') as [IH1 IH2]; [|assumption|].
    { rewrite Etl. unfold bracket_floor.
      destruct (Qlt_le_dec 0 (Bracket.min c')); repeat split; lraQ. }
    assert (Hspan : bracket_span c = Finite (mc - bracket_floor c))
      by (unfold bracket_span; rewrite Hmc; reflexivity).
    split.
    + simpl. constructor; [|assumption].
      exists (mc - bracket_floor c). split; [assumption | lraQ].
    + simpl. unfold finite_span at 1. rewrite Hspan. lraQ.
Qed.

Lemma valid_FEDERAL_BRACKETS_MFJ : valid_brackets FEDERAL_BRACKETS_MFJ.
Proof.
  split.
  - repeat constructor; discriminate.
  - repeat constructor; discriminate.
  - simpl. repeat split; try (eexists; split; [reflexivity | reflexivity]).
  - reflexivity.
Qed.

(** Crossing the end [m] of a bracket of a well-formed table by at most one
    unit adds the next bracket's rate on the part above [m], and nothing
    else. *)
Lemma calculateTax_boundary pre b b' post m d :
  valid_brackets (pre ++ b :: b' :: post) ->
  Bracket.max b = Finite m ->
  0 <= d -> d <= 1 ->
  calculateTax (m + d) (pre ++ b :: b' :: post)
  == calculateTax m (pre ++ b :: b' :: post) + Bracket.rate b' * d.
Proof.
  intros [_ Hasc Hcont Hstart] Hmax Hd0 Hd1.
  destruct (span_total_chain pre b (b' :: post) 0 m Hasc Hcont) as [Hbs Htot];
    [|assumption|].
  { destruct pre as [|c pre']; simpl in *; unfold bracket_floor;
      match goal with |- context [Qlt_le_dec 0 ?x] => destruct (Qlt_le_dec 0 x) end;
      repeat split; lraQ. }
  pose proof (span_total_nonneg _ Hbs) as Hm0.
  replace (pre ++ b :: b' :: post) with ((pre ++ [b]) ++ b' :: post)
    by (rewrite <- app_assoc; reflexivity).
  rewrite (calculateTax_exhaust _ (b' :: post) Hbs (m + d)) by lraQ.
  rewrite (calculateTax_exhaust _ (b' :: post) Hbs m) by lraQ.
  rewrite (calculateTax_nonpos (b' :: post) (m - _)) by lraQ.
  set (x := m + d - span_total (pre ++ [b])).
  assert (Ex : x == d) by (unfold x; lraQ).
  destruct (Qlt_le_dec 0 d) as [Hpos|Hzero].
  2:{ rewrite (calculateTax_nonpos (b' :: post) x) by lraQ.
      assert (E : d == 0) by lraQ. rewrite E. lraQ. }
  (* the bracket above the boundary is at least one unit wide *)
  apply contiguous_app in Hcont. simpl in Hcont.
  destruct Hcont as [(m0 & Hm0' & Hmin') _].
  rewrite Hmax in Hm0'. injection Hm0' as <-.
  apply Forall_app in Hasc as [_ Hasc].
  apply Forall_cons in Hasc as [_ Hasc]. apply Forall_cons in Hasc as [Hb' _].
  assert (Ht : min_bound x (bracket_span b') == d).
  { unfold bracket_span, ascending, bracket_floor in *.
    destruct (Bracket.max b') as [m'|]; simpl; [|assumption].
    destruct (Qlt_le_dec 0 (Bracket.min b')); [|lraQ].
    destruct (Q.min_spec x (m' - (Bracket.min b' - 1))) as [[? ?]|[? ?]]; lraQ. }
  destruct (calculateTax_cons b' post x ltac:(lraQ)) as [H1 _].
  rewrite H1 by lraQ.
  rewrite (calculateTax_nonpos post) by lraQ.
  rewrite Ht. lraQ.
Qed.

(** C3.  For a bracket table that satisfies the configuration precondition,
    [calculateTax] is non-decreasing in the income, never grows faster than
    the top rate of the table (so it has no jump anywhere), and across the
    end of a bracket it grows by exactly the next bracket's marginal rate
    applied to the part of the boundary unit above that end. *)
Theorem calculateTax_monotone_continuous brackets :
  valid_brackets brackets ->
  (forall I J, I <= J ->
     calculateTax I brackets <= calculateTax J brackets /\
     calculateTax J brackets - calculateTax I brackets <= top_rate brackets * (J - I)) /\
  (forall pre b b' post m d,
     brackets = pre ++ b :: b' :: post ->
     Bracket.max b = Finite m -> 0 <= d -> d <= 1 ->
     calculateTax (m + d) brackets == calculateTax m brackets + Bracket.rate b' * d).
Proof.
  intros Hv. split.
  - intros I J HIJ.
    destruct (top_rate_bounds brackets (valid_rates _ Hv)) as [H0 Hall].
    exact (calculateTax_growth _ brackets Hall H0 I J HIJ).
  - intros pre b b' post m d -> Hmax Hd0 Hd1.
    apply calculateTax_boundary; assumption.
Qed.

Lemma calculateTax_monotone_continuous_witness :
  valid_brackets FEDERAL_BRACKETS_MFJ /\
  (calculateTax 23850 FEDERAL_BRACKETS_MFJ <= calculateTax 23851 FEDERAL_BRACKETS_MFJ /\
   calculateTax 23851 FEDERAL_BRACKETS_MFJ - calculateTax 23850 FEDERAL_BRACKETS_MFJ
   <= top_rate FEDERAL_BRACKETS_MFJ * (23851 - 23850)) /\
  calculateTax (23850 + 1) FEDERAL_BRACKETS_MFJ
  == calculateTax 23850 FEDERAL_BRACKETS_MFJ + 0.12 * 1.
Proof.
  assert (Hv : valid_brackets FEDERAL_BRACKETS_MFJ).
  { split.
    - repeat constructor; discriminate.
    - repeat constructor; discriminate.
    - simpl. repeat split; eexists; split; reflexivity.
    - reflexivity. }
  destruct (calculateTax_monotone_continuous FEDERAL_BRACKETS_MFJ Hv) as [Hmono Hbd].
  split; [exact Hv|]. split.
  - apply Hmono. discriminate.
  - apply (Hbd [] (Bracket.mk 0.10 0 (Finite 23850)) (Bracket.mk 0.12 23851 (Finite 96950))
               (tl (tl FEDERAL_BRACKETS_MFJ)) 23850 1); try reflexivity; discriminate.
Defined.

(** Every table of the configuration satisfies the precondition. *)
Lemma configured_tables_valid :
  valid_brackets FEDERAL_BRACKETS_MFJ /\
  map_Forall (fun _ brackets => valid_brackets brackets) STATE_TAX_DATA.
Proof.
  split; [apply valid_FEDERAL_BRACKETS_MFJ|].
  unfold STATE_TAX_DATA.
  repeat (apply map_Forall_insert_2; [|]); try apply map_Forall_empty;
    (split; [repeat constructor; discriminate | repeat constructor; discriminate
            | simpl; repeat split; eexists; split; reflexivity | reflexivity]).
Qed.

Example calculateTax_federal_100000 : calculateTax 100000 FEDERAL_BRACKETS_MFJ == 11828.
Proof. vm_compute. reflexivity. Qed.

Example calculateTax_empty_table : calculateTax 100000 [] == 0.
Proof. reflexivity. Qed.

(** ** Capital-gains stacking *)

(** Case analysis on every [Qmin] and [Qmax] of the goal. *)
Ltac note_minmax :=
  repeat match goal with
  | |- context [Qmin ?a ?b] =>
      lazymatch goal with
      | _ : _ \/ (b <= a /\ Qmin a b == b) |- _ => fail
      | _ => pose proof (Q.min_spec a b)
      end
  | |- context [Qmax ?a ?b] =>
      lazymatch goal with
      | _ : _ \/ (b <= a /\ Qmax a b == a) |- _ => fail
      | _ => pose proof (Q.max_spec a b)
      end
  end.

Ltac minmax :=
  note_minmax;
  repeat match goal with H : _ \/ _ |- _ => destruct H as [[? ?]|[? ?]] end;
  try lraQ.

Lemma zeroRateMax_value : zeroRateMax = 96950.
Proof. reflexivity. Qed.

Lemma fifteenRateMax_value : fifteenRateMax = 583750.
Proof. reflexivity. Qed.

(** C4.  With a non-negative long-term gain and an ordinary taxable income
    at or above the ceiling of the 15% tier, nothing is allocated to the 0%
    and 15% tiers and the capital-gains tax is 20% of the whole gain, in
    [resultsByState] and in [calcMonthlyTakeHomeDelta] alike. *)
Theorem capitalGainsTax_top_rate ordinaryIncome longTermGains :
  0 <= longTermGains ->
  fifteenRateMax <= ordinaryIncome ->
  taxableAtZero ordinaryIncome longTermGains == 0 /\
  taxableAtFifteen ordinaryIncome longTermGains == 0 /\
  capitalGainsTax ordinaryIncome longTermGains == 0.20 * longTermGains /\
  newCapitalGainsTax ordinaryIncome longTermGains == 0.20 * longTermGains.
Proof.
  intros HL HO.
  rewrite fifteenRateMax_value in HO.
  unfold capitalGainsTax, newCapitalGainsTax, remainingLTCG, taxableAtFifteen, taxableAtZero.
  rewrite zeroRateMax_value, fifteenRateMax_value.
  repeat split;
    repeat match goal with |- context [Qlt_le_dec ?a ?b] => destruct (Qlt_le_dec a b) end;
    minmax.
Qed.

Lemma capitalGainsTax_top_rate_witness :
  capitalGainsTax 600000 10000 == 0.20 * 10000.
Proof.
  apply (capitalGainsTax_top_rate 600000 10000); discriminate.
Defined.

(** C9.  For a non-negative long-term gain and any ordinary taxable income,
    the amounts that reach the 0%, 15% and 20% tiers are non-negative and
    add up to the gain, and the tax is the 15% and 20% amounts at their
    rates: nothing is dropped and nothing is taxed twice. *)
Theorem capitalGains_partition ordinaryIncome longTermGains :
  0 <= longTermGains ->
  0 <= taxableAtZero ordinaryIncome longTermGains /\
  0 <= taxableAtFifteen ordinaryIncome longTermGains /\
  0 <= taxableAtTwenty ordinaryIncome longTermGains /\
  taxableAtZero ordinaryIncome longTermGains
  + taxableAtFifteen ordinaryIncome longTermGains
  + taxableAtTwenty ordinaryIncome longTermGains == longTermGains /\
  capitalGainsTax ordinaryIncome longTermGains
  == taxableAtFifteen ordinaryIncome longTermGains * 0.15
     + taxableAtTwenty ordinaryIncome longTermGains * 0.20 /\
  newCapitalGainsTax ordinaryIncome longTermGains
  == taxableAtFifteen ordinaryIncome longTermGains * 0.15
     + taxableAtTwenty ordinaryIncome longTermGains * 0.20.
Proof.
  intros HL.
  unfold capitalGainsTax, newCapitalGainsTax, taxableAtTwenty, remainingLTCG,
    taxableAtFifteen, taxableAtZero.
  repeat split;
    repeat match goal with |- context [Qlt_le_dec ?a ?b] => destruct (Qlt_le_dec a b) end;
    minmax.
Qed.

Lemma capitalGains_partition_witness :
  taxableAtZero (-5000) 700000 + taxableAtFifteen (-5000) 700000
  + taxableAtTwenty (-5000) 700000 == 700000.
Proof.
  apply (capitalGains_partition (-5000) 700000). discriminate.
Defined.

(** ** The evaluation of one household in several states *)

Lemma resultsByState_fold h (stateInputs : gmap string StateInputs.t)
    (selectedStates : list string) :
  forall (acc : gmap string Outcome.t) (state : string),
    foldl (fun newResults s =>
             <[s := stateResult h s (default StateInputs.empty (stateInputs !! s))]>
               newResults) acc selectedStates !! state
    = if decide (state ∈ selectedStates)
      then Some (stateResult h state (default StateInputs.empty (stateInputs !! state)))
      else acc !! state.
Proof.
  induction selectedStates as [|s rest IH]; intros acc state; cbn [foldl].
  - destruct (decide (state ∈ [])) as [Hin|_]; [|reflexivity].
    apply elem_of_nil in Hin. contradiction.
  - rewrite IH.
    destruct (decide (state ∈ rest)) as [Hin|Hnin],
             (decide (state ∈ s :: rest)) as [Hin'|Hnin']; try reflexivity.
    + exfalso. apply Hnin'. right. assumption.
    + apply elem_of_cons in Hin' as [->|Hin']; [|contradiction].
      apply lookup_insert_eq.
    + apply lookup_insert_ne. intros ->. apply Hnin'. left.
Qed.

(** Every entry of [resultsByState] is the result computed for its state,
    and there is an entry exactly for the selected states. *)
Lemma resultsByState_lookup h (selectedStates : list string)
    (stateInputs : gmap string StateInputs.t) state o :
  resultsByState h selectedStates stateInputs !! state = Some o <->
  state ∈ selectedStates /\
  o = stateResult h state (default StateInputs.empty (stateInputs !! state)).
Proof.
  unfold resultsByState. rewrite resultsByState_fold.
  destruct (decide (state ∈ selectedStates)) as [Hin|Hnin].
  - split; [intros [= <-]; split; [assumption | reflexivity] | intros [_ ->]; reflexivity].
  - rewrite lookup_empty. split; [discriminate | intros [Hin _]; contradiction].
Qed.

Lemma Qmax_cases (a b : Q) : Qmax a b = a \/ Qmax a b = b.
Proof.
  unfold Qmax, GenericMinMax.gmax. destruct (a ?= b); [left | right | left]; reflexivity.
Qed.

(** C5.  In the buy evaluation of any household in any state, the federal
    and the state deduction are each at least the itemized total and at
    least the standard deduction of that level, and each is one of the two:
    the larger, never a value in between.  The outcome stored for a selected
    state carries that federal deduction. *)
Theorem deduction_is_larger_of_itemized_and_standard h state currentStateInputs :
  let itemized := totalFederalItemizedDeductions h state currentStateInputs in
  let federal := deductionToUse h state currentStateInputs in
  let stateItemized := stateItemizedDed h state currentStateInputs in
  let stateStandard := stateStandardDed state in
  let stateDeduction := stateDeductionToUse h state currentStateInputs in
  (itemized <= federal /\ FEDERAL_STANDARD_DEDUCTION_MFJ <= federal /\
   (federal = itemized \/ federal = FEDERAL_STANDARD_DEDUCTION_MFJ) /\
   federal == Qmax itemized FEDERAL_STANDARD_DEDUCTION_MFJ) /\
  (stateItemized <= stateDeduction /\ stateStandard <= stateDeduction /\
   (stateDeduction = stateItemized \/ stateDeduction = stateStandard) /\
   stateDeduction == Qmax stateItemized stateStandard) /\
  Outcome.deductionToUse (stateResult h state currentStateInputs) = federal /\
  Outcome.stateTaxableIncome (stateResult h state currentStateInputs)
  = Qmax 0 (stateAgi h state - stateDeduction).
Proof.
  cbv zeta. unfold deductionToUse, stateDeductionToUse.
  repeat split; try reflexivity; try apply Qmax_cases; minmax.
Qed.

(** C6.  In the federal itemized total of any household in any state, the
    SALT component is the SALT paid capped at [SALT_CAP], so it never
    exceeds the cap; the cap is applied to that sub-total alone, and the
    mortgage interest and the other itemized amount are added to it
    uncapped.  The outcome reports the capped component. *)
Theorem salt_component_capped h state currentStateInputs :
  let salt := cappedSalt h state currentStateInputs in
  let paid :=
    stateTax h state currentStateInputs + propertyTaxVal currentStateInputs
    + sdiTax h state + localTax h currentStateInputs in
  salt <= SALT_CAP /\
  salt == Qmin paid SALT_CAP /\
  totalFederalItemizedDeductions h state currentStateInputs
  == federalAnnualMortgageInterest currentStateInputs + salt + otherItemizedVal h /\
  Itemized.salt (Outcome.itemized (stateResult h state currentStateInputs)) = salt.
Proof.
  cbv zeta. unfold totalFederalItemizedDeductions, cappedSalt, totalSaltPaid.
  repeat split; try reflexivity. minmax.
Qed.

(** C10.  Two evaluations of the same household inputs, whatever states are
    selected and whatever housing inputs they have, give every state the
    same AGI, the same payroll tax and the same NIIT; and in each outcome
    the rent sub-outcome carries the NIIT of the buy outcome. *)
Theorem agi_fica_niit_independent_of_state_and_housing
    h selectedStates1 stateInputs1 selectedStates2 stateInputs2 state1 state2 o1 o2 :
  resultsByState h selectedStates1 stateInputs1 !! state1 = Some o1 ->
  resultsByState h selectedStates2 stateInputs2 !! state2 = Some o2 ->
  Outcome.agi o1 = Outcome.agi o2 /\
  Outcome.ficaTax o1 = Outcome.ficaTax o2 /\
  Outcome.niit o1 = Outcome.niit o2 /\
  Rent.niit (Outcome.rent o1) = Outcome.niit o1 /\
  Rent.niit (Outcome.rent o2) = Outcome.niit o2.
Proof.
  intros H1 H2.
  apply resultsByState_lookup in H1 as [_ ->].
  apply resultsByState_lookup in H2 as [_ ->].
  repeat split; reflexivity.
Qed.

Lemma agi_fica_niit_independent_of_state_and_housing_witness :
  let h := household initialState in
  let o1 := stateResult h "Texas" StateInputs.empty in
  let o2 := stateResult h "Ohio"
              (StateInputs.mk (Js.VNumber 0) (Js.VNumber 0) (Js.VNumber 5500)
                 (Js.VNumber 1000) (Js.VNumber 2.5) (Js.VNumber 1800)) in
  Outcome.agi o1 = Outcome.agi o2 /\
  Outcome.ficaTax o1 = Outcome.ficaTax o2 /\
  Outcome.niit o1 = Outcome.niit o2 /\
  Rent.niit (Outcome.rent o1) = Outcome.niit o1 /\
  Rent.niit (Outcome.rent o2) = Outcome.niit o2.
Proof.
  intros h o1 o2.
  apply (agi_fica_niit_independent_of_state_and_housing h
           ["Texas"%string] ∅
           ["California"%string; "Ohio"%string]
           {[ "Ohio"%string :=
                StateInputs.mk (Js.VNumber 0) (Js.VNumber 0) (Js.VNumber 5500)
                  (Js.VNumber 1000) (Js.VNumber 2.5) (Js.VNumber 1800) ]}
           "Texas"%string "Ohio"%string o1 o2).
  - vm_compute. reflexivity.
  - vm_compute. reflexivity.
Defined.

(** ** The amortization schedule *)

Lemma schedule_loop_length todo : forall i years r monthlyPayment balance yearInterest,
  length (schedule_loop todo i years r monthlyPayment balance yearInterest)
  = length yearInterest.
Proof.
  induction todo as [|todo IH]; intros; cbn [schedule_loop]; [reflexivity|].
  destruct (Qlt_le_dec 0 balance); [|reflexivity].
  rewrite IH. destruct (i / 12 <? years)%nat; [apply length_alter | reflexivity].
Qed.

(** From the thirteenth month on the loop leaves the first year alone. *)
Lemma schedule_loop_later_months todo : forall i years r monthlyPayment balance yearInterest,
  (12 <= i)%nat ->
  schedule_loop todo i years r monthlyPayment balance yearInterest !! 0%nat
  = yearInterest !! 0%nat.
Proof.
  induction todo as [|todo IH]; intros i years r mp balance yi Hi; cbn [schedule_loop]; [reflexivity|].
  destruct (Qlt_le_dec 0 balance); [|reflexivity].
  rewrite IH by lia.
  destruct (i / 12 <? years)%nat; [|reflexivity].
  apply list_lookup_alter_ne.
  assert (1 <= i / 12)%nat by (apply Nat.div_le_lower_bound; lia). lia.
Qed.

(** During the first twelve months a run for one year and a run for
    [years] years treat the first entry alike. *)
Lemma schedule_loop_first_year todo1 : forall todo2 i years r monthlyPayment balance y1 y2,
  (i + todo1 = 12)%nat -> (i + todo2 = years * 12)%nat -> (1 <= years)%nat ->
  y1 !! 0%nat = y2 !! 0%nat ->
  schedule_loop todo1 i 1 r monthlyPayment balance y1 !! 0%nat
  = schedule_loop todo2 i years r monthlyPayment balance y2 !! 0%nat.
Proof.
  induction todo1 as [|todo1 IH]; intros todo2 i years r mp balance y1 y2 H1 H2 Hy Hhd.
  - cbn [schedule_loop]. rewrite schedule_loop_later_months by lia. assumption.
  - destruct todo2 as [|todo2]; [nia|]. cbn [schedule_loop].
    destruct (Qlt_le_dec 0 balance); [|assumption].
    assert (Hidx : (i / 12 = 0)%nat) by (apply Nat.div_small; lia).
    rewrite Hidx.
    assert (Hy' : (0 <? years)%nat = true) by (apply Nat.ltb_lt; lia).
    rewrite Hy'. change (0 <? 1)%nat with true. cbv iota.
    apply IH; try lia.
    rewrite !list_lookup_alter. rewrite Hhd. reflexivity.
Qed.

Lemma is_zero_false q : ~ q == 0 -> Js.is_zero q = false.
Proof.
  intros H. unfold Js.is_zero. destruct (Qeq_bool q 0) eqn:E; [|reflexivity].
  apply Qeq_bool_iff in E. contradiction.
Qed.

(** C8.  For a nonzero principal and a nonzero annual rate, the one-year
    schedule is a single entry for year 1, and every schedule of one year
    or more (the ten-year one included) starts with that same entry; so
    the first-year interest read from either is the same. *)
Theorem first_year_interest_independent_of_length amount annualRate years :
  ~ amount == 0 -> ~ annualRate == 0 -> (1 <= years)%nat ->
  exists entry,
    getInterestSchedule amount annualRate 1 = [entry] /\
    AmortizationYear.year entry = 1%nat /\
    getInterestSchedule amount annualRate years !! 0%nat = Some entry /\
    getInterestSchedule amount annualRate 10 !! 0%nat = Some entry /\
    interest_at (getInterestSchedule amount annualRate years) 0
    = interest_at (getInterestSchedule amount annualRate 1) 0.
Proof.
  intros Ha Hr Hy. unfold interest_at, getInterestSchedule.
  rewrite (is_zero_false _ Ha), (is_zero_false _ Hr). cbv zeta. simpl orb. cbv iota.
  set (r := annualRate / 100 / 12).
  set (mp := amount * (r * (1 + r) ^ (30 * 12)) / ((1 + r) ^ (30 * 12) - 1)).
  set (one := schedule_loop (1 * 12) 0 1 r mp amount (replicate 1 0)).
  assert (Hlen : length one = 1%nat) by (unfold one; rewrite schedule_loop_length; reflexivity).
  destruct one as [|x [|? ?]] eqn:Eone; try discriminate.
  assert (Hhead : forall n, (1 <= n)%nat ->
            schedule_loop (n * 12) 0 n r mp amount (replicate n 0) !! 0%nat = Some x).
  { intros n Hn.
    rewrite <- (schedule_loop_first_year 12 (n * 12) 0 n r mp amount (replicate 1 0)
                  (replicate n 0)); try lia.
    - change 12%nat with (1 * 12)%nat at 1. fold one. rewrite Eone. reflexivity.
    - destruct n; [lia | reflexivity]. }
  exists (AmortizationYear.mk 1 x). repeat split.
  - rewrite list_lookup_imap, (Hhead years Hy). reflexivity.
  - rewrite list_lookup_imap, (Hhead 10%nat) by lia. reflexivity.
  - rewrite list_lookup_imap, (Hhead years Hy). reflexivity.
Qed.

Lemma first_year_interest_independent_of_length_witness :
  interest_at (getInterestSchedule 300000 5.9 10) 0
  = interest_at (getInterestSchedule 300000 5.9 1) 0.
Proof.
  destruct (first_year_interest_independent_of_length 300000 5.9 10)
    as (entry & _ & _ & _ & _ & H).
  - intros H. vm_compute in H. discriminate.
  - intros H. vm_compute in H. discriminate.
  - lia.
  - exact H.
Defined.

(** ** Saving and loading *)

Lemma or_else_truthy v d : Js.truthy v = true -> Js.or_else v d = v.
Proof. unfold Js.or_else. intros ->. reflexivity. Qed.

(** When no scalar field is falsy, loading what was just saved restores
    the engine inputs, and with them every outcome. *)
Lemma load_save_truthy st :
  App.scenarioName st <> ""%string ->
  scalars_truthy st ->
  let st' := handleLoadScenario (App.scenarioName st) (handleSaveScenario st) in
  household st' = household st /\
  App.selectedStates st' = App.selectedStates st /\
  App.stateInputs st' = App.stateInputs st /\
  results st' = results st.
Proof.
  intros Hname (H1 & H2 & H3 & H4 & H5 & H6 & H7).
  unfold handleSaveScenario, handleLoadScenario.
  apply String.eqb_neq in Hname. rewrite Hname. cbn [App.savedScenarios App.scenarioName].
  rewrite lookup_insert_eq. cbv zeta.
  unfold results, household. simpl.
  rewrite !or_else_truthy by assumption. repeat split; reflexivity.
Qed.

(** Loading a blob with no keys fills in the documented defaults. *)
Lemma load_empty_blob name st :
  App.savedScenarios st !! name = Some Scenario.empty ->
  let st' := handleLoadScenario name st in
  App.income st' = Js.VNumber 250000 /\ App.stGains st' = Js.VNumber 5000 /\
  App.ltGains st' = Js.VNumber 10000 /\ App.hsa st' = Js.VNumber 8300 /\
  App.k401 st' = Js.VNumber 46000 /\ App.medicalPremiums st' = Js.VNumber 6000 /\
  App.otherItemized st' = Js.VNumber 5000 /\
  App.selectedStates st' = ["California"; "Texas"]%string /\
  App.stateInputs st' = ∅.
Proof.
  intros H. unfold handleLoadScenario. rewrite H. simpl. repeat split; reflexivity.
Qed.

(** C2.  After the HSA box is cleared, saving the scenario and loading it
    back does not reproduce the engine inputs: the cleared field, which
    the engine reads as 0 before the save, comes back as the default 8300,
    and the AGI of the selected state Texas changes from 213000 to
    204700. *)
Theorem save_load_resets_cleared_field :
  App.hsa clearedHsa = Js.VString "" /\
  hsaDed (household clearedHsa) == 0 /\
  App.hsa reloaded = Js.VNumber 8300 /\
  hsaDed (household reloaded) == 8300 /\
  exists o o',
    results clearedHsa !! "Texas"%string = Some o /\
    results reloaded !! "Texas"%string = Some o' /\
    Outcome.agi o == 213000 /\ Outcome.agi o' == 204700 /\
    ~ Outcome.agi o == Outcome.agi o'.
Proof.
  split; [reflexivity|]. split; [vm_compute; reflexivity|].
  split; [vm_compute; reflexivity|]. split; [vm_compute; reflexivity|].
  eexists _, _. split; [|split].
  - unfold results. apply resultsByState_lookup. split; [|reflexivity].
    vm_compute. apply list_elem_of_In. simpl. tauto.
  - unfold results. apply resultsByState_lookup. split; [|reflexivity].
    vm_compute. apply list_elem_of_In. simpl. tauto.
  - cbn [Outcome.agi stateResult]. repeat split; try (vm_compute; reflexivity).
    intros H. vm_compute in H. discriminate.
Qed.

(** ** The backsolver *)

Section BacksolverProperties.

Import Retirement.
Local Open Scope R_scope.

Lemma Rleb_true x y : x <= y -> Rleb x y = true.
Proof. unfold Rleb. intros H. destruct (Rle_dec x y); [reflexivity | contradiction]. Qed.

Lemma Rleb_false x y : y < x -> Rleb x y = false.
Proof. unfold Rleb. intros H. destruct (Rle_dec x y); [lraR | reflexivity]. Qed.

Lemma Rltb_true x y : x < y -> Rltb x y = true.
Proof. unfold Rltb. intros H. destruct (Rlt_dec x y); [reflexivity | contradiction]. Qed.

Lemma Rltb_false x y : y <= x -> Rltb x y = false.
Proof. unfold Rltb. intros H. destruct (Rlt_dec x y); [lraR | reflexivity]. Qed.

(** Every row of the table carries the reported years of its own
    contribution. *)
Lemma table_row_years portfolioGrowthRate fiNumber currentAssets baseAnnualSavings
    (monthlyNetSavings : gmap string R) baseState currentAge
    (selectedStates : list string) r :
  In r (fst (backsolverCalculations portfolioGrowthRate fiNumber currentAssets
               baseAnnualSavings monthlyNetSavings baseState currentAge selectedStates)) ->
  Row.years r
  = reportedYears (portfolioGrowthRate / 100) fiNumber currentAssets
                  (Row.totalAnnualContribution r).
Proof.
  unfold backsolverCalculations.
  destruct (String.eqb baseState ""); [intros []|].
  destruct (monthlyNetSavings !! baseState); [|intros []].
  cbn [fst]. unfold tableData. intros Hin.
  apply in_map_iff in Hin as (state & <- & _). reflexivity.
Qed.

(** With a positive rate and both logarithm arguments positive, the value
    solved before the final cut-off is the closed form. *)
Lemma solveYears_positive_rate rate targetAssets currentAssets contribution :
  0 < rate ->
  0 < targetAssets * rate + contribution ->
  0 < currentAssets * rate + contribution ->
  solveYears rate targetAssets currentAssets contribution
  = Years (ln ((targetAssets * rate + contribution) / (currentAssets * rate + contribution))
           / ln (1 + rate)).
Proof.
  intros Hr H1 H2. unfold solveYears.
  assert (G : Rleb contribution 0 && Rleb (currentAssets * rate) 0 = false).
  { destruct (Rle_dec contribution 0) as [Hc|Hc].
    - rewrite (Rleb_true _ _ Hc), Rleb_false by lraR. reflexivity.
    - rewrite Rleb_false by lraR. reflexivity. }
  rewrite G, (Rltb_true _ _ Hr), (Rltb_true _ _ H1), (Rltb_true _ _ H2). reflexivity.
Qed.

(** With a zero rate the value solved before the final cut-off is the
    linear solution, or "never" when nothing is contributed. *)
Lemma solveYears_zero_rate targetAssets currentAssets contribution :
  solveYears 0 targetAssets currentAssets contribution
  = if Rltb 0 contribution
    then Years ((targetAssets - currentAssets) / contribution)
    else Never.
Proof.
  unfold solveYears. rewrite (Rltb_false 0 0) by lraR.
  destruct (Rlt_dec 0 contribution) as [Hc|Hc].
  - rewrite (Rltb_true _ _ Hc), Rleb_false by lraR. reflexivity.
  - rewrite Rltb_false by lraR.
    destruct (Rleb contribution 0 && Rleb (currentAssets * 0) 0); reflexivity.
Qed.

Lemma pow_101_100 : (101 / 100) ^ 100 < 11.
Proof.
  change 100%nat with (10 * 10)%nat. rewrite pow_mult.
  assert (H1 : (101 / 100) ^ 10 <= 12 / 10) by (simpl; lraR).
  assert (H2 : 0 <= (101 / 100) ^ 10) by (apply pow_le; lraR).
  apply Rle_lt_trans with ((12 / 10) ^ 10); [apply pow_incr; split; assumption|].
  simpl. lraR.
Qed.

(** At 1% growth, 1000 a year from nothing takes more than 100 years to
    reach 1000000. *)
Lemma slow_plan_exceeds_100 :
  100 < ln ((1000000 * (1 / 100) + 1000) / (0 * (1 / 100) + 1000)) / ln (1 + 1 / 100).
Proof.
  replace ((1000000 * (1 / 100) + 1000) / (0 * (1 / 100) + 1000)) with 11 by lraR.
  replace (1 + 1 / 100) with (101 / 100) by lraR.
  assert (Hln : 0 < ln (101 / 100)).
  { rewrite <- ln_1. apply ln_increasing; lraR. }
  apply Rmult_lt_reg_r with (ln (101 / 100)); [assumption|].
  unfold Rdiv at 2. rewrite Rmult_assoc, Rinv_l, Rmult_1_r by lraR.
  change 100 with (IZR (Z.of_nat 100)) at 1. rewrite <- INR_IZR_INZ.
  rewrite <- ln_pow by lraR.
  apply ln_increasing; [apply pow_lt; lraR | apply pow_101_100].
Qed.

(** C1 as stated fails: a finite solution above 100 years is reported as
    "never".  At 1% growth, 1000 a year from nothing towards 1000000 has
    both logarithm arguments positive, yet the reported value is not the
    closed form. *)
Lemma reportedYears_closed_form_counterexample :
  0 < 1 / 100 /\
  0 < 1000000 * (1 / 100) + 1000 /\
  0 < 0 * (1 / 100) + 1000 /\
  reportedYears (1 / 100) 1000000 0 1000 = Never /\
  reportedYears (1 / 100) 1000000 0 1000
  <> Years (ln ((1000000 * (1 / 100) + 1000) / (0 * (1 / 100) + 1000)) / ln (1 + 1 / 100)).
Proof.
  assert (E : reportedYears (1 / 100) 1000000 0 1000 = Never).
  { unfold reportedYears. rewrite solveYears_positive_rate by lraR.
    unfold finalYears. rewrite (Rltb_true _ _ slow_plan_exceeds_100). reflexivity. }
  repeat split; try lraR; [exact E | rewrite E; discriminate].
Qed.

(** C1, amended.  With a positive rate and both logarithm arguments
    positive, the reported years are the closed form whenever it is at
    most 100, and "never" when it exceeds 100. *)
Theorem reportedYears_positive_rate rate targetAssets currentAssets contribution :
  0 < rate ->
  0 < targetAssets * rate + contribution ->
  0 < currentAssets * rate + contribution ->
  let solved :=
    ln ((targetAssets * rate + contribution) / (currentAssets * rate + contribution))
    / ln (1 + rate) in
  (solved <= 100 -> reportedYears rate targetAssets currentAssets contribution = Years solved) /\
  (100 < solved -> reportedYears rate targetAssets currentAssets contribution = Never).
Proof.
  intros Hr H1 H2 solved. unfold reportedYears.
  rewrite solveYears_positive_rate by assumption. fold solved. unfold finalYears.
  split; intros H; [rewrite Rltb_false | rewrite Rltb_true]; auto.
Qed.

Lemma reportedYears_positive_rate_witness :
  let solved := ln ((2000000 * (7 / 100) + 50000) / (500000 * (7 / 100) + 50000))
                / ln (1 + 7 / 100) in
  (solved <= 100 -> reportedYears (7 / 100) 2000000 500000 50000 = Years solved) /\
  (100 < solved -> reportedYears (7 / 100) 2000000 500000 50000 = Never).
Proof.
  apply (reportedYears_positive_rate (7 / 100) 2000000 500000 50000); lraR.
Defined.

(** C7 as stated fails: at zero growth, 10000 a year from nothing towards
    2000000 solves to 200 years, which is reported as "never". *)
Lemma reportedYears_zero_rate_counterexample :
  0 < 10000 /\
  (2000000 - 0) / 10000 = 200 /\
  reportedYears 0 2000000 0 10000 = Never /\
  reportedYears 0 2000000 0 10000 <> Years ((2000000 - 0) / 10000).
Proof.
  assert (E : reportedYears 0 2000000 0 10000 = Never).
  { unfold reportedYears. rewrite solveYears_zero_rate, Rltb_true by lraR.
    unfold finalYears. rewrite Rltb_true by lraR. reflexivity. }
  repeat split; try lraR; [exact E | rewrite E; discriminate].
Qed.

(** C7, amended.  At a zero growth rate the reported years are
    [(target - currentAssets) / contribution] for a positive contribution
    whenever that quotient is at most 100, and "never" when the quotient
    exceeds 100 or the contribution is not positive; the quotient is
    formed only with a positive divisor and the rate takes no part in
    it. *)
Theorem reportedYears_zero_rate targetAssets currentAssets contribution :
  (contribution <= 0 ->
     reportedYears 0 targetAssets currentAssets contribution = Never) /\
  (0 < contribution -> (targetAssets - currentAssets) / contribution <= 100 ->
     reportedYears 0 targetAssets currentAssets contribution
     = Years ((targetAssets - currentAssets) / contribution)) /\
  (0 < contribution -> 100 < (targetAssets - currentAssets) / contribution ->
     reportedYears 0 targetAssets currentAssets contribution = Never).
Proof.
  unfold reportedYears. rewrite solveYears_zero_rate. repeat split.
  - intros Hc. rewrite Rltb_false by assumption. reflexivity.
  - intros Hc Hq. rewrite (Rltb_true _ _ Hc). unfold finalYears.
    rewrite Rltb_false by assumption. reflexivity.
  - intros Hc Hq. rewrite (Rltb_true _ _ Hc). unfold finalYears.
    rewrite Rltb_true by assumption. reflexivity.
Qed.

Lemma reportedYears_zero_rate_witness :
  reportedYears 0 2000000 500000 50000 = Years ((2000000 - 500000) / 50000).
Proof.
  apply (reportedYears_zero_rate 2000000 500000 50000); lraR.
Defined.

(** The chart never looks further than 50 years ahead, whatever the rows
    report: the cap on the horizon is separate from the reported years. *)
Lemma maxYears_capped table : (maxYears table <= 50)%Z.
Proof. unfold maxYears. lia. Qed.

Lemma series_loop_length portfolioGrowthRate fiNumber todo :
  forall i currentAge contribution assets,
    (length (series_loop portfolioGrowthRate fiNumber todo i currentAge contribution assets)
     <= todo)%nat.
Proof.
  induction todo as [|todo IH]; intros; simpl; [lia|].
  match goal with |- context [Rltb ?a ?b] => destruct (Rltb a b) end; simpl; [lia|].
  match goal with |- context [series_loop _ _ _ ?i ?a ?c ?x] => specialize (IH i a c x) end.
  lia.
Qed.

Lemma series_length portfolioGrowthRate fiNumber currentAssets currentAge table r :
  (length (series portfolioGrowthRate fiNumber currentAssets currentAge (maxYears table) r)
   <= 51)%nat.
Proof.
  unfold series. simpl.
  pose proof (series_loop_length portfolioGrowthRate fiNumber (Z.to_nat (maxYears table)) 1
                currentAge (Row.totalAnnualContribution r) currentAssets).
  pose proof (maxYears_capped table). lia.
Qed.

End BacksolverProperties.

(** ** More on the amortization schedule *)

Lemma div12_bounds i : (12 * (i / 12) <= i < 12 * (i / 12) + 12)%nat.
Proof.
  pose proof (Nat.div_mod_eq i 12). pose proof (Nat.mod_upper_bound i 12). lia.
Qed.

Lemma sum_months_ext f g n :
  (forall j, (j < n)%nat -> f j == g j) -> sum_months f n == sum_months g n.
Proof.
  induction n as [|n IH]; intros H; simpl; [reflexivity|].
  rewrite IH by (intros; apply H; lia). rewrite (H n) by lia. reflexivity.
Qed.

Lemma sum_months_zero_tail f n m :
  (n <= m)%nat -> (forall j, (n <= j < m)%nat -> f j == 0) ->
  sum_months f m == sum_months f n.
Proof.
  induction 1 as [|m Hle IH]; intros H; [reflexivity|]. simpl.
  rewrite IH by (intros; apply H; lia). rewrite (H m) by lia. lraQ.
Qed.

Lemma sum_months_le f g n :
  (forall j, (j < n)%nat -> f j <= g j) -> sum_months f n <= sum_months g n.
Proof.
  induction n as [|n IH]; intros H; simpl; [lraQ|].
  specialize (IH ltac:(intros; apply H; lia)). specialize (H n ltac:(lia)). lraQ.
Qed.

Lemma sum_months_app f a b :
  sum_months f (a + b) == sum_months f a + sum_months (fun j => f (a + j)%nat) b.
Proof.
  induction b as [|b IH]; simpl.
  - rewrite Nat.add_0_r. lraQ.
  - rewrite Nat.add_succ_r. simpl. rewrite IH. lraQ.
Qed.

Lemma monthlyRate_value annualRate : monthlyRate annualRate == annualRate * (1 # 1200).
Proof. unfold monthlyRate. field. Qed.

Section Amortization.

Variables amount annualRate : Q.
Hypothesis amount_pos : 0 < amount.
Hypothesis rate_pos : 0 < annualRate.

Let r := monthlyRate annualRate.
Let payment := monthlyPayment amount annualRate.
Let growth := (1 + r) ^ (30 * 12).
Let bal := balance_after r payment amount.

Lemma monthlyRate_pos : 0 < r.
Proof. unfold r. rewrite monthlyRate_value. lraQ. Qed.

Lemma growth_gt_1 : 1 < growth.
Proof.
  unfold growth. apply Qpower_1_lt; [|reflexivity].
  pose proof monthlyRate_pos. lraQ.
Qed.

(** [payment * (growth - 1) = amount * r * growth] *)
Lemma payment_equation : payment * (growth - 1) == amount * (r * growth).
Proof.
  unfold payment, monthlyPayment. fold r growth.
  pose proof growth_gt_1. field. lraQ.
Qed.

(** The payment is more than the interest on the whole principal. *)
Lemma payment_covers_interest : amount * r < payment.
Proof.
  pose proof payment_equation as E. pose proof growth_gt_1 as G.
  pose proof monthlyRate_pos as R.
  assert (0 < amount * r) by nraQ.
  assert (amount * r * (growth - 1) < payment * (growth - 1)) by nraQ.
  nraQ.
Qed.

Lemma balance_step i : bal (S i) == bal i * (1 + r) - payment.
Proof. unfold bal. simpl. lraQ. Qed.

Lemma balance_le_amount i : bal i <= amount /\ bal (S i) <= bal i.
Proof.
  pose proof payment_covers_interest as P. pose proof monthlyRate_pos as R.
  induction i as [|i [IH1 IH2]].
  - split; [unfold bal; simpl; lraQ|]. rewrite balance_step.
    replace (bal 0%nat) with amount by reflexivity. lraQ.
  - assert (bal (S i) <= amount) by lraQ. split; [assumption|].
    rewrite (balance_step (S i)). nraQ.
Qed.

Lemma balance_nonincreasing i j : (i <= j)%nat -> bal j <= bal i.
Proof.
  induction 1 as [|j _ IH]; [lraQ|].
  destruct (balance_le_amount j). lraQ.
Qed.

Lemma month_interest_positive i :
  0 < bal i -> month_interest r payment amount i == bal i * r.
Proof.
  intros H. unfold month_interest. fold bal. destruct (Qlt_le_dec 0 (bal i)); lraQ.
Qed.

Lemma month_interest_nonneg i : 0 <= month_interest r payment amount i.
Proof.
  unfold month_interest. fold bal. pose proof monthlyRate_pos.
  destruct (Qlt_le_dec 0 (bal i)); [nraQ | lraQ].
Qed.

Lemma month_interest_nonincreasing i j :
  (i <= j)%nat -> month_interest r payment amount j <= month_interest r payment amount i.
Proof.
  intros Hij. pose proof (balance_nonincreasing i j Hij). pose proof monthlyRate_pos.
  unfold month_interest. fold bal.
  destruct (Qlt_le_dec 0 (bal j)), (Qlt_le_dec 0 (bal i)); try nraQ; lraQ.
Qed.

Lemma month_interest_le_first i : month_interest r payment amount i <= amount * r.
Proof.
  pose proof (month_interest_nonincreasing 0 i ltac:(lia)) as H.
  unfold month_interest in H at 2. simpl in H.
  destruct (Qlt_le_dec 0 amount); lraQ.
Qed.

Lemma month_interest_zero_after i j :
  bal i <= 0 -> (i <= j)%nat -> month_interest r payment amount j == 0.
Proof.
  intros Hi Hij. pose proof (balance_nonincreasing i j Hij).
  unfold month_interest. fold bal. destruct (Qlt_le_dec 0 (bal j)); lraQ.
Qed.

(** What the entry of year [k + 1] holds when the loop is about to run
    month [i]. *)
Let partial (k i : nat) : Q :=
  sum_months (fun j => month_interest r payment amount (12 * k + j)) (Nat.min 12 (i - 12 * k))%nat.

Lemma schedule_loop_spec todo : forall i years (yearInterest : list Q),
  (i + todo = years * 12)%nat ->
  (forall k, (k < years)%nat -> exists x, yearInterest !! k = Some x /\ x == partial k i) ->
  forall k, (k < years)%nat ->
    exists x, schedule_loop todo i years r payment (bal i) yearInterest !! k = Some x /\
              x == year_interest amount annualRate k.
Proof.
  induction todo as [|todo IH]; intros i years yi Hi Hinv k Hk; cbn [schedule_loop].
  - destruct (Hinv k Hk) as (x & Hx & Ex). exists x. split; [assumption|].
    rewrite Ex. unfold partial, year_interest. fold r payment.
    replace (Nat.min 12 (i - 12 * k))%nat with 12%nat by lia. reflexivity.
  - destruct (Qlt_le_dec 0 (bal i)) as [Hpos|Hneg].
    + pose proof (div12_bounds i) as Hdiv.
      assert (Hlt : (i / 12 <? years)%nat = true) by (apply Nat.ltb_lt; lia).
      rewrite Hlt.
      change (bal i - (payment - bal i * r)) with (bal (S i)).
      apply IH; [lia| |assumption].
      intros k' Hk'. destruct (Hinv k' Hk') as (x & Hx & Ex).
      destruct (Nat.eq_dec k' (i / 12)%nat) as [->|Hne].
      * exists (x + bal i * r). split.
        -- rewrite list_lookup_alter_eq, Hx. reflexivity.
        -- rewrite Ex. unfold partial. clear Hlt Hk' Hx Ex.
           set (q := (i / 12)%nat) in *.
           replace (Nat.min 12 (S i - 12 * q))%nat with (S (i - 12 * q))%nat by lia.
           replace (Nat.min 12 (i - 12 * q))%nat with (i - 12 * q)%nat by lia.
           cbn [sum_months].
           replace (12 * q + (i - 12 * q))%nat with i by lia.
           rewrite (month_interest_positive i Hpos). reflexivity.
      * exists x. split.
        -- rewrite list_lookup_alter_ne by congruence. assumption.
        -- rewrite Ex. unfold partial.
           replace (Nat.min 12 (S i - 12 * k'))%nat with (Nat.min 12 (i - 12 * k'))%nat by lia.
           reflexivity.
    + destruct (Hinv k Hk) as (x & Hx & Ex). exists x. split; [assumption|].
      rewrite Ex. unfold partial, year_interest. fold r payment. symmetry.
      apply sum_months_zero_tail; [lia|].
      intros j Hj. apply (month_interest_zero_after i); [assumption | lia].
Qed.

(** Every entry of the schedule is the interest of its twelve months. *)
Lemma getInterestSchedule_entry years k :
  (k < years)%nat ->
  exists entry,
    getInterestSchedule amount annualRate years !! k = Some entry /\
    AmortizationYear.year entry = S k /\
    AmortizationYear.interest entry == year_interest amount annualRate k.
Proof.
  intros Hk. unfold getInterestSchedule.
  rewrite !is_zero_false by lraQ. cbv zeta. simpl orb. cbv iota.
  fold (monthlyRate annualRate). fold r.
  change (amount * (r * (1 + r) ^ (30 * 12)) / ((1 + r) ^ (30 * 12) - 1)) with payment.
  destruct (schedule_loop_spec (years * 12) 0 years (replicate years 0)) with (k := k)
    as (x & Hx & Ex); [lia| |assumption|].
  { intros k' Hk'. exists 0. split; [apply lookup_replicate_2; assumption|].
    unfold partial. simpl. reflexivity. }
  exists (AmortizationYear.mk (k + 1) x). split; [|split].
  - rewrite list_lookup_imap. change (bal 0%nat) with amount in Hx. rewrite Hx. reflexivity.
  - simpl. lia.
  - exact Ex.
Qed.

Lemma year_interest_nonneg k : 0 <= year_interest amount annualRate k.
Proof.
  unfold year_interest. fold r payment.
  apply Qle_trans with (sum_months (fun _ => 0) 12); [simpl; lraQ|].
  apply sum_months_le. intros. apply month_interest_nonneg.
Qed.

Lemma year_interest_nonincreasing k :
  year_interest amount annualRate (S k) <= year_interest amount annualRate k.
Proof.
  unfold year_interest. fold r payment. apply sum_months_le.
  intros j _. apply month_interest_nonincreasing. lia.
Qed.

Lemma year_interest_le_first k :
  year_interest amount annualRate k <= amount * annualRate / 100.
Proof.
  unfold year_interest. fold r payment.
  apply Qle_trans with (sum_months (fun _ => amount * r) 12).
  - apply sum_months_le. intros. apply month_interest_le_first.
  - assert (E : amount * annualRate / 100 == amount * annualRate * (1 # 100)) by field.
    rewrite E. simpl. unfold r. rewrite monthlyRate_value. nraQ.
Qed.

(** The balance in closed form: it falls from [amount] to 0 along
    [growth - (1 + r) ^ i]. *)
Lemma balance_closed_form i :
  bal i * (growth - 1) == amount * (growth - (1 + r) ^ Z.of_nat i).
Proof.
  pose proof monthlyRate_pos as R. pose proof payment_equation as E.
  induction i as [|i IH].
  - unfold bal. simpl. lraQ.
  - assert (S : bal (S i) == bal i * (1 + r) - payment) by (unfold bal; simpl; lraQ).
    rewrite S, Nat2Z.inj_succ, <- Z.add_1_r, Qpower_plus by lraQ.
    change ((1 + r) ^ 1) with (1 + r).
    set (p := (1 + r) ^ Z.of_nat i) in *.
    assert (H : (bal i * (1 + r) - payment) * (growth - 1)
                == bal i * (growth - 1) * (1 + r) - payment * (growth - 1)) by ring.
    rewrite H, IH, E. ring.
Qed.

Lemma balance_positive i : (i < 360)%nat -> 0 < bal i.
Proof.
  intros Hi. pose proof (balance_closed_form i) as C.
  pose proof growth_gt_1 as G. pose proof monthlyRate_pos as R.
  assert (P : (1 + r) ^ Z.of_nat i < growth).
  { unfold growth. apply Qpower_lt_compat_l; [lia | lraQ]. }
  assert (0 < amount * (growth - (1 + r) ^ Z.of_nat i)) by nraQ.
  nraQ.
Qed.

Lemma balance_paid_off : bal 360 == 0.
Proof.
  pose proof (balance_closed_form 360) as C.
  pose proof growth_gt_1 as G.
  change ((1 + r) ^ Z.of_nat 360) with growth in C.
  assert (H : bal 360 * (growth - 1) == 0) by (rewrite C; ring).
  nraQ.
Qed.

(** Interest paid over the first [n] months, while the balance stays
    positive: the payments made less the principal repaid. *)
Lemma interest_paid n :
  (n <= 360)%nat ->
  sum_months (month_interest r payment amount) n
  == inject_Z (Z.of_nat n) * payment - (amount - bal n).
Proof.
  induction n as [|n IH]; intros Hn.
  - unfold bal. simpl. ring.
  - cbn [sum_months]. rewrite IH by lia.
    rewrite (month_interest_positive n) by (apply balance_positive; lia).
    assert (S : bal (S n) == bal n * (1 + r) - payment) by (unfold bal; simpl; lraQ).
    rewrite S, Nat2Z.inj_succ, <- Z.add_1_r, inject_Z_plus. ring.
Qed.

Lemma years_sum_months K :
  sum_months (year_interest amount annualRate) K
  == sum_months (month_interest r payment amount) (12 * K).
Proof.
  induction K as [|K IH]; [reflexivity|].
  cbn [sum_months]. rewrite IH.
  replace (12 * S K)%nat with (12 * K + 12)%nat by lia.
  rewrite sum_months_app. reflexivity.
Qed.

End Amortization.


(** The total of a list whose entries are known up to [==]. *)
Lemma total_interest_lookup (g : nat -> Q) (schedule : list AmortizationYear.t) :
  forall offset,
    (forall k entry, schedule !! k = Some entry ->
       AmortizationYear.interest entry == g (offset + k)%nat) ->
    total_interest schedule == sum_months (fun k => g (offset + k)%nat) (length schedule).
Proof.
  induction schedule as [|e rest IH]; intros offset H; [reflexivity|].
  cbn [total_interest fold_right length]. fold (total_interest rest).
  rewrite (IH (S offset)).
  2:{ intros k entry Hk. rewrite (H (S k) entry Hk).
      replace (offset + S k)%nat with (S offset + k)%nat by lia. reflexivity. }
  rewrite (H 0%nat e eq_refl).
  change (S (length rest)) with (1 + length rest)%nat.
  rewrite (sum_months_app (fun k => g (offset + k)%nat) 1 (length rest)).
  simpl. rewrite Nat.add_0_r.
  assert (E : sum_months (fun k => g (S (offset + k))) (length rest)
              == sum_months (fun j => g (offset + S j)%nat) (length rest)).
  { apply sum_months_ext. intros j _. replace (offset + S j)%nat with (S (offset + j)) by lia.
    reflexivity. }
  rewrite E. ring.
Qed.

(** From month [12 * n] on the loop leaves the first [n] years alone. *)
Lemma schedule_loop_later_years todo : forall i years r payment balance yearInterest n k,
  (12 * n <= i)%nat -> (k < n)%nat ->
  schedule_loop todo i years r payment balance yearInterest !! k = yearInterest !! k.
Proof.
  induction todo as [|todo IH]; intros i years r mp balance yi n k Hi Hk;
    cbn [schedule_loop]; [reflexivity|].
  destruct (Qlt_le_dec 0 balance); [|reflexivity].
  rewrite (IH _ _ _ _ _ _ n) by lia.
  destruct (i / 12 <? years)%nat; [|reflexivity].
  apply list_lookup_alter_ne. pose proof (div12_bounds i). lia.
Qed.

(** During the first [n] years a run for [n] years and a run for more
    years treat the first [n] entries alike. *)
Lemma schedule_loop_common todo1 : forall todo2 i n years r payment balance y1 y2,
  (i + todo1 = n * 12)%nat -> (i + todo2 = years * 12)%nat -> (n <= years)%nat ->
  (forall k, (k < n)%nat -> y1 !! k = y2 !! k) ->
  forall k, (k < n)%nat ->
    schedule_loop todo1 i n r payment balance y1 !! k
    = schedule_loop todo2 i years r payment balance y2 !! k.
Proof.
  induction todo1 as [|todo1 IH]; intros todo2 i n years r mp balance y1 y2 H1 H2 Hn Hy k Hk.
  - cbn [schedule_loop]. rewrite (schedule_loop_later_years _ _ _ _ _ _ _ n) by lia.
    apply Hy, Hk.
  - destruct todo2 as [|todo2]; [lia|]. cbn [schedule_loop].
    destruct (Qlt_le_dec 0 balance); [|apply Hy, Hk].
    pose proof (div12_bounds i) as Hdiv.
    assert (E1 : (i / 12 <? n)%nat = true) by (apply Nat.ltb_lt; lia).
    assert (E2 : (i / 12 <? years)%nat = true) by (apply Nat.ltb_lt; lia).
    rewrite E1, E2. apply IH; try lia.
    intros k' Hk'. rewrite !list_lookup_alter.
    destruct (decide ((i / 12)%nat = k')) as [->|_]; rewrite (Hy _ Hk'); reflexivity.
Qed.

(** With no positive balance the loop does not run. *)
Lemma schedule_loop_stopped todo i years r payment balance yearInterest :
  balance <= 0 -> schedule_loop todo i years r payment balance yearInterest = yearInterest.
Proof.
  intros H. destruct todo; cbn [schedule_loop]; [reflexivity|].
  destruct (Qlt_le_dec 0 balance); [lraQ | reflexivity].
Qed.

Lemma getInterestSchedule_length amount annualRate years :
  ~ amount == 0 -> ~ annualRate == 0 ->
  length (getInterestSchedule amount annualRate years) = years.
Proof.
  intros Ha Hr. unfold getInterestSchedule.
  rewrite !is_zero_false by assumption. simpl orb. cbv iota zeta.
  rewrite length_imap, schedule_loop_length, length_replicate. reflexivity.
Qed.

Lemma getInterestSchedule_negative amount annualRate years k entry :
  amount < 0 ->
  getInterestSchedule amount annualRate years !! k = Some entry ->
  AmortizationYear.interest entry = 0.
Proof.
  intros Hneg. unfold getInterestSchedule.
  destruct (Js.is_zero amount || Js.is_zero annualRate); [intros [=]|]. cbv zeta.
  rewrite schedule_loop_stopped by lraQ.
  rewrite list_lookup_imap. intros H.
  destruct (replicate years 0 !! k) eqn:E; [|discriminate].
  apply lookup_replicate in E as [-> _]. injection H as <-. reflexivity.
Qed.

(** X1.  A schedule is empty when the amount or the rate is 0; otherwise
    it has one entry per requested year, numbered from 1; and a negative
    amount accrues no interest at all. *)
Theorem getInterestSchedule_shape amount annualRate years :
  (amount == 0 \/ annualRate == 0 -> getInterestSchedule amount annualRate years = []) /\
  (~ amount == 0 -> ~ annualRate == 0 ->
     length (getInterestSchedule amount annualRate years) = years /\
     forall k entry, getInterestSchedule amount annualRate years !! k = Some entry ->
       AmortizationYear.year entry = S k) /\
  (amount < 0 -> forall k entry,
     getInterestSchedule amount annualRate years !! k = Some entry ->
     AmortizationYear.interest entry = 0).
Proof.
  unfold getInterestSchedule. split; [|split].
  - intros [H|H]; apply Qeq_bool_iff in H; unfold Js.is_zero; rewrite H;
      [reflexivity | rewrite orb_true_r; reflexivity].
  - intros Ha Hr. rewrite !is_zero_false by assumption. simpl orb. cbv iota zeta. split.
    + rewrite length_imap, schedule_loop_length, length_replicate. reflexivity.
    + intros k entry H. rewrite list_lookup_imap in H.
      destruct (schedule_loop _ _ _ _ _ _ _ !! k); [|discriminate].
      injection H as <-. simpl. lia.
  - intros Hneg k entry. fold (getInterestSchedule amount annualRate years).
    apply getInterestSchedule_negative, Hneg.
Qed.

(** Below [n], a schedule for [n] years and a schedule for more years have
    the same entries. *)
Lemma getInterestSchedule_lookup_prefix amount annualRate n years k :
  (n <= years)%nat -> (k < n)%nat ->
  getInterestSchedule amount annualRate n !! k
  = getInterestSchedule amount annualRate years !! k.
Proof.
  intros Hn Hk. unfold getInterestSchedule.
  destruct (Js.is_zero amount || Js.is_zero annualRate); [reflexivity|].
  cbv zeta.
  set (r := annualRate / 100 / 12).
  set (mp := amount * (r * (1 + r) ^ (30 * 12)) / ((1 + r) ^ (30 * 12) - 1)).
  rewrite !list_lookup_imap.
  rewrite (schedule_loop_common (n * 12) (years * 12) 0 n years r mp amount
             (replicate n 0) (replicate years 0)); try lia; [reflexivity|].
  intros k' Hk'. rewrite !lookup_replicate_2 by lia. reflexivity.
Qed.

Lemma getInterestSchedule_length_le amount annualRate years :
  (length (getInterestSchedule amount annualRate years) <= years)%nat.
Proof.
  unfold getInterestSchedule.
  destruct (Js.is_zero amount || Js.is_zero annualRate); [simpl; lia|]. cbv zeta.
  rewrite length_imap, schedule_loop_length, length_replicate. lia.
Qed.

(** X2.  A schedule for [n] years is the beginning of every schedule for
    more years, entry for entry, whatever the amount and the rate. *)
Theorem getInterestSchedule_prefix amount annualRate n years :
  (n <= years)%nat ->
  getInterestSchedule amount annualRate n
  = take n (getInterestSchedule amount annualRate years).
Proof.
  intros Hn. apply list_eq. intros k.
  destruct (Nat.lt_ge_cases k n) as [Hk|Hk].
  - rewrite lookup_take_lt by assumption.
    apply getInterestSchedule_lookup_prefix; assumption.
  - rewrite lookup_take_ge by assumption. apply lookup_ge_None.
    pose proof (getInterestSchedule_length_le amount annualRate n). lia.
Qed.

Lemma getInterestSchedule_prefix_witness :
  getInterestSchedule 300000 5.9 3 = take 3 (getInterestSchedule 300000 5.9 10).
Proof. apply (getInterestSchedule_prefix 300000 5.9 3 10). lia. Defined.

(** X3.  For a positive amount and a positive rate, every year of the
    schedule carries an interest that is not negative, is at most one year
    of interest on the whole amount, and is not exceeded by the interest of
    the year after it. *)
Theorem schedule_interest_profile amount annualRate years k :
  0 < amount -> 0 < annualRate -> (k < years)%nat ->
  exists entry,
    getInterestSchedule amount annualRate years !! k = Some entry /\
    0 <= AmortizationYear.interest entry /\
    AmortizationYear.interest entry <= amount * annualRate / 100 /\
    forall next,
      getInterestSchedule amount annualRate years !! S k = Some next ->
      AmortizationYear.interest next <= AmortizationYear.interest entry.
Proof.
  intros Ha Hr Hk.
  destruct (getInterestSchedule_entry amount annualRate Ha Hr years k Hk) as (e & He & _ & Ee).
  exists e. split; [assumption|]. rewrite Ee. repeat split.
  - apply year_interest_nonneg; assumption.
  - apply year_interest_le_first; assumption.
  - intros next Hnext.
    assert (Hk' : (S k < years)%nat).
    { apply lookup_lt_Some in Hnext.
      rewrite getInterestSchedule_length in Hnext by lraQ. exact Hnext. }
    destruct (getInterestSchedule_entry amount annualRate Ha Hr years (S k) Hk')
      as (e' & He' & _ & Ee').
    rewrite Hnext in He'. injection He' as <-. rewrite Ee', Ee.
    apply year_interest_nonincreasing; assumption.
Qed.

Lemma schedule_interest_profile_witness :
  exists entry,
    getInterestSchedule 300000 5.9 10 !! 4%nat = Some entry /\
    0 <= AmortizationYear.interest entry /\
    AmortizationYear.interest entry <= 300000 * 5.9 / 100 /\
    forall next,
      getInterestSchedule 300000 5.9 10 !! 5%nat = Some next ->
      AmortizationYear.interest next <= AmortizationYear.interest entry.
Proof.
  apply (schedule_interest_profile 300000 5.9 10 4); [reflexivity | reflexivity | lia].
Defined.

(** X4.  Over the full thirty years of a loan with a positive amount and a
    positive rate, the interest of the schedule and the amount borrowed
    add up to the 360 monthly payments. *)
Theorem thirty_year_interest_total amount annualRate :
  0 < amount -> 0 < annualRate ->
  total_interest (getInterestSchedule amount annualRate 30) + amount
  == 360 * monthlyPayment amount annualRate.
Proof.
  intros Ha Hr.
  rewrite (total_interest_lookup (year_interest amount annualRate) _ 0).
  2:{ intros k entry Hk.
      assert (Hlt : (k < 30)%nat).
      { apply lookup_lt_Some in Hk.
        rewrite getInterestSchedule_length in Hk by lraQ. exact Hk. }
      destruct (getInterestSchedule_entry amount annualRate Ha Hr 30 k Hlt) as (e & He & _ & Ee).
      rewrite Hk in He. injection He as <-. exact Ee. }
  rewrite getInterestSchedule_length by lraQ.
  rewrite (sum_months_ext _ (year_interest amount annualRate)) by reflexivity.
  rewrite years_sum_months, interest_paid by first [assumption | lia].
  rewrite balance_paid_off by assumption.
  change (inject_Z (Z.of_nat (12 * 30))) with 360. ring.
Qed.

Lemma thirty_year_interest_total_witness :
  total_interest (getInterestSchedule 300000 5.9 30) + 300000
  == 360 * monthlyPayment 300000 5.9.
Proof. apply (thirty_year_interest_total 300000 5.9); reflexivity. Defined.

(** ** More on calculateTax *)

(** X5.  No tax is due on an income that is not positive, nor under a
    table without brackets; and when no rate is negative the tax on a
    non-negative income lies between 0 and the income taxed at the top rate
    of the table. *)
Theorem calculateTax_range income brackets :
  calculateTax income [] = 0 /\
  (income <= 0 -> calculateTax income brackets = 0) /\
  (Forall (fun b => 0 <= Bracket.rate b) brackets -> 0 <= income ->
     0 <= calculateTax income brackets /\
     calculateTax income brackets <= top_rate brackets * income).
Proof.
  split; [reflexivity|]. split; [apply calculateTax_nonpos|].
  intros Hrates Hinc.
  destruct (top_rate_bounds brackets Hrates) as [H0 Hall].
  destruct (calculateTax_growth _ brackets Hall H0 0 income Hinc) as [H1 H2].
  rewrite (calculateTax_nonpos brackets 0) in H1, H2 by lraQ.
  split; [assumption|]. lraQ.
Qed.

(** Inside the bracket that follows a bracket ending at [m], the tax is
    the tax at [m] plus the part of the income above [m] at that bracket's
    rate. *)
Lemma calculateTax_above_boundary pre b b' post m d :
  valid_brackets (pre ++ b :: b' :: post) ->
  Bracket.max b = Finite m ->
  0 <= d ->
  match Bracket.max b' with Finite m' => m + d <= m' | Infinity => True end ->
  calculateTax (m + d) (pre ++ b :: b' :: post)
  == calculateTax m (pre ++ b :: b' :: post) + Bracket.rate b' * d.
Proof.
  intros [_ Hasc Hcont Hstart] Hmax Hd0 Hd1.
  destruct (span_total_chain pre b (b' :: post) 0 m Hasc Hcont) as [Hbs Htot];
    [|assumption|].
  { destruct pre as [|c pre']; simpl in *; unfold bracket_floor;
      match goal with |- context [Qlt_le_dec 0 ?x] => destruct (Qlt_le_dec 0 x) end;
      repeat split; lraQ. }
  pose proof (span_total_nonneg _ Hbs) as Hm0.
  replace (pre ++ b :: b' :: post) with ((pre ++ [b]) ++ b' :: post)
    by (rewrite <- app_assoc; reflexivity).
  rewrite (calculateTax_exhaust _ (b' :: post) Hbs (m + d)) by lraQ.
  rewrite (calculateTax_exhaust _ (b' :: post) Hbs m) by lraQ.
  rewrite (calculateTax_nonpos (b' :: post) (m - _)) by lraQ.
  set (x := m + d - span_total (pre ++ [b])).
  assert (Ex : x == d) by (unfold x; lraQ).
  destruct (Qlt_le_dec 0 d) as [Hpos|Hzero].
  2:{ rewrite (calculateTax_nonpos (b' :: post) x) by lraQ.
      assert (E : d == 0) by lraQ. rewrite E. lraQ. }
  apply contiguous_app in Hcont. simpl in Hcont.
  destruct Hcont as [(m0 & Hm0' & Hmin') _].
  rewrite Hmax in Hm0'. injection Hm0' as <-.
  assert (Ht : min_bound x (bracket_span b') == d).
  { unfold bracket_span, bracket_floor in *.
    destruct (Bracket.max b') as [m'|]; simpl; [|assumption].
    destruct (Qlt_le_dec 0 (Bracket.min b')); [|lraQ].
    destruct (Q.min_spec x (m' - (Bracket.min b' - 1))) as [[? ?]|[? ?]]; lraQ. }
  destruct (calculateTax_cons b' post x ltac:(lraQ)) as [H1 _].
  rewrite H1 by lraQ.
  rewrite (calculateTax_nonpos post) by lraQ.
  rewrite Ht. lraQ.
Qed.

(** X6.  Under a well-formed table the tax is the usual progressive one:
    within the first bracket it is the income at that bracket's rate, and
    within a later bracket it is the tax at the end [m] of the bracket
    before plus the income above [m] at the later bracket's rate. *)
Theorem calculateTax_progressive brackets :
  valid_brackets brackets ->
  (forall b rest income,
     brackets = b :: rest -> 0 <= income ->
     match Bracket.max b with Finite m => income <= m | Infinity => True end ->
     calculateTax income brackets == Bracket.rate b * income) /\
  (forall pre b b' post m income,
     brackets = pre ++ b :: b' :: post ->
     Bracket.max b = Finite m -> m <= income ->
     match Bracket.max b' with Finite m' => income <= m' | Infinity => True end ->
     calculateTax income brackets
     == calculateTax m brackets + Bracket.rate b' * (income - m)).
Proof.
  intros Hv. split.
  - intros b rest income -> Hinc Hmax.
    destruct (Qlt_le_dec 0 income) as [Hpos|Hzero].
    2:{ rewrite calculateTax_nonpos by assumption.
        assert (E : income == 0) by lraQ. rewrite E. lraQ. }
    destruct Hv as [_ _ _ Hstart]. simpl in Hstart.
    assert (Ht : min_bound income (bracket_span b) == income).
    { unfold bracket_span, bracket_floor.
      destruct (Bracket.max b) as [m|]; simpl; [|reflexivity].
      destruct (Qlt_le_dec 0 (Bracket.min b)); [lraQ|].
      destruct (Q.min_spec income (m - 0)) as [[? ?]|[? ?]]; lraQ. }
    destruct (calculateTax_cons b rest income Hpos) as [H1 _].
    rewrite H1 by lraQ. rewrite (calculateTax_nonpos rest) by lraQ. rewrite Ht. lraQ.
  - intros pre b b' post m income -> Hmax Hinc Hmax'.
    assert (E : income == m + (income - m)) by lraQ.
    rewrite E at 1.
    apply calculateTax_above_boundary; try assumption; [lraQ|].
    destruct (Bracket.max b'); [lraQ | exact I].
Qed.

Lemma calculateTax_progressive_witness :
  calculateTax 20000 FEDERAL_BRACKETS_MFJ == 0.10 * 20000 /\
  calculateTax 100000 FEDERAL_BRACKETS_MFJ
  == calculateTax 96950 FEDERAL_BRACKETS_MFJ + 0.22 * (100000 - 96950).
Proof.
  destruct (calculateTax_progressive FEDERAL_BRACKETS_MFJ) as [H1 H2].
  - split.
    + repeat constructor; discriminate.
    + repeat constructor; discriminate.
    + simpl. repeat split; eexists; split; reflexivity.
    + reflexivity.
  - split.
    + apply (H1 (Bracket.mk 0.10 0 (Finite 23850)) (tl FEDERAL_BRACKETS_MFJ));
        [reflexivity | discriminate | discriminate].
    + apply (H2 [Bracket.mk 0.10 0 (Finite 23850)]
                (Bracket.mk 0.12 23851 (Finite 96950))
                (Bracket.mk 0.22 96951 (Finite 206700))
                (tl (tl (tl FEDERAL_BRACKETS_MFJ))) 96950 100000);
        try reflexivity; discriminate.
Defined.

(** ** More on the evaluation of a household *)

Lemma capitalGainsTax_nonneg ordinaryIncome longTermGains :
  0 <= longTermGains -> 0 <= capitalGainsTax ordinaryIncome longTermGains.
Proof.
  intros HL. unfold capitalGainsTax, remainingLTCG, taxableAtFifteen, taxableAtZero.
  repeat match goal with |- context [Qlt_le_dec ?a ?b] => destruct (Qlt_le_dec a b) end;
    minmax.
Qed.

(** The gains that stay below the ceiling of the 15% tier. *)
Lemma taxable_below_fifteen ordinaryIncome longTermGains :
  0 <= longTermGains ->
  taxableAtZero ordinaryIncome longTermGains + taxableAtFifteen ordinaryIncome longTermGains
  == Qmin longTermGains (Qmax 0 (fifteenRateMax - ordinaryIncome)).
Proof.
  intros HL. unfold taxableAtFifteen, taxableAtZero.
  rewrite zeroRateMax_value, fifteenRateMax_value. minmax.
Qed.

Lemma capitalGainsTax_closed ordinaryIncome longTermGains :
  0 <= longTermGains ->
  capitalGainsTax ordinaryIncome longTermGains
  == 0.20 * longTermGains
     - 0.15 * Qmin longTermGains (Qmax 0 (zeroRateMax - ordinaryIncome))
     - 0.05 * Qmin longTermGains (Qmax 0 (fifteenRateMax - ordinaryIncome)).
Proof.
  intros HL. rewrite <- taxable_below_fifteen by assumption.
  unfold capitalGainsTax, remainingLTCG, taxableAtFifteen, taxableAtZero.
  repeat match goal with |- context [Qlt_le_dec ?a ?b] => destruct (Qlt_le_dec a b) end;
    minmax.
Qed.

(** More ordinary income below the gains never lowers the tax on them. *)
Lemma capitalGainsTax_monotone x y longTermGains :
  0 <= longTermGains -> x <= y ->
  capitalGainsTax x longTermGains <= capitalGainsTax y longTermGains.
Proof.
  intros HL Hxy. rewrite !capitalGainsTax_closed by assumption. minmax.
Qed.

Lemma newCapitalGainsTax_eq ordinaryIncome longTermGains :
  newCapitalGainsTax ordinaryIncome longTermGains == capitalGainsTax ordinaryIncome longTermGains.
Proof.
  unfold newCapitalGainsTax, capitalGainsTax.
  destruct (Qlt_le_dec 0 (remainingLTCG ordinaryIncome longTermGains)); lraQ.
Qed.

Lemma federal_rates_nonneg : Forall (fun b => 0 <= Bracket.rate b) FEDERAL_BRACKETS_MFJ.
Proof. repeat constructor; discriminate. Qed.

Lemma state_rates_nonneg state : Forall (fun b => 0 <= Bracket.rate b) (stateBrackets state).
Proof.
  unfold stateBrackets. destruct (STATE_TAX_DATA !! state) as [bs|] eqn:E; [|constructor].
  destruct configured_tables_valid as [_ H]. apply (valid_rates _ (H state bs E)).
Qed.

Lemma calculateTax_monotone_rates brackets x y :
  Forall (fun b => 0 <= Bracket.rate b) brackets -> x <= y ->
  calculateTax x brackets <= calculateTax y brackets.
Proof.
  intros Hr Hxy. destruct (top_rate_bounds brackets Hr) as [H0 Hall].
  apply (calculateTax_growth _ brackets Hall H0 x y Hxy).
Qed.

Lemma calculateTax_nonneg brackets x :
  Forall (fun b => 0 <= Bracket.rate b) brackets -> 0 <= calculateTax x brackets.
Proof.
  intros Hr. destruct (Qlt_le_dec 0 x) as [Hx|Hx].
  - pose proof (calculateTax_monotone_rates brackets 0 x Hr ltac:(lraQ)) as H.
    rewrite (calculateTax_nonpos brackets 0) in H by lraQ. assumption.
  - rewrite calculateTax_nonpos by assumption. lraQ.
Qed.

Lemma ficaTax_nonneg h : 0 <= grossIncome h -> 0 <= ficaTax h.
Proof.
  intros Hg. unfold ficaTax, ssTax, medicareTax, additionalMedicareTax, ssWageBase.
  destruct (Qlt_le_dec 250000 (agi h)); minmax.
Qed.

Lemma niit_nonneg h : 0 <= niit h.
Proof. unfold niit, niitBase, NIIT_RATE. minmax. Qed.

Lemma localTax_nonneg h currentStateInputs : 0 <= agi h -> 0 <= localTax h currentStateInputs.
Proof.
  intros Ha. unfold localTax.
  destruct (Qlt_le_dec 0 (localTaxRateVal currentStateInputs)); [nraQ | lraQ].
Qed.

Lemma sdiTax_nonneg h state : 0 <= grossIncome h -> 0 <= sdiTax h state.
Proof.
  intros Hg. unfold sdiTax, CA_SDI_RATE. destruct (isCalifornia state); lraQ.
Qed.

(** X7.  With non-negative wages, long-term gains and AGI, no tax
    component of the outcome is negative, in the buy and in the rent
    evaluation, so the take-home pay never exceeds the AGI. *)
Theorem taxes_nonneg h state currentStateInputs :
  0 <= grossIncome h -> 0 <= longTermGains h -> 0 <= agi h ->
  let o := stateResult h state currentStateInputs in
  0 <= Outcome.ficaTax o /\ 0 <= Outcome.niit o /\ 0 <= Outcome.stateTax o /\
  0 <= Outcome.sdiTax o /\ 0 <= Outcome.localTax o /\
  0 <= Outcome.totalFederalTax o /\ 0 <= Outcome.totalTaxBurden o /\
  0 <= Rent.stateTax (Outcome.rent o) /\ 0 <= Rent.totalTaxBurden (Outcome.rent o) /\
  Outcome.annualTakeHome o <= Outcome.agi o /\
  Rent.annualTakeHome (Outcome.rent o) <= Outcome.agi o.
Proof.
  intros Hg HL Ha o. subst o. cbn [stateResult Outcome.ficaTax Outcome.niit Outcome.stateTax
    Outcome.sdiTax Outcome.localTax Outcome.totalFederalTax Outcome.totalTaxBurden
    Outcome.rent Rent.stateTax Rent.totalTaxBurden Outcome.annualTakeHome Outcome.agi
    Rent.annualTakeHome].
  pose proof (ficaTax_nonneg h Hg) as F. pose proof (niit_nonneg h) as N.
  pose proof (localTax_nonneg h currentStateInputs Ha) as Lc.
  pose proof (sdiTax_nonneg h state Hg) as Sd.
  assert (St : 0 <= stateTax h state currentStateInputs)
    by (apply calculateTax_nonneg, state_rates_nonneg).
  assert (RSt : 0 <= rentStateTax h state)
    by (apply calculateTax_nonneg, state_rates_nonneg).
  assert (Ot : 0 <= ordinaryTax h state currentStateInputs)
    by (apply calculateTax_nonneg, federal_rates_nonneg).
  assert (ROt : 0 <= rentOrdinaryTax h)
    by (apply calculateTax_nonneg, federal_rates_nonneg).
  pose proof (capitalGainsTax_nonneg (ordinaryIncome h state currentStateInputs) _ HL) as Cg.
  pose proof (capitalGainsTax_nonneg (rentOrdinaryIncome h) _ HL) as RCg.
  unfold annualTakeHome, rentAnnualTakeHome, totalTaxBurden, rentTotalTaxBurden,
    totalFederalTax, rentTotalFederalTax, rentSdiTax, rentLocalTax, rentNiit, rentNiitBase,
    rentNetInvestmentIncome.
  change (if isCalifornia state then grossIncome h * CA_SDI_RATE else 0) with (sdiTax h state).
  change (if Qlt_le_dec 0 (localTaxRateVal currentStateInputs)
          then agi h * localTaxRateVal currentStateInputs else 0)
    with (localTax h currentStateInputs).
  change (Qmax 0 (Qmin (shortTermGains h + longTermGains h) (agi h - NIIT_THRESHOLD_MFJ))
          * NIIT_RATE) with (niit h).
  unfold agi, aboveTheLineDeductions in *.
  repeat split; lraQ.
Qed.

Lemma taxes_nonneg_witness :
  0 <= Outcome.totalTaxBurden
         (stateResult (household initialState) "Texas" StateInputs.empty).
Proof.
  apply (taxes_nonneg (household initialState) "Texas" StateInputs.empty);
    vm_compute; discriminate.
Defined.

(** X8.  With non-negative long-term gains, itemizing as an owner never
    costs: the buy evaluation deducts at least as much as the rent
    evaluation at the federal and at the state level, so its federal tax,
    state tax and total burden are at most those of the rent evaluation
    and its take-home pay is at least as high. *)
Theorem buy_taxes_at_most_rent_taxes h state currentStateInputs :
  0 <= longTermGains h ->
  let o := stateResult h state currentStateInputs in
  Rent.deductionToUse (Outcome.rent o) <= Outcome.deductionToUse o /\
  Outcome.federalTaxableIncome o <= Rent.federalTaxableIncome (Outcome.rent o) /\
  Outcome.stateTaxableIncome o <= Rent.stateTaxableIncome (Outcome.rent o) /\
  Outcome.stateTax o <= Rent.stateTax (Outcome.rent o) /\
  Outcome.totalFederalTax o <= rentTotalFederalTax h /\
  Outcome.totalTaxBurden o <= Rent.totalTaxBurden (Outcome.rent o) /\
  Rent.annualTakeHome (Outcome.rent o) <= Outcome.annualTakeHome o /\
  Rent.monthlyTakeHome (Outcome.rent o) <= Outcome.monthlyTakeHome o.
Proof.
  intros HL o. subst o.
  cbn [stateResult Outcome.deductionToUse Outcome.federalTaxableIncome
       Outcome.stateTaxableIncome Outcome.stateTax Outcome.totalFederalTax
       Outcome.totalTaxBurden Outcome.annualTakeHome Outcome.monthlyTakeHome Outcome.rent
       Rent.deductionToUse Rent.federalTaxableIncome Rent.stateTaxableIncome Rent.stateTax
       Rent.totalTaxBurden Rent.annualTakeHome Rent.monthlyTakeHome].
  assert (D : rentDeductionToUse <= deductionToUse h state currentStateInputs).
  { unfold rentDeductionToUse, deductionToUse, FEDERAL_STANDARD_DEDUCTION_MFJ. minmax. }
  assert (F : federalTaxableIncome h state currentStateInputs <= rentFederalTaxableIncome h).
  { unfold federalTaxableIncome, rentFederalTaxableIncome. minmax. }
  assert (S : stateTaxableIncome h state currentStateInputs <= rentStateTaxableIncome h state).
  { unfold stateTaxableIncome, rentStateTaxableIncome, stateDeductionToUse, rentStateAgi,
      stateAgi, rentStateStandardDed.
    change (or0 (default 0 (STATE_STANDARD_DEDUCTIONS_MFJ !! state)))
      with (stateStandardDed state).
    minmax. }
  assert (St : stateTax h state currentStateInputs <= rentStateTax h state)
    by (apply calculateTax_monotone_rates; [apply state_rates_nonneg | exact S]).
  assert (O : ordinaryIncome h state currentStateInputs <= rentOrdinaryIncome h)
    by (unfold ordinaryIncome, rentOrdinaryIncome; lraQ).
  assert (Ot : ordinaryTax h state currentStateInputs <= rentOrdinaryTax h)
    by (apply calculateTax_monotone_rates; [apply federal_rates_nonneg | exact O]).
  pose proof (capitalGainsTax_monotone _ _ _ HL O) as Cg.
  assert (Fed : totalFederalTax h state currentStateInputs <= rentTotalFederalTax h).
  { unfold totalFederalTax, rentTotalFederalTax, rentNiit, rentNiitBase,
      rentNetInvestmentIncome.
    change (Qmax 0 (Qmin (shortTermGains h + longTermGains h) (agi h - NIIT_THRESHOLD_MFJ))
            * NIIT_RATE) with (niit h).
    lraQ. }
  assert (B : totalTaxBurden h state currentStateInputs
              <= rentTotalTaxBurden h state currentStateInputs).
  { unfold totalTaxBurden, rentTotalTaxBurden, rentSdiTax, rentLocalTax.
    change (if isCalifornia state then grossIncome h * CA_SDI_RATE else 0)
      with (sdiTax h state).
    change (if Qlt_le_dec 0 (localTaxRateVal currentStateInputs)
            then agi h * localTaxRateVal currentStateInputs else 0)
      with (localTax h currentStateInputs).
    lraQ. }
  assert (A : rentAnnualTakeHome h state currentStateInputs
              <= annualTakeHome h state currentStateInputs)
    by (unfold rentAnnualTakeHome, annualTakeHome; lraQ).
  repeat split; try assumption.
  unfold rentMonthlyTakeHome, monthlyTakeHome, Qdiv.
  apply Qmult_le_compat_r; [exact A | discriminate].
Qed.

Lemma buy_taxes_at_most_rent_taxes_witness :
  let o := stateResult (household initialState) "Ohio" StateInputs.empty in
  Outcome.totalTaxBurden o <= Rent.totalTaxBurden (Outcome.rent o).
Proof.
  apply (buy_taxes_at_most_rent_taxes (household initialState) "Ohio" StateInputs.empty).
  vm_compute. discriminate.
Defined.

(** X9.  A selected state without an entry in [stateInputs] is evaluated
    with every housing input read as 0: no mortgage interest, no property
    tax, no local tax and no housing cost in either scenario, so the net
    cash is the take-home pay. *)
Theorem missing_state_inputs_read_as_zero h (selectedStates : list string)
    (stateInputs : gmap string StateInputs.t) state :
  state ∈ selectedStates -> stateInputs !! state = None ->
  exists o,
    resultsByState h selectedStates stateInputs !! state = Some o /\
    o = stateResult h state StateInputs.empty /\
    Itemized.mortgageInterest (Outcome.itemized o) = 0 /\
    Itemized.propertyTax (Outcome.itemized o) = 0 /\
    Outcome.localTax o = 0 /\
    Outcome.monthlyHousingCost o = 0 /\
    Rent.monthlyHousingCost (Outcome.rent o) = 0 /\
    Outcome.monthlyNetCash o == Outcome.monthlyTakeHome o /\
    Rent.monthlyNetCash (Outcome.rent o) == Rent.monthlyTakeHome (Outcome.rent o).
Proof.
  intros Hin Hnone. eexists. split.
  - apply resultsByState_lookup. split; [exact Hin | reflexivity].
  - rewrite Hnone. cbn [default]. split; [reflexivity|].
    cbn [stateResult Outcome.itemized Itemized.mortgageInterest Itemized.propertyTax
         Outcome.localTax Outcome.monthlyHousingCost Outcome.rent Rent.monthlyHousingCost
         Outcome.monthlyNetCash Outcome.monthlyTakeHome Rent.monthlyNetCash
         Rent.monthlyTakeHome].
    repeat split; try reflexivity.
    + unfold monthlyNetCash.
      change (monthlyHousingCost StateInputs.empty) with 0. lraQ.
    + unfold rentMonthlyNetCash.
      change (rentMonthlyHousingCost StateInputs.empty) with 0. lraQ.
Qed.

Lemma missing_state_inputs_read_as_zero_witness :
  exists o,
    resultsByState (household initialState) ["Florida"%string] ∅ !! "Florida"%string = Some o /\
    Outcome.monthlyHousingCost o = 0.
Proof.
  destruct (missing_state_inputs_read_as_zero (household initialState)
              ["Florida"%string] ∅ "Florida"%string) as (o & Ho & _ & _ & _ & _ & Hc & _).
  - apply list_elem_of_In. simpl. tauto.
  - reflexivity.
  - exists o. split; assumption.
Defined.

Lemma capitalGainsTax_no_gains ordinaryIncome longTermGains :
  longTermGains == 0 -> capitalGainsTax ordinaryIncome longTermGains == 0.
Proof.
  intros HL. unfold capitalGainsTax, remainingLTCG, taxableAtFifteen, taxableAtZero.
  repeat match goal with |- context [Qlt_le_dec ?a ?b] => destruct (Qlt_le_dec a b) end;
    minmax.
Qed.

Lemma no_brackets_not_California state : stateBrackets state = [] -> isCalifornia state = false.
Proof.
  unfold isCalifornia. destruct (String.eqb_spec state "California") as [->|]; [|reflexivity].
  vm_compute. discriminate.
Qed.

(** X10.  A household without capital gains, in a state without income
    tax, with no housing inputs and with other itemized amounts not above
    the federal standard deduction, owes the payroll tax and the ordinary
    federal tax on its AGI less the standard deduction, and nothing else,
    whether it buys or rents. *)
Theorem burden_without_state_tax_and_gains h state :
  stateBrackets state = [] ->
  shortTermGains h == 0 -> longTermGains h == 0 ->
  otherItemizedVal h <= FEDERAL_STANDARD_DEDUCTION_MFJ ->
  let o := stateResult h state StateInputs.empty in
  let due :=
    ficaTax h
    + calculateTax (Qmax 0 (agi h - FEDERAL_STANDARD_DEDUCTION_MFJ)) FEDERAL_BRACKETS_MFJ in
  Outcome.totalTaxBurden o == due /\ Rent.totalTaxBurden (Outcome.rent o) == due.
Proof.
  intros Hb Hst Hlt Hother o due. subst o due.
  pose proof (no_brackets_not_California state Hb) as Hca.
  cbn [stateResult Outcome.totalTaxBurden Outcome.rent Rent.totalTaxBurden].
  unfold totalTaxBurden, rentTotalTaxBurden, totalFederalTax, rentTotalFederalTax.
  assert (St : stateTax h state StateInputs.empty = 0)
    by (unfold stateTax; rewrite Hb; reflexivity).
  assert (RSt : rentStateTax h state = 0)
    by (unfold rentStateTax; rewrite Hb; reflexivity).
  assert (Sd : sdiTax h state = 0) by (unfold sdiTax; rewrite Hca; reflexivity).
  assert (RSd : rentSdiTax h state = 0) by (unfold rentSdiTax; rewrite Hca; reflexivity).
  assert (N : niit h == 0).
  { unfold niit, niitBase, netInvestmentIncome, NIIT_RATE. minmax. }
  assert (RN : rentNiit h == 0).
  { unfold rentNiit, rentNiitBase, rentNetInvestmentIncome, NIIT_RATE. minmax. }
  assert (D : deductionToUse h state StateInputs.empty == FEDERAL_STANDARD_DEDUCTION_MFJ).
  { unfold deductionToUse, totalFederalItemizedDeductions, cappedSalt, totalSaltPaid.
    rewrite St, Sd.
    change (federalAnnualMortgageInterest StateInputs.empty) with 0.
    change (propertyTaxVal StateInputs.empty) with 0.
    change (localTax h StateInputs.empty) with 0.
    unfold SALT_CAP, FEDERAL_STANDARD_DEDUCTION_MFJ in *. minmax. }
  assert (O : ordinaryIncome h state StateInputs.empty
              == Qmax 0 (agi h - FEDERAL_STANDARD_DEDUCTION_MFJ)).
  { unfold ordinaryIncome, federalTaxableIncome. minmax. }
  assert (RO : rentOrdinaryIncome h == Qmax 0 (agi h - FEDERAL_STANDARD_DEDUCTION_MFJ)).
  { unfold rentOrdinaryIncome, rentFederalTaxableIncome, rentDeductionToUse,
      FEDERAL_STANDARD_DEDUCTION_MFJ. minmax. }
  pose proof (capitalGainsTax_no_gains (ordinaryIncome h state StateInputs.empty) _ Hlt) as Cg.
  pose proof (capitalGainsTax_no_gains (rentOrdinaryIncome h) _ Hlt) as RCg.
  unfold ordinaryTax, rentOrdinaryTax.
  change (rentLocalTax h StateInputs.empty) with 0.
  change (localTax h StateInputs.empty) with 0.
  rewrite St, RSt, Sd, RSd, Cg, RCg, N, RN, O, RO. split; lraQ.
Qed.

Lemma burden_without_state_tax_and_gains_witness :
  let h := Household.mk (Js.VNumber 250000) (Js.VString "") (Js.VString "")
             (Js.VNumber 8300) (Js.VNumber 46000) (Js.VNumber 6000) (Js.VNumber 5000) in
  Outcome.totalTaxBurden (stateResult h "Texas" StateInputs.empty)
  == ficaTax h
     + calculateTax (Qmax 0 (agi h - FEDERAL_STANDARD_DEDUCTION_MFJ)) FEDERAL_BRACKETS_MFJ.
Proof.
  intros h.
  apply (burden_without_state_tax_and_gains h "Texas");
    vm_compute; first [reflexivity | discriminate].
Defined.

(** ** The handlers of the form *)

(** X11.  The results depend on the set of selected states only: neither
    the order of the selection nor a state selected twice changes them, and
    a state that is not selected has no result. *)
Theorem resultsByState_selected_set h (selectedStates selectedStates' : list string)
    (stateInputs : gmap string StateInputs.t) :
  (forall state, state ∈ selectedStates <-> state ∈ selectedStates') ->
  resultsByState h selectedStates stateInputs = resultsByState h selectedStates' stateInputs /\
  forall state, state ∉ selectedStates ->
    resultsByState h selectedStates stateInputs !! state = None.
Proof.
  intros Hsame. split.
  - apply map_eq. intros state. unfold resultsByState. rewrite !resultsByState_fold.
    destruct (decide (state ∈ selectedStates)) as [Hin|Hnin],
             (decide (state ∈ selectedStates')) as [Hin'|Hnin']; try reflexivity.
    + apply Hsame in Hin. contradiction.
    + apply Hsame in Hin'. contradiction.
  - intros state Hnin. unfold resultsByState. rewrite resultsByState_fold.
    rewrite decide_False by assumption. apply lookup_empty.
Qed.

Lemma resultsByState_selected_set_witness :
  resultsByState (household initialState) ["Ohio"; "Texas"; "Ohio"]%string ∅
  = resultsByState (household initialState) ["Texas"; "Ohio"]%string ∅.
Proof.
  apply (resultsByState_selected_set (household initialState)
           ["Ohio"; "Texas"; "Ohio"]%string ["Texas"; "Ohio"]%string ∅).
  intros state. rewrite !elem_of_cons. rewrite !elem_of_nil. tauto.
Defined.

Lemma getField_setField field field' value inputs :
  getField field' (setField field value inputs)
  = if decide (field' = field) then value else getField field' inputs.
Proof.
  destruct field, field'; reflexivity.
Qed.

(** X12.  Typing a value into a housing input of one state stores that
    value under that field, leaves the other fields of the state and the
    inputs of every other state as they were, and changes neither the
    household inputs nor the result of any other state. *)
Theorem handleStateInputChange_local state field value st :
  let st' := handleStateInputChange state field value st in
  (exists inputs,
     App.stateInputs st' !! state = Some inputs /\
     getField field inputs = value /\
     forall other, other <> field ->
       getField other inputs
       = getField other (default StateInputs.empty (App.stateInputs st !! state))) /\
  (forall state', state' <> state ->
     App.stateInputs st' !! state' = App.stateInputs st !! state' /\
     results st' !! state' = results st !! state') /\
  household st' = household st /\
  App.selectedStates st' = App.selectedStates st.
Proof.
  cbv zeta. unfold handleStateInputChange. cbv zeta. split; [|split; [|split; reflexivity]].
  - eexists. split; [apply lookup_insert_eq|]. split.
    + rewrite getField_setField, decide_True; reflexivity.
    + intros other Hne. rewrite getField_setField, decide_False; [reflexivity | assumption].
  - intros state' Hne.
    assert (E : forall (m : gmap string StateInputs.t) x, <[state := x]> m !! state' = m !! state')
      by (intros; apply lookup_insert_ne; congruence).
    split; [apply E|].
    unfold results, resultsByState. cbn [withStateInputs App.stateInputs App.selectedStates household
      App.income App.stGains App.ltGains App.hsa App.k401 App.medicalPremiums
      App.otherItemized].
    fold (household st). rewrite !resultsByState_fold.
    destruct (decide (state' ∈ App.selectedStates st)); [|reflexivity].
    rewrite E. reflexivity.
Qed.

Lemma filter_absent (state : string) (l : list string) :
  state ∉ l -> filter (fun s : string => s <> state) l = l.
Proof.
  induction l as [|s l IH]; intros Hnin; [reflexivity|].
  apply not_elem_of_cons in Hnin as [Hs Hl].
  rewrite filter_cons_True by congruence. rewrite IH by assumption. reflexivity.
Qed.

(** X13.  Ticking a state that is not selected appends it to the
    selection, gives it the default housing inputs unless it already has
    inputs, produces a result for it and leaves every other result alone;
    unticking it again restores the selection and keeps its inputs. *)
Theorem handleStateSelection_toggle state st :
  state ∉ App.selectedStates st ->
  let st' := handleStateSelection state st in
  App.selectedStates st' = App.selectedStates st ++ [state] /\
  App.stateInputs st' !! state
  = Some (default newStateInputs (App.stateInputs st !! state)) /\
  is_Some (results st' !! state) /\
  (forall other, other <> state -> results st' !! other = results st !! other) /\
  App.selectedStates (handleStateSelection state st') = App.selectedStates st /\
  App.stateInputs (handleStateSelection state st') = App.stateInputs st'.
Proof.
  intros Hnin. cbv zeta.
  assert (Hsel : App.selectedStates (handleStateSelection state st)
                 = App.selectedStates st ++ [state]).
  { unfold handleStateSelection. cbv zeta. rewrite bool_decide_eq_false_2 by assumption.
    reflexivity. }
  assert (Hinp : App.stateInputs (handleStateSelection state st) !! state
                 = Some (default newStateInputs (App.stateInputs st !! state))).
  { unfold handleStateSelection. cbv zeta.
    cbn [withSelectedStates withStateInputs App.stateInputs].
    destruct (App.stateInputs st !! state) eqn:E; [exact E | apply lookup_insert_eq]. }
  assert (Hoth : forall other, other <> state ->
            App.stateInputs (handleStateSelection state st) !! other
            = App.stateInputs st !! other).
  { intros other Hne. unfold handleStateSelection. cbv zeta.
    cbn [withSelectedStates withStateInputs App.stateInputs].
    destruct (App.stateInputs st !! state); [reflexivity|].
    apply lookup_insert_ne. congruence. }
  assert (Hh : household (handleStateSelection state st) = household st) by reflexivity.
  split; [exact Hsel|]. split; [exact Hinp|]. split; [|split; [|split]].
  - eexists. unfold results. apply resultsByState_lookup. rewrite Hsel.
    split; [|reflexivity]. apply elem_of_app. right. apply list_elem_of_singleton. reflexivity.
  - intros other Hne. unfold results, resultsByState. rewrite Hh, Hsel, !resultsByState_fold.
    rewrite (Hoth other Hne).
    destruct (decide (other ∈ App.selectedStates st ++ [state])) as [Hin|Hnin'],
             (decide (other ∈ App.selectedStates st)) as [Hin'|Hnin'']; try reflexivity.
    + apply elem_of_app in Hin as [Hin|Hin]; [contradiction|].
      apply list_elem_of_singleton in Hin. contradiction.
    + exfalso. apply Hnin'. apply elem_of_app. left. assumption.
  - unfold handleStateSelection at 1. cbv zeta.
    cbn [withSelectedStates withStateInputs App.selectedStates].
    rewrite Hsel. rewrite bool_decide_eq_true_2
      by (apply elem_of_app; right; apply list_elem_of_singleton; reflexivity).
    rewrite filter_app.
    rewrite (filter_absent state _ Hnin). rewrite filter_cons_False by (intros H; apply H; reflexivity).
    rewrite filter_nil. apply app_nil_r.
  - unfold handleStateSelection at 1. cbv zeta.
    cbn [withSelectedStates withStateInputs App.stateInputs].
    rewrite Hinp. reflexivity.
Qed.

Lemma handleStateSelection_toggle_witness :
  App.selectedStates (handleStateSelection "Florida" initialState)
  = ["California"; "Ohio"; "Texas"; "Florida"]%string.
Proof.
  apply (handleStateSelection_toggle "Florida" initialState).
  intros H. apply list_elem_of_In in H. simpl in H. intuition discriminate.
Defined.

(** X14.  Saving with an empty name changes nothing.  Saving under a name
    stores the current inputs under that name, leaves every other stored
    scenario alone, shows the stored scenarios in the list, clears the name
    box and keeps the inputs of the form. *)
Theorem handleSaveScenario_stores st :
  (App.scenarioName st = ""%string -> handleSaveScenario st = st) /\
  (App.scenarioName st <> ""%string ->
   let st' := handleSaveScenario st in
   App.localStorage st' !! App.scenarioName st = Some (scenarioData st) /\
   (forall other, other <> App.scenarioName st ->
      App.localStorage st' !! other = App.localStorage st !! other) /\
   App.savedScenarios st' = App.localStorage st' /\
   App.scenarioName st' = ""%string /\
   household st' = household st /\ results st' = results st).
Proof.
  unfold handleSaveScenario. split.
  - intros ->. reflexivity.
  - intros Hname. apply String.eqb_neq in Hname. rewrite Hname. cbv zeta.
    cbn [App.localStorage App.savedScenarios App.scenarioName].
    split; [apply lookup_insert_eq|]. split; [|repeat split; reflexivity].
    intros other Hne. apply lookup_insert_ne. congruence.
Qed.

(** X15.  Deleting needs a selected scenario and a confirmation: without
    either nothing changes; with both, exactly the selected scenario leaves
    the storage and the list, and nothing stays selected.  Saving a
    scenario under a fresh name, loading it and deleting it restores the
    storage. *)
Theorem handleDeleteScenario_removes st :
  (App.selectedScenario st = ""%string -> forall c, handleDeleteScenario c st = st) /\
  handleDeleteScenario false st = st /\
  (App.selectedScenario st <> ""%string ->
   let st' := handleDeleteScenario true st in
   App.localStorage st' !! App.selectedScenario st = None /\
   (forall other, other <> App.selectedScenario st ->
      App.localStorage st' !! other = App.localStorage st !! other) /\
   App.savedScenarios st' = App.localStorage st' /\
   App.selectedScenario st' = ""%string) /\
  (App.scenarioName st <> ""%string ->
   App.localStorage st !! App.scenarioName st = None ->
   App.localStorage
     (handleDeleteScenario true
        (handleLoadScenario (App.scenarioName st) (handleSaveScenario st)))
   = App.localStorage st).
Proof.
  unfold handleDeleteScenario. split; [|split; [|split]].
  - intros -> c. reflexivity.
  - destruct (String.eqb (App.selectedScenario st) ""); reflexivity.
  - intros Hsel. apply String.eqb_neq in Hsel. rewrite Hsel. cbv zeta.
    cbn [App.localStorage App.savedScenarios App.selectedScenario].
    split; [apply lookup_delete_eq|]. split; [|split; reflexivity].
    intros other Hne. apply lookup_delete_ne. congruence.
  - intros Hname Hfresh. pose proof Hname as Hname'.
    apply String.eqb_neq in Hname'.
    unfold handleSaveScenario, handleLoadScenario. rewrite Hname'. cbv zeta.
    cbn [App.savedScenarios]. rewrite lookup_insert_eq.
    cbn [App.selectedScenario App.localStorage]. rewrite Hname'.
    apply delete_insert_id. exact Hfresh.
Qed.

Lemma truthy_default v (q : Q) :
  Js.is_zero q = false -> Js.truthy (Js.or_else v (Js.VNumber q)) = true.
Proof.
  intros Hq. unfold Js.or_else. destruct (Js.truthy v) eqn:E; [exact E|].
  simpl. rewrite Hq. reflexivity.
Qed.

Lemma or_else_default_twice v (q : Q) :
  Js.is_zero q = false ->
  Js.or_else (Js.or_else v (Js.VNumber q)) (Js.VNumber q) = Js.or_else v (Js.VNumber q).
Proof. intros Hq. apply or_else_truthy, truthy_default, Hq. Qed.

(** X16.  Loading a name that is not in the list changes nothing.
    Loading a listed scenario selects it and leaves no scalar input falsy,
    whatever the blob holds; and loading it a second time changes nothing
    more. *)
Theorem handleLoadScenario_result name st :
  (App.savedScenarios st !! name = None -> handleLoadScenario name st = st) /\
  (is_Some (App.savedScenarios st !! name) ->
   let st' := handleLoadScenario name st in
   scalars_truthy st' /\
   App.selectedScenario st' = name /\
   App.savedScenarios st' = App.savedScenarios st /\
   App.localStorage st' = App.localStorage st /\
   handleLoadScenario name st' = st').
Proof.
  unfold handleLoadScenario. split.
  - intros ->. reflexivity.
  - intros [scenario Hs]. rewrite Hs. cbv zeta. cbn [App.savedScenarios]. rewrite Hs.
    split; [|repeat split; reflexivity].
    unfold scalars_truthy.
    cbn [App.income App.stGains App.ltGains App.hsa App.k401 App.medicalPremiums
         App.otherItemized].
    repeat split; apply truthy_default; reflexivity.
Qed.

(** X17.  Once a scenario has been loaded, updating it and loading it
    again gives back the same inputs, the same selection and the same
    results. *)
Theorem update_after_load_round_trip name st :
  name <> ""%string -> is_Some (App.savedScenarios st !! name) ->
  let loaded := handleLoadScenario name st in
  let again := handleLoadScenario name (handleUpdateScenario loaded) in
  App.localStorage (handleUpdateScenario loaded) !! name = Some (scenarioData loaded) /\
  household again = household loaded /\
  App.selectedStates again = App.selectedStates loaded /\
  App.stateInputs again = App.stateInputs loaded /\
  results again = results loaded.
Proof.
  intros Hname [scenario Hs]. cbv zeta.
  assert (Hl : handleLoadScenario name st
               = App.mk (Js.or_else (Scenario.income scenario) (Js.VNumber 250000))
                   (Js.or_else (Scenario.stGains scenario) (Js.VNumber 5000))
                   (Js.or_else (Scenario.ltGains scenario) (Js.VNumber 10000))
                   (Js.or_else (Scenario.hsa scenario) (Js.VNumber 8300))
                   (Js.or_else (Scenario.k401 scenario) (Js.VNumber 46000))
                   (Js.or_else (Scenario.medicalPremiums scenario) (Js.VNumber 6000))
                   (Js.or_else (Scenario.otherItemized scenario) (Js.VNumber 5000))
                   (default ["California"; "Texas"]%string (Scenario.selectedStates scenario))
                   (default ∅ (Scenario.stateInputs scenario))
                   (App.scenarioName st) name (App.savedScenarios st) (App.localStorage st))
    by (unfold handleLoadScenario; rewrite Hs; reflexivity).
  rewrite Hl. unfold handleUpdateScenario. cbn [App.selectedScenario].
  apply String.eqb_neq in Hname. rewrite Hname. cbv zeta.
  cbn [App.localStorage]. split; [apply lookup_insert_eq|].
  unfold handleLoadScenario. cbn [App.savedScenarios]. rewrite lookup_insert_eq.
  unfold results, household. simpl.
  rewrite !or_else_default_twice by reflexivity.
  repeat split; reflexivity.
Qed.

Lemma update_after_load_round_trip_witness :
  let st := handleSaveScenario clearedHsa in
  household (handleLoadScenario "s" (handleUpdateScenario (handleLoadScenario "s" st)))
  = household (handleLoadScenario "s" st).
Proof.
  intros st. apply (update_after_load_round_trip "s" st); [discriminate|].
  eexists. vm_compute. reflexivity.
Defined.

(** ** The take-home deltas and the phase-out rows *)

Lemma or0_eq x : or0 x == x.
Proof.
  unfold or0, Js.or_zero, Js.is_zero. destruct (Qeq_bool x 0) eqn:E; [|reflexivity].
  apply Qeq_bool_iff in E. symmetry. exact E.
Qed.

Lemma taxableAtZero_proper x y L : x == y -> taxableAtZero x L == taxableAtZero y L.
Proof. intros H. unfold taxableAtZero. minmax. Qed.

Lemma taxableAtFifteen_proper x y L : x == y -> taxableAtFifteen x L == taxableAtFifteen y L.
Proof.
  intros H. unfold taxableAtFifteen. pose proof (taxableAtZero_proper x y L H) as Hz.
  revert Hz. generalize (taxableAtZero x L), (taxableAtZero y L). intros a a' Ha. minmax.
Qed.

Lemma capitalGainsTax_proper x y L : x == y -> capitalGainsTax x L == capitalGainsTax y L.
Proof.
  intros H. unfold capitalGainsTax, remainingLTCG.
  pose proof (taxableAtZero_proper x y L H). pose proof (taxableAtFifteen_proper x y L H).
  repeat match goal with |- context [Qlt_le_dec ?a ?b] => destruct (Qlt_le_dec a b) end; lraQ.
Qed.

Lemma Qdiv12_le a b : a <= b -> a / 12 <= b / 12.
Proof. intros H. unfold Qdiv. apply Qmult_le_compat_r; [exact H | discriminate]. Qed.

(** A larger deduction never lowers the take-home pay that
    [calcMonthlyTakeHomeDelta] returns. *)
Lemma calcMonthlyTakeHomeDelta_monotone a d1 d2 :
  0 <= DeltaArgs.longTermGains a -> d1 <= d2 ->
  calcMonthlyTakeHomeDelta (withNewDeduction d1 a)
  <= calcMonthlyTakeHomeDelta (withNewDeduction d2 a).
Proof.
  intros HL Hd. unfold calcMonthlyTakeHomeDelta. cbv zeta.
  cbn [withNewDeduction DeltaArgs.longTermGains DeltaArgs.ficaTax DeltaArgs.stateTax
       DeltaArgs.sdiTax DeltaArgs.localTax DeltaArgs.totalIncome DeltaArgs.k401Ded
       DeltaArgs.hsaDed DeltaArgs.medicalDed].
  assert (O : newOrdinaryIncome (withNewDeduction d2 a)
              <= newOrdinaryIncome (withNewDeduction d1 a)).
  { unfold newOrdinaryIncome, newFedTaxableIncome. simpl. minmax. }
  pose proof (calculateTax_monotone_rates FEDERAL_BRACKETS_MFJ _ _ federal_rates_nonneg O) as T.
  pose proof (capitalGainsTax_monotone _ _ _ HL O) as C.
  rewrite <- !newCapitalGainsTax_eq in C.
  assert (N : newNiit (withNewDeduction d1 a) = newNiit (withNewDeduction d2 a)) by reflexivity.
  apply Qdiv12_le. unfold newOrdinaryTax. rewrite N. lraQ.
Qed.

(** Called with the deduction the engine used, it returns the engine's
    monthly take-home pay. *)
Lemma calcMonthlyTakeHomeDelta_engine h state currentStateInputs income :
  Js.Number (Household.income h) = Some income ->
  calcMonthlyTakeHomeDelta
    (deltaArgs h (stateResult h state currentStateInputs)
       (deductionToUse h state currentStateInputs)
       (income + shortTermGains h + longTermGains h))
  == monthlyTakeHome h state currentStateInputs.
Proof.
  intros Hinc. unfold calcMonthlyTakeHomeDelta, monthlyTakeHome, annualTakeHome. cbv zeta.
  cbn [deltaArgs stateResult DeltaArgs.longTermGains DeltaArgs.ficaTax DeltaArgs.stateTax
       DeltaArgs.sdiTax DeltaArgs.localTax DeltaArgs.totalIncome DeltaArgs.k401Ded
       DeltaArgs.hsaDed DeltaArgs.medicalDed Outcome.ficaTax Outcome.stateTax Outcome.sdiTax
       Outcome.localTax].
  set (a := deltaArgs h (stateResult h state currentStateInputs)
              (deductionToUse h state currentStateInputs)
              (income + shortTermGains h + longTermGains h)).
  assert (O : newOrdinaryIncome a == ordinaryIncome h state currentStateInputs).
  { unfold newOrdinaryIncome, newFedTaxableIncome, ordinaryIncome, federalTaxableIncome, a.
    cbn [deltaArgs DeltaArgs.agi DeltaArgs.newDeduction DeltaArgs.longTermGains stateResult
         Outcome.agi].
    pose proof (or0_eq (agi h)). minmax. }
  assert (T : newOrdinaryTax a == ordinaryTax h state currentStateInputs)
    by (unfold newOrdinaryTax, ordinaryTax; rewrite O; reflexivity).
  assert (C : newCapitalGainsTax (newOrdinaryIncome a) (longTermGains h)
              == capitalGainsTax (ordinaryIncome h state currentStateInputs) (longTermGains h))
    by (rewrite newCapitalGainsTax_eq; apply capitalGainsTax_proper, O).
  assert (N : newNiit a == niit h).
  { unfold newNiit, niit, niitBase, netInvestmentIncome, a.
    cbn [deltaArgs DeltaArgs.agi DeltaArgs.shortTermGains DeltaArgs.longTermGains stateResult
         Outcome.agi].
    pose proof (or0_eq (agi h)). unfold NIIT_RATE. minmax. }
  assert (I : totalIncome h == income + shortTermGains h + longTermGains h).
  { unfold totalIncome, grossIncome, Js.num. rewrite Hinc.
    pose proof (or0_eq income) as E. unfold or0 in E. rewrite E. reflexivity. }
  pose proof (or0_eq (ficaTax h)). pose proof (or0_eq (stateTax h state currentStateInputs)).
  pose proof (or0_eq (sdiTax h state)). pose proof (or0_eq (localTax h currentStateInputs)).
  apply Qmult_comp; [|reflexivity].
  unfold totalTaxBurden, totalFederalTax. lraQ.
Qed.

Lemma year_interest_le_year0 amount annualRate k :
  0 < amount -> 0 < annualRate ->
  year_interest amount annualRate k <= year_interest amount annualRate 0.
Proof.
  intros Ha Hr. induction k as [|k IH]; [lraQ|].
  pose proof (year_interest_nonincreasing amount annualRate Ha Hr k). lraQ.
Qed.

Lemma interest_at_nil k : interest_at [] k = 0.
Proof. reflexivity. Qed.

(** With a rate that is not negative, no year of a schedule reads more
    interest than its first year, and none reads a negative interest. *)
Lemma interest_at_le_first amount annualRate years k :
  0 <= annualRate ->
  0 <= interest_at (getInterestSchedule amount annualRate years) k /\
  interest_at (getInterestSchedule amount annualRate years) k
  <= interest_at (getInterestSchedule amount annualRate years) 0.
Proof.
  intros Hr.
  destruct (Qeq_dec amount 0) as [Ha0|Ha0].
  { unfold getInterestSchedule, Js.is_zero. apply Qeq_bool_iff in Ha0. rewrite Ha0.
    simpl orb. cbv iota. rewrite !interest_at_nil. split; lraQ. }
  destruct (Qeq_dec annualRate 0) as [Hr0|Hr0].
  { unfold getInterestSchedule, Js.is_zero. apply Qeq_bool_iff in Hr0. rewrite Hr0.
    rewrite orb_true_r. rewrite !interest_at_nil. split; lraQ. }
  assert (Hrp : 0 < annualRate) by lraQ.
  destruct (Qlt_le_dec 0 amount) as [Hap|Han].
  - assert (H0 : 0 <= interest_at (getInterestSchedule amount annualRate years) 0
                 /\ (0 < years)%nat ->
                 interest_at (getInterestSchedule amount annualRate years) 0
                 == year_interest amount annualRate 0).
    { intros [_ Hy].
      destruct (getInterestSchedule_entry amount annualRate Hap Hrp years 0 Hy)
        as (e & He & _ & Ee).
      unfold interest_at. rewrite He, or0_eq. exact Ee. }
    destruct (Nat.lt_ge_cases k years) as [Hk|Hk].
    + destruct (getInterestSchedule_entry amount annualRate Hap Hrp years k Hk)
        as (e & He & _ & Ee).
      destruct (getInterestSchedule_entry amount annualRate Hap Hrp years 0 ltac:(lia))
        as (e0 & He0 & _ & Ee0).
      unfold interest_at. rewrite He, He0, !or0_eq, Ee, Ee0. split.
      * apply year_interest_nonneg; assumption.
      * apply year_interest_le_year0; assumption.
    + assert (E : interest_at (getInterestSchedule amount annualRate years) k = 0).
      { unfold interest_at. rewrite (proj2 (lookup_ge_None _ _)); [reflexivity|].
        pose proof (getInterestSchedule_length_le amount annualRate years). lia. }
      rewrite E. split; [lraQ|].
      destruct years as [|years].
      * unfold interest_at. rewrite (proj2 (lookup_ge_None _ _)); [lraQ|].
        pose proof (getInterestSchedule_length_le amount annualRate 0). lia.
      * destruct (getInterestSchedule_entry amount annualRate Hap Hrp (S years) 0 ltac:(lia))
          as (e0 & He0 & _ & Ee0).
        unfold interest_at. rewrite He0, or0_eq, Ee0.
        apply year_interest_nonneg; assumption.
  - assert (E : forall j, interest_at (getInterestSchedule amount annualRate years) j = 0).
    { intros j. unfold interest_at.
      destruct (getInterestSchedule amount annualRate years !! j) as [e|] eqn:He;
        [|reflexivity].
      rewrite (getInterestSchedule_negative amount annualRate years j e) by (assumption || lraQ).
      reflexivity. }
    rewrite !E. split; lraQ.
Qed.

(** The engine's first-year interest is the first entry of the ten-year
    schedule of the rows. *)
Lemma federalAnnualMortgageInterest_first currentStateInputs :
  federalAnnualMortgageInterest currentStateInputs
  = interest_at (phaseOutSchedule currentStateInputs) 0.
Proof.
  unfold federalAnnualMortgageInterest, phaseOutSchedule, federalDeductibleMortgagePrincipal,
    interest_at.
  rewrite (getInterestSchedule_lookup_prefix _ _ 1 10 0) by lia. reflexivity.
Qed.

Lemma Qdiv12_nonpos a : a <= 0 -> a / 12 <= 0.
Proof.
  intros H. apply Qle_trans with (0 / 12); [apply Qdiv12_le, H | discriminate].
Qed.

(** A state deduction that has not grown never gives a positive state
    delta; a [NaN] baseline gives minus one month of the new state tax. *)
Lemma calcStateMonthlyTakeHomeDelta_nonpos origDeduction newDeduction agi brackets
    localTax sdiTax :
  Forall (fun b => 0 <= Bracket.rate b) brackets ->
  match origDeduction with Some d => newDeduction <= d | None => True end ->
  calcStateMonthlyTakeHomeDelta origDeduction newDeduction agi brackets localTax sdiTax <= 0.
Proof.
  intros Hr Hd. unfold calcStateMonthlyTakeHomeDelta.
  destruct brackets as [|b rest]; [lraQ|]. cbv zeta. apply Qdiv12_nonpos.
  destruct origDeduction as [d|]; cbn [option_map calculateTaxOf].
  - assert (T : Qmax 0 (agi - d) <= Qmax 0 (agi - newDeduction)) by minmax.
    pose proof (calculateTax_monotone_rates (b :: rest) _ _ Hr T). lraQ.
  - pose proof (calculateTax_nonneg (b :: rest) (Qmax 0 (agi - newDeduction)) Hr). lraQ.
Qed.

Lemma deltaArgs_with h r d d' total :
  withNewDeduction d' (deltaArgs h r d total) = deltaArgs h r d' total.
Proof. reflexivity. Qed.

(** X18.  When the income box holds a number, the long-term gains are not
    negative and the mortgage rate is not negative, the phase-out row of
    every year from 2 to 10 of a state reports an interest between 0 and the first-year interest and
    an impact on the monthly take-home pay that is never positive: losing
    deductible interest cannot raise the pay. *)
Theorem phase_out_impact_nonpos h state currentStateInputs y income :
  (2 <= y <= 10)%nat ->
  Js.Number (Household.income h) = Some income ->
  0 <= longTermGains h ->
  0 <= mortgageRateVal currentStateInputs ->
  let row := yearRow h state currentStateInputs y in
  YearRow.year row = y /\
  0 <= YearRow.interest row /\
  YearRow.interest row <= Itemized.mortgageInterest
                            (Outcome.itemized (stateResult h state currentStateInputs)) /\
  exists impact, YearRow.impact row = Some impact /\ impact <= 0.
Proof.
  intros _ Hinc HL Hrate. cbv zeta.
  destruct (interest_at_le_first
              (Qmin (mortgageAmountVal currentStateInputs) FEDERAL_MORTGAGE_DEBT_LIMIT)
              (mortgageRateVal currentStateInputs) 10 (y - 1) Hrate) as [I0 I1].
  fold (phaseOutSchedule currentStateInputs) in I0, I1.
  rewrite <- federalAnnualMortgageInterest_first in I1.
  unfold yearRow. cbv zeta. rewrite Hinc.
  cbn [YearRow.year YearRow.interest YearRow.impact stateResult Outcome.itemized
       Itemized.mortgageInterest].
  split; [reflexivity|]. split; [exact I0|]. split; [exact I1|].
  eexists. split; [reflexivity|].
  set (r := stateResult h state currentStateInputs).
  set (this := interest_at (phaseOutSchedule currentStateInputs) (y - 1)) in *.
  set (total := income + shortTermGains h + longTermGains h).
  (* the federal part *)
  assert (Fed : calcMonthlyTakeHomeDelta
                  (deltaArgs h r
                     (Qmax (this + or0 (Itemized.salt (Outcome.itemized r)) + otherItemizedVal h)
                           FEDERAL_STANDARD_DEDUCTION_MFJ) total)
                <= or0 (Outcome.monthlyTakeHome r)).
  { pose proof (or0_eq (Outcome.monthlyTakeHome r)) as E1.
    pose proof (calcMonthlyTakeHomeDelta_engine h state currentStateInputs income Hinc) as E2.
    fold r total in E2.
    change (Outcome.monthlyTakeHome r) with (monthlyTakeHome h state currentStateInputs) in *.
    apply Qle_trans with
      (calcMonthlyTakeHomeDelta
         (deltaArgs h r (deductionToUse h state currentStateInputs) total)); [|lraQ].
    assert (Hd : Qmax (this + or0 (Itemized.salt (Outcome.itemized r)) + otherItemizedVal h)
                      FEDERAL_STANDARD_DEDUCTION_MFJ
                 <= deductionToUse h state currentStateInputs).
    { unfold deductionToUse, totalFederalItemizedDeductions.
      unfold r. cbn [stateResult Outcome.itemized Itemized.salt].
      pose proof (or0_eq (cappedSalt h state currentStateInputs)). minmax. }
    pose proof (calcMonthlyTakeHomeDelta_monotone
                  (deltaArgs h r (deductionToUse h state currentStateInputs) total) _ _
                  HL Hd) as M.
    rewrite !deltaArgs_with in M. exact M. }
  (* the state part *)
  assert (St : calcStateMonthlyTakeHomeDelta (origStateDed h r currentStateInputs)
                 (Qmax (this + propertyTaxVal currentStateInputs + otherItemizedVal h)
                       (or0 (Outcome.stateStandardDed r)))
                 (or0 (Outcome.agi r)) (default [] (STATE_TAX_DATA !! state))
                 (or0 (Outcome.localTax r)) (or0 (Outcome.sdiTax r)) <= 0).
  { apply calcStateMonthlyTakeHomeDelta_nonpos; [apply state_rates_nonneg|].
    unfold origStateDed.
    destruct (phaseOutSchedule currentStateInputs !! 0%nat) as [e0|] eqn:E0; [|exact I].
    assert (I2 : this <= AmortizationYear.interest e0).
    { destruct (interest_at_le_first
                  (Qmin (mortgageAmountVal currentStateInputs) FEDERAL_MORTGAGE_DEBT_LIMIT)
                  (mortgageRateVal currentStateInputs) 10 (y - 1) Hrate) as [_ J].
      fold (phaseOutSchedule currentStateInputs) in J. fold this in J.
      unfold interest_at in J. rewrite E0, or0_eq in J. exact J. }
    minmax. }
  match goal with
  | |- ?a - ?b + ?c <= 0 =>
      assert (Fed' : a <= b) by exact Fed; assert (St' : c <= 0) by exact St
  end.
  lraQ.
Qed.

Lemma phase_out_impact_nonpos_witness :
  exists impact,
    YearRow.impact (yearRow (household initialState) "Ohio" StateInputs.empty 2) = Some impact /\
    impact <= 0.
Proof.
  apply (phase_out_impact_nonpos (household initialState) "Ohio" StateInputs.empty 2 250000);
    [lia | reflexivity | vm_compute; discriminate | vm_compute; discriminate].
Defined.

Lemma calcMonthlyTakeHomeDelta_proper a d1 d2 :
  d1 == d2 ->
  calcMonthlyTakeHomeDelta (withNewDeduction d1 a)
  == calcMonthlyTakeHomeDelta (withNewDeduction d2 a).
Proof.
  intros Hd. unfold calcMonthlyTakeHomeDelta. cbv zeta.
  cbn [withNewDeduction DeltaArgs.longTermGains DeltaArgs.ficaTax DeltaArgs.stateTax
       DeltaArgs.sdiTax DeltaArgs.localTax DeltaArgs.totalIncome DeltaArgs.k401Ded
       DeltaArgs.hsaDed DeltaArgs.medicalDed].
  assert (O : newOrdinaryIncome (withNewDeduction d1 a)
              == newOrdinaryIncome (withNewDeduction d2 a)).
  { unfold newOrdinaryIncome, newFedTaxableIncome. simpl. minmax. }
  assert (T : newOrdinaryTax (withNewDeduction d1 a) == newOrdinaryTax (withNewDeduction d2 a))
    by (unfold newOrdinaryTax; rewrite O; reflexivity).
  pose proof (capitalGainsTax_proper _ _ (DeltaArgs.longTermGains a) O) as C.
  rewrite <- !newCapitalGainsTax_eq in C.
  assert (N : newNiit (withNewDeduction d1 a) = newNiit (withNewDeduction d2 a)) by reflexivity.
  apply Qmult_comp; [|reflexivity]. rewrite N. lraQ.
Qed.

(** X19.  [calcMonthlyTakeHomeDelta] mirrors the engine: called with the
    values of a state's result and the deduction the engine used it returns
    the engine's monthly take-home pay, and with non-negative long-term
    gains a smaller deduction never gives a higher pay. *)
Theorem calcMonthlyTakeHomeDelta_mirrors_engine h state currentStateInputs income d1 d2 :
  Js.Number (Household.income h) = Some income ->
  0 <= longTermGains h ->
  d1 <= d2 ->
  let r := stateResult h state currentStateInputs in
  let total := income + shortTermGains h + longTermGains h in
  calcMonthlyTakeHomeDelta (deltaArgs h r (Outcome.deductionToUse r) total)
  == Outcome.monthlyTakeHome r /\
  calcMonthlyTakeHomeDelta (deltaArgs h r d1 total)
  <= calcMonthlyTakeHomeDelta (deltaArgs h r d2 total).
Proof.
  intros Hinc HL Hd r total. split.
  - exact (calcMonthlyTakeHomeDelta_engine h state currentStateInputs income Hinc).
  - pose proof (calcMonthlyTakeHomeDelta_monotone (deltaArgs h r d1 total) d1 d2 HL Hd) as M.
    rewrite !deltaArgs_with in M. exact M.
Qed.

Lemma calcMonthlyTakeHomeDelta_mirrors_engine_witness :
  let h := household initialState in
  let r := stateResult h "Texas" StateInputs.empty in
  calcMonthlyTakeHomeDelta (deltaArgs h r (Outcome.deductionToUse r) (250000 + 5000 + 10000))
  == Outcome.monthlyTakeHome r.
Proof.
  intros h r.
  apply (calcMonthlyTakeHomeDelta_mirrors_engine h "Texas" StateInputs.empty 250000 0 1);
    [reflexivity | vm_compute; discriminate | discriminate].
Defined.

(** X20.  [calcStateMonthlyTakeHomeDelta] is 0 for a state without
    brackets and when the deduction has not changed; the SDI and local
    taxes it is given cancel out; with rates that are not negative a
    deduction that has shrunk never gives a positive delta; and a baseline
    deduction that is [NaN] gives minus one twelfth of the whole state tax
    at the new deduction. *)
Theorem calcStateMonthlyTakeHomeDelta_cases origDeduction newDeduction agi brackets
    localTax sdiTax :
  calcStateMonthlyTakeHomeDelta origDeduction newDeduction agi [] localTax sdiTax = 0 /\
  calcStateMonthlyTakeHomeDelta (Some newDeduction) newDeduction agi brackets localTax sdiTax
  == 0 /\
  calcStateMonthlyTakeHomeDelta origDeduction newDeduction agi brackets localTax sdiTax
  == calcStateMonthlyTakeHomeDelta origDeduction newDeduction agi brackets 0 0 /\
  (Forall (fun b => 0 <= Bracket.rate b) brackets ->
   forall d, newDeduction <= d ->
     calcStateMonthlyTakeHomeDelta (Some d) newDeduction agi brackets localTax sdiTax <= 0) /\
  (brackets <> [] ->
   calcStateMonthlyTakeHomeDelta None newDeduction agi brackets localTax sdiTax
   == - (calculateTax (Qmax 0 (agi - newDeduction)) brackets / 12)).
Proof.
  split; [reflexivity|]. split; [|split; [|split]].
  - unfold calcStateMonthlyTakeHomeDelta. destruct brackets; [reflexivity|].
    cbv zeta. cbn [option_map calculateTaxOf]. field.
  - unfold calcStateMonthlyTakeHomeDelta. destruct brackets; [reflexivity|].
    cbv zeta. field.
  - intros Hr d Hd. apply calcStateMonthlyTakeHomeDelta_nonpos; assumption.
  - intros Hne. unfold calcStateMonthlyTakeHomeDelta.
    destruct brackets; [contradiction|]. cbv zeta. cbn [option_map calculateTaxOf]. field.
Qed.

Lemma is_zero_true q : q == 0 -> Js.is_zero q = true.
Proof. intros H. apply Qeq_bool_iff. exact H. Qed.

(** No schedule for a capped principal when the amount or the rate is 0. *)
Lemma no_mortgage_no_schedule amount rate limit years :
  0 < limit -> amount == 0 \/ rate == 0 ->
  getInterestSchedule (Qmin amount limit) rate years = [].
Proof.
  intros Hl [Ha|Hr]; unfold getInterestSchedule.
  - rewrite (is_zero_true (Qmin amount limit)); [reflexivity|].
    destruct (Q.min_spec amount limit) as [[? ?]|[? ?]]; lraQ.
  - rewrite (is_zero_true rate Hr), orb_true_r. reflexivity.
Qed.

(** X21.  For a state other than California whose mortgage amount or rate
    is 0, the ten-year schedule is empty, every phase-out row reports an
    interest of 0, the baseline state deduction of the rows is [NaN], and
    the impact reported is minus one twelfth of the state income tax of the
    state's result. *)
Theorem phase_out_without_mortgage h state currentStateInputs y income :
  (2 <= y <= 10)%nat ->
  Js.Number (Household.income h) = Some income ->
  mortgageAmountVal currentStateInputs == 0 \/ mortgageRateVal currentStateInputs == 0 ->
  isCalifornia state = false ->
  let r := stateResult h state currentStateInputs in
  let row := yearRow h state currentStateInputs y in
  origStateDed h r currentStateInputs = None /\
  YearRow.interest row = 0 /\
  exists impact,
    YearRow.impact row = Some impact /\ impact == - (Outcome.stateTax r / 12).
Proof.
  intros _ Hinc Hno Hca. cbv zeta.
  assert (Hs : phaseOutSchedule currentStateInputs = [])
    by (apply no_mortgage_no_schedule; [reflexivity | exact Hno]).
  assert (Hfed : federalAnnualMortgageInterest currentStateInputs = 0)
    by (rewrite federalAnnualMortgageInterest_first, Hs; reflexivity).
  assert (Hst : stateAnnualMortgageInterest state currentStateInputs = 0).
  { unfold stateAnnualMortgageInterest, stateDeductibleMortgagePrincipal, stateMortgageDebtLimit.
    rewrite Hca, no_mortgage_no_schedule; [reflexivity | reflexivity | exact Hno]. }
  assert (Ho : origStateDed h (stateResult h state currentStateInputs) currentStateInputs = None)
    by (unfold origStateDed; rewrite Hs; reflexivity).
  split; [exact Ho|].
  unfold yearRow. cbv zeta. rewrite Hinc, Ho, Hs.
  cbn [YearRow.interest YearRow.impact]. rewrite interest_at_nil.
  split; [reflexivity|]. eexists. split; [reflexivity|].
  set (r := stateResult h state currentStateInputs).
  set (total := income + shortTermGains h + longTermGains h).
  (* the federal part vanishes *)
  assert (Fed : calcMonthlyTakeHomeDelta
                  (deltaArgs h r
                     (Qmax (0 + or0 (Itemized.salt (Outcome.itemized r)) + otherItemizedVal h)
                           FEDERAL_STANDARD_DEDUCTION_MFJ) total)
                == or0 (Outcome.monthlyTakeHome r)).
  { pose proof (or0_eq (Outcome.monthlyTakeHome r)) as E1.
    pose proof (calcMonthlyTakeHomeDelta_engine h state currentStateInputs income Hinc) as E2.
    fold r total in E2.
    change (Outcome.monthlyTakeHome r) with (monthlyTakeHome h state currentStateInputs) in *.
    assert (Hd : Qmax (0 + or0 (Itemized.salt (Outcome.itemized r)) + otherItemizedVal h)
                      FEDERAL_STANDARD_DEDUCTION_MFJ
                 == deductionToUse h state currentStateInputs).
    { unfold deductionToUse, totalFederalItemizedDeductions. rewrite Hfed.
      unfold r. cbn [stateResult Outcome.itemized Itemized.salt].
      pose proof (or0_eq (cappedSalt h state currentStateInputs)). minmax. }
    pose proof (calcMonthlyTakeHomeDelta_proper
                  (deltaArgs h r (deductionToUse h state currentStateInputs) total) _ _ Hd) as M.
    rewrite !deltaArgs_with in M. rewrite M, E2, E1. reflexivity. }
  (* the state part is the whole state tax *)
  assert (St : calcStateMonthlyTakeHomeDelta None
                 (Qmax (0 + propertyTaxVal currentStateInputs + otherItemizedVal h)
                       (or0 (Outcome.stateStandardDed r)))
                 (or0 (Outcome.agi r)) (default [] (STATE_TAX_DATA !! state))
                 (or0 (Outcome.localTax r)) (or0 (Outcome.sdiTax r))
               == - (Outcome.stateTax r / 12)).
  { unfold r. cbn [stateResult Outcome.stateTax Outcome.stateStandardDed Outcome.agi].
    unfold stateTax. fold (stateBrackets state).
    unfold calcStateMonthlyTakeHomeDelta.
    destruct (stateBrackets state) as [|b rest] eqn:Eb; [reflexivity|].
    cbv zeta. cbn [option_map calculateTaxOf].
    assert (Hinc' : Qmax 0 (or0 (agi h)
                            - Qmax (0 + propertyTaxVal currentStateInputs + otherItemizedVal h)
                                   (or0 (stateStandardDed state)))
                    == stateTaxableIncome h state currentStateInputs).
    { unfold stateTaxableIncome, stateDeductionToUse, stateItemizedDed, stateAgi.
      rewrite Hca, Hst.
      pose proof (or0_eq (agi h)). pose proof (or0_eq (stateStandardDed state)). minmax. }
    rewrite Hinc'. field. }
  match goal with
  | |- ?a - ?b + ?c == ?d =>
      assert (Fed' : a == b) by exact Fed; assert (St' : c == d) by exact St;
      clear Fed St; revert Fed' St'; generalize a, b, c, d
  end.
  intros a b c d Fed' St'. lraQ.
Qed.

Lemma phase_out_without_mortgage_witness :
  let h := household initialState in
  exists impact,
    YearRow.impact (yearRow h "Ohio" StateInputs.empty 2) = Some impact /\
    impact == - (Outcome.stateTax (stateResult h "Ohio" StateInputs.empty) / 12).
Proof.
  intros h.
  apply (phase_out_without_mortgage h "Ohio" StateInputs.empty 2 250000);
    [lia | reflexivity | left; reflexivity | reflexivity].
Defined.

(** ** The phase-out rows and the delta charts of every selected state *)

Lemma perStateInterestSchedules_fold h (stateInputs : gmap string StateInputs.t)
    (selectedStates : list string) :
  forall (acc : gmap string (list YearRow.t)) (state : string),
    foldl (fun schedules s =>
             <[s := map (yearRow h s (default StateInputs.empty (stateInputs !! s))) (seq 2 9)]>
               schedules) acc selectedStates !! state
    = if decide (state ∈ selectedStates)
      then Some (map (yearRow h state (default StateInputs.empty (stateInputs !! state)))
                     (seq 2 9))
      else acc !! state.
Proof.
  induction selectedStates as [|s rest IH]; intros acc state; cbn [foldl].
  - destruct (decide (state ∈ [])) as [Hin|_]; [|reflexivity].
    apply elem_of_nil in Hin. contradiction.
  - rewrite IH.
    destruct (decide (state ∈ rest)) as [Hin|Hnin],
             (decide (state ∈ s :: rest)) as [Hin'|Hnin']; try reflexivity.
    + exfalso. apply Hnin'. right. assumption.
    + apply elem_of_cons in Hin' as [->|Hin']; [|contradiction].
      apply lookup_insert_eq.
    + apply lookup_insert_ne. intros ->. apply Hnin'. left.
Qed.

(** X22.  The phase-out schedules have an entry for exactly the states
    that have a result; each entry has nine rows, and the row at index [k]
    is the row of year [k + 2], computed from the inputs the result was
    computed from. *)
Theorem perStateInterestSchedules_rows h (selectedStates : list string)
    (stateInputs : gmap string StateInputs.t) state :
  (is_Some (perStateInterestSchedules h selectedStates stateInputs !! state)
   <-> is_Some (resultsByState h selectedStates stateInputs !! state)) /\
  forall rows,
    perStateInterestSchedules h selectedStates stateInputs !! state = Some rows ->
    length rows = 9%nat /\
    forall k row, rows !! k = Some row ->
      YearRow.year row = (k + 2)%nat /\
      row = yearRow h state (default StateInputs.empty (stateInputs !! state)) (k + 2).
Proof.
  unfold perStateInterestSchedules, resultsByState.
  rewrite perStateInterestSchedules_fold, resultsByState_fold.
  destruct (decide (state ∈ selectedStates)) as [Hin|Hnin].
  - split; [split; intros _; eexists; reflexivity|].
    intros rows [= <-]. split; [reflexivity|].
    intros k row Hrow.
    do 9 (destruct k as [|k]; [injection Hrow as <-; split; reflexivity|]).
    discriminate Hrow.
  - rewrite !lookup_empty. split; [split; intros [? [=]]|]. intros rows [=].
Qed.

Lemma resultOr0_eq (resultsByState : gmap string Outcome.t) state field r :
  resultsByState !! state = Some r -> resultOr0 resultsByState state field == field r.
Proof. intros H. unfold resultOr0. rewrite H. apply or0_eq. Qed.

(** X23.  Each delta chart has one bar per selected state, in the order of
    the selection and named by the state's abbreviation.  The bars of the
    base state are 0 in both charts and both views, and in both charts
    the annual bar of a state is twelve times its monthly bar. *)
Theorem delta_charts (selectedStates : list string) (stateInputs : gmap string StateInputs.t)
    h baseState i state :
  selectedStates !! i = Some state ->
  let results := resultsByState h selectedStates stateInputs in
  exists takeHomeMonthly takeHomeAnnual netCashMonthly netCashAnnual,
    takeHomeDeltaData results selectedStates baseState monthly !! i = Some takeHomeMonthly /\
    takeHomeDeltaData results selectedStates baseState annual !! i = Some takeHomeAnnual /\
    netCashDeltaData results selectedStates baseState monthly !! i = Some netCashMonthly /\
    netCashDeltaData results selectedStates baseState annual !! i = Some netCashAnnual /\
    Bar.name takeHomeMonthly = barName state /\ Bar.name takeHomeAnnual = barName state /\
    Bar.name netCashMonthly = barName state /\ Bar.name netCashAnnual = barName state /\
    (state = baseState ->
     Bar.Delta takeHomeMonthly == 0 /\ Bar.Delta takeHomeAnnual == 0 /\
     Bar.Delta netCashMonthly == 0 /\ Bar.Delta netCashAnnual == 0) /\
    Bar.Delta takeHomeAnnual == 12 * Bar.Delta takeHomeMonthly /\
    Bar.Delta netCashAnnual == 12 * Bar.Delta netCashMonthly.
Proof.
  intros Hi results. unfold takeHomeDeltaData, netCashDeltaData.
  do 4 eexists.
  do 4 (split; [rewrite list_lookup_fmap, Hi; reflexivity|]).
  cbn [Bar.name Bar.Delta]. do 4 (split; [reflexivity|]).
  split; [intros ->; repeat split; lraQ|]. split; [|lraQ].
  assert (Hs : state ∈ selectedStates) by (eapply list_elem_of_lookup_2; exact Hi).
  pose proof (proj2 (resultsByState_lookup h selectedStates stateInputs state _)
                (conj Hs eq_refl)) as Es.
  fold results in Es.
  rewrite !(resultOr0_eq _ _ _ _ Es).
  cbn [stateResult Outcome.monthlyTakeHome Outcome.annualTakeHome].
  assert (Eb : resultOr0 results baseState Outcome.annualTakeHome
               == 12 * resultOr0 results baseState Outcome.monthlyTakeHome).
  { unfold resultOr0. destruct (results !! baseState) as [r|] eqn:Er; [|lraQ].
    apply resultsByState_lookup in Er as [_ ->]. rewrite !or0_eq.
    cbn [stateResult Outcome.monthlyTakeHome Outcome.annualTakeHome].
    unfold monthlyTakeHome. field. }
  rewrite Eb. unfold monthlyTakeHome. field.
Qed.

Lemma delta_charts_witness :
  let results := resultsByState (household initialState) ["Ohio"; "Texas"]%string ∅ in
  exists takeHomeMonthly takeHomeAnnual netCashMonthly netCashAnnual,
    takeHomeDeltaData results ["Ohio"; "Texas"]%string "Texas" monthly !! 0%nat
    = Some takeHomeMonthly /\
    takeHomeDeltaData results ["Ohio"; "Texas"]%string "Texas" annual !! 0%nat
    = Some takeHomeAnnual /\
    netCashDeltaData results ["Ohio"; "Texas"]%string "Texas" monthly !! 0%nat
    = Some netCashMonthly /\
    netCashDeltaData results ["Ohio"; "Texas"]%string "Texas" annual !! 0%nat
    = Some netCashAnnual /\
    Bar.name takeHomeMonthly = barName "Ohio" /\ Bar.name takeHomeAnnual = barName "Ohio" /\
    Bar.name netCashMonthly = barName "Ohio" /\ Bar.name netCashAnnual = barName "Ohio" /\
    ("Ohio"%string = "Texas"%string ->
     Bar.Delta takeHomeMonthly == 0 /\ Bar.Delta takeHomeAnnual == 0 /\
     Bar.Delta netCashMonthly == 0 /\ Bar.Delta netCashAnnual == 0) /\
    Bar.Delta takeHomeAnnual == 12 * Bar.Delta takeHomeMonthly /\
    Bar.Delta netCashAnnual == 12 * Bar.Delta netCashMonthly.
Proof.
  exact (delta_charts ["Ohio"; "Texas"]%string ∅ (household initialState) "Texas"
           0 "Ohio" eq_refl).
Defined.

(** ** The backsolver: edge cases, the chart series and the horizon *)

Section BacksolverSeries.

Import Retirement.
Local Open Scope R_scope.

(** X24.  A growth rate of zero or below is not used at all: the years are
    solved as with zero growth, the linear solution for a positive
    contribution and "never" otherwise. *)
Theorem solveYears_nonpositive_rate rate targetAssets currentAssets contribution :
  rate <= 0 ->
  solveYears rate targetAssets currentAssets contribution
  = solveYears 0 targetAssets currentAssets contribution /\
  solveYears rate targetAssets currentAssets contribution
  = if Rltb 0 contribution
    then Years ((targetAssets - currentAssets) / contribution)
    else Never.
Proof.
  intros Hr. rewrite solveYears_zero_rate. split.
  - unfold solveYears. rewrite (Rltb_false 0 rate) by assumption.
    destruct (Rlt_dec 0 contribution) as [Hc|Hc].
    + rewrite (Rltb_true _ _ Hc), Rleb_false by lraR. reflexivity.
    + rewrite Rltb_false by lraR.
      destruct (Rleb contribution 0 && Rleb (currentAssets * rate) 0); reflexivity.
  - unfold solveYears. rewrite (Rltb_false 0 rate) by assumption.
    destruct (Rlt_dec 0 contribution) as [Hc|Hc].
    + rewrite (Rltb_true _ _ Hc), Rleb_false by lraR. reflexivity.
    + rewrite Rltb_false by lraR.
      destruct (Rleb contribution 0 && Rleb (currentAssets * rate) 0); reflexivity.
Qed.

Lemma solveYears_nonpositive_rate_witness :
  solveYears (-1) 100 0 10 = solveYears 0 100 0 10.
Proof. apply (solveYears_nonpositive_rate (-1) 100 0 10). lraR. Defined.

Lemma assetsAfter_shift rate contribution assets n :
  assetsAfter rate contribution (assets * (1 + rate) + contribution) n
  = assetsAfter rate contribution assets (S n).
Proof.
  induction n as [|n IH]; [reflexivity|].
  cbn [assetsAfter] in *. rewrite IH. reflexivity.
Qed.


Lemma series_loop_lookup portfolioGrowthRate fiNumber currentAge contribution todo :
  forall i assets j p,
    series_loop portfolioGrowthRate fiNumber todo i currentAge contribution assets !! j = Some p
    <-> (j < todo)%nat /\
        (forall k, (k < j)%nat ->
           assetsAfter (portfolioGrowthRate / 100) contribution assets (S k) <= fiNumber) /\
        p = Point.mk (currentAge + INR (i + j))
                     (assetsAfter (portfolioGrowthRate / 100) contribution assets (S j)).
Proof.
  induction todo as [|todo IH]; intros i assets j p.
  - cbn [series_loop]. split; [intros [=] | intros [H _]; lia].
  - cbn [series_loop]. destruct j as [|j].
    + cbn [lookup list_lookup]. replace (i + 0)%nat with i by lia.
      cbn [assetsAfter]. unfold rate. split.
      * intros [= <-]. split; [lia|]. split; [intros k Hk; lia | reflexivity].
      * intros (_ & _ & ->). reflexivity.
    + unfold rate, targetAssets.
      set (assets' := assets * (1 + portfolioGrowthRate / 100) + contribution).
      destruct (Rlt_dec fiNumber assets') as [Hlt|Hge].
      * rewrite (Rltb_true _ _ Hlt). cbn [lookup list_lookup]. split; [intros [=]|].
        intros (_ & Hall & _). specialize (Hall 0%nat ltac:(lia)).
        cbn [assetsAfter] in Hall. unfold assets' in Hlt. lraR.
      * rewrite Rltb_false by lraR.
        change ((?x :: ?l) !! S j) with (l !! j). rewrite IH.
        unfold assets' in *. replace (S i + j)%nat with (i + S j)%nat by lia. split.
        -- intros (Hj & Hall & ->). split; [lia|]. split.
           ++ intros [|k] Hk; [cbn [assetsAfter]; lraR|].
              rewrite <- assetsAfter_shift. apply Hall. lia.
           ++ rewrite assetsAfter_shift. reflexivity.
        -- intros (Hj & Hall & ->). split; [lia|]. split.
           ++ intros k Hk. rewrite assetsAfter_shift. apply Hall. lia.
           ++ rewrite assetsAfter_shift. reflexivity.
Qed.

(** X25.  The chart series of a row has a point at index [j] exactly when
    [j] is within the horizon and in no earlier year from year 1 on the
    assets were above the target; the point then is the age [j] years
    from now with the assets grown and contributed to [j] times.  So a
    series stops right after the first year above the target. *)
Theorem series_points portfolioGrowthRate fiNumber currentAssets currentAge horizon r j p :
  series portfolioGrowthRate fiNumber currentAssets currentAge horizon r !! j = Some p
  <-> (j <= Z.to_nat horizon)%nat /\
      (forall k, (1 <= k < j)%nat ->
         assetsAfter (portfolioGrowthRate / 100) (Row.totalAnnualContribution r)
                     currentAssets k <= fiNumber) /\
      p = Point.mk (currentAge + INR j)
                   (assetsAfter (portfolioGrowthRate / 100) (Row.totalAnnualContribution r)
                                currentAssets j).
Proof.
  unfold series. destruct j as [|j].
  - cbn [lookup list_lookup assetsAfter INR]. rewrite Rplus_0_r. split.
    + intros [= <-]. split; [lia|]. split; [intros k Hk; lia | reflexivity].
    + intros (_ & _ & ->). reflexivity.
  - change ((?x :: ?l) !! S j) with (l !! j). rewrite series_loop_lookup.
    replace (1 + j)%nat with (S j) by lia. split.
    + intros (Hj & Hall & ->). split; [lia|]. split; [|reflexivity].
      intros [|k] Hk; [lia|]. apply Hall. lia.
    + intros (Hj & Hall & ->). split; [lia|]. split; [|reflexivity].
      intros k Hk. apply Hall. lia.
Qed.





(** X27.  At a positive rate, for a target that is not yet met, a larger
    yearly contribution never takes longer: both plans are solved, the
    years are not negative, and the plan with the larger contribution
    has at most the years of the other. *)
Theorem more_contribution_fewer_years rate targetAssets currentAssets c1 c2 :
  0 < rate ->
  currentAssets <= targetAssets ->
  0 < currentAssets * rate + c1 ->
  c1 <= c2 ->
  exists y1 y2,
    solveYears rate targetAssets currentAssets c1 = Years y1 /\
    solveYears rate targetAssets currentAssets c2 = Years y2 /\
    0 <= y2 <= y1.
Proof.
  intros Hr HT H1 Hc.
  assert (HTr : currentAssets * rate <= targetAssets * rate) by nra.
  do 2 eexists. split; [apply solveYears_positive_rate; lraR|].
  split; [apply solveYears_positive_rate; lraR|].
  set (a := currentAssets * rate) in *. set (t := targetAssets * rate) in *.
  assert (Hln : 0 < ln (1 + rate)) by (rewrite <- ln_1; apply ln_increasing; lraR).
  assert (R2 : 1 <= (t + c2) / (a + c2)).
  { apply Rmult_le_reg_r with (a + c2); [lraR|].
    replace ((t + c2) / (a + c2) * (a + c2)) with (t + c2) by (field; lraR). lraR. }
  assert (R12 : (t + c2) / (a + c2) <= (t + c1) / (a + c1)).
  { apply Rmult_le_reg_r with ((a + c2) * (a + c1)); [nra|].
    replace ((t + c2) / (a + c2) * ((a + c2) * (a + c1))) with ((t + c2) * (a + c1))
      by (field; lraR).
    replace ((t + c1) / (a + c1) * ((a + c2) * (a + c1))) with ((t + c1) * (a + c2))
      by (field; lraR).
    nra. }
  assert (L2 : 0 <= ln ((t + c2) / (a + c2))).
  { destruct R2 as [R2|R2]; [|rewrite <- R2, ln_1; lraR].
    rewrite <- ln_1. left. apply ln_increasing; lraR. }
  assert (L12 : ln ((t + c2) / (a + c2)) <= ln ((t + c1) / (a + c1))).
  { destruct R12 as [R12|R12]; [|rewrite R12; lraR].
    left. apply ln_increasing; lraR. }
  split.
  - apply Rmult_le_reg_r with (ln (1 + rate)); [assumption|].
    replace (ln ((t + c2) / (a + c2)) / ln (1 + rate) * ln (1 + rate))
      with (ln ((t + c2) / (a + c2))) by (field; lraR).
    lraR.
  - apply Rmult_le_reg_r with (ln (1 + rate)); [assumption|].
    replace (ln ((t + c2) / (a + c2)) / ln (1 + rate) * ln (1 + rate))
      with (ln ((t + c2) / (a + c2))) by (field; lraR).
    replace (ln ((t + c1) / (a + c1)) / ln (1 + rate) * ln (1 + rate))
      with (ln ((t + c1) / (a + c1))) by (field; lraR).
    assumption.
Qed.

Lemma more_contribution_fewer_years_witness :
  exists y1 y2,
    solveYears (1 / 10) 1000 100 50 = Years y1 /\
    solveYears (1 / 10) 1000 100 60 = Years y2 /\
    0 <= y2 <= y1.
Proof. apply (more_contribution_fewer_years (1 / 10) 1000 100 50 60); lraR. Defined.

Lemma maxFiniteYears_fold table :
  forall acc,
    (acc <= fold_left (fun maxYears r =>
                         match Row.years r with
                         | Years v => Z.max maxYears (ceil v)
                         | Never => maxYears
                         end) table acc)%Z /\
    forall r y, In r table -> Row.years r = Years y ->
      (ceil y <= fold_left (fun maxYears r =>
                              match Row.years r with
                              | Years v => Z.max maxYears (ceil v)
                              | Never => maxYears
                              end) table acc)%Z.
Proof.
  induction table as [|r0 table IH]; intros acc; cbn [fold_left].
  - split; [lia | intros r y []].
  - destruct (Row.years r0) as [v|] eqn:E0.
    + destruct (IH (Z.max acc (ceil v))) as [Hacc Hin]. split; [lia|].
      intros r y [<-|Hr] Hy; [|exact (Hin r y Hr Hy)].
      rewrite E0 in Hy. injection Hy as <-. lia.
    + destruct (IH acc) as [Hacc Hin]. split; [assumption|].
      intros r y [<-|Hr] Hy; [|exact (Hin r y Hr Hy)].
      rewrite E0 in Hy. discriminate Hy.
Qed.

(** X28.  The chart horizon is at least 2 and at most 50 years, and it
    reaches two years past the rounded-up years of every row that reports
    a finite number unless the cap of 50 cuts it; no series has more
    points than the horizon plus the starting point. *)
Theorem chart_horizon portfolioGrowthRate fiNumber currentAssets currentAge table :
  (2 <= maxYears table <= 50)%Z /\
  (forall r y, In r table -> Row.years r = Years y ->
     (Z.min (ceil y + 2) 50 <= maxYears table)%Z) /\
  (forall r, (length (series portfolioGrowthRate fiNumber currentAssets currentAge
                             (maxYears table) r)
              <= Z.to_nat (maxYears table) + 1)%nat).
Proof.
  unfold maxYears, maxFiniteYears.
  destruct (maxFiniteYears_fold table 0%Z) as [H0 Hin].
  split; [lia|]. split.
  - intros r y Hr Hy. specialize (Hin r y Hr Hy). lia.
  - intros r. unfold series. cbn [length].
    match goal with
    | |- context [series_loop ?g ?f ?t ?i ?a ?c ?x] =>
        pose proof (series_loop_length g f t i a c x)
    end.
    lia.
Qed.

End BacksolverSeries.

(** ** The retirement projection *)

Section ProjectionProperties.

Import Projection.
Local Open Scope R_scope.

Lemma projection_loop_spec currentAge rate d todo :
  forall i futureValue,
    fst (projection_loop todo i currentAge rate d futureValue)
    = futureValue * (1 + rate) ^ todo + d * growthFactor rate todo /\
    length (snd (projection_loop todo i currentAge rate d futureValue)) = todo /\
    (todo <> O ->
     YearValue.value <$> last (snd (projection_loop todo i currentAge rate d futureValue))
     = Some (fst (projection_loop todo i currentAge rate d futureValue))).
Proof.
  induction todo as [|todo IH]; intros i futureValue.
  - cbn. split; [ring|]. split; [reflexivity | intros H; contradiction].
  - cbn [projection_loop].
    specialize (IH (S i) ((futureValue + d) * (1 + rate))).
    destruct (projection_loop todo (S i) currentAge rate d ((futureValue + d) * (1 + rate)))
      as [final points].
    cbn [fst snd] in *. destruct IH as (Hf & Hl & Hlast). split; [|split].
    + rewrite Hf. clear. revert todo. 
      assert (G : forall n, growthFactor rate (S n)
                            = (1 + rate) ^ (S n) + growthFactor rate n).
      { induction n as [|n IHn]; [cbn; ring|].
        cbn [growthFactor] in *. rewrite IHn at 1. cbn [pow]. ring. }
      intros todo. rewrite G. cbn [pow]. ring.
    + cbn [length]. rewrite Hl. reflexivity.
    + intros _. destruct todo as [|todo].
      * destruct points; [|discriminate Hl]. cbn. rewrite Hf. cbn. f_equal. ring.
      * specialize (Hlast ltac:(lia)). destruct points as [|p0 points]; [discriminate Hl|].
        exact Hlast.
Qed.

(** X29.  A projection entry exists for exactly the selected states that
    have a result, in their order.  Its future value is the yearly
    difference to the base state times a factor that depends only on the
    rate and the whole years projected, so the base state projects to 0;
    one chart point is pushed per whole year and the future value is the
    value of the last one. *)
Theorem projectionData_entries portfolioGrowthRate currentAge yearsToProject
    (monthlyNetSavings : gmap string R) baseState (selectedStates : list string) baseSavings :
  baseState <> ""%string ->
  monthlyNetSavings !! baseState = Some baseSavings ->
  let data := projectionData portfolioGrowthRate currentAge yearsToProject
                             monthlyNetSavings baseState selectedStates in
  let n := Z.to_nat (floor yearsToProject) in
  map Projection.state data
  = filter (fun s => is_Some (monthlyNetSavings !! s)) selectedStates /\
  forall e, In e data ->
    exists savings,
      monthlyNetSavings !! Projection.state e = Some savings /\
      annualDifference e = savings * 12 - baseSavings * 12 /\
      futureValue e = annualDifference e * growthFactor (portfolioGrowthRate / 100) n /\
      length (chartData e) = n /\
      (n <> O -> YearValue.value <$> last (chartData e) = Some (futureValue e)) /\
      (Projection.state e = baseState -> annualDifference e = 0 /\ futureValue e = 0).
Proof.
  intros Hne Hbase data n. subst data. unfold projectionData.
  destruct (String.eqb_spec baseState ""); [contradiction|]. rewrite Hbase. cbv zeta.
  split.
  - induction selectedStates as [|s rest IH]; [reflexivity|].
    cbn [omap list_omap]. unfold projection at 1.
    destruct (monthlyNetSavings !! s) as [savings|] eqn:Es.
    + destruct (projection_loop _ _ _ _ _ _) as [final points].
      rewrite filter_cons_True by (rewrite Es; eexists; reflexivity).
      cbn [map Projection.state]. f_equal. exact IH.
    + rewrite filter_cons_False by (rewrite Es; intros [? [=]]). exact IH.
  - intros e He. apply list_elem_of_In in He.
    apply list_elem_of_omap in He as (s & _ & He). unfold projection in He.
    destruct (monthlyNetSavings !! s) as [savings|] eqn:Es; [|discriminate He].
    pose proof (projection_loop_spec currentAge (portfolioGrowthRate / 100)
                  (savings * 12 - baseSavings * 12) (Z.to_nat (floor yearsToProject)) 1 0)
      as (Hf & Hl & Hlast).
    destruct (projection_loop _ _ _ _ _ _) as [final points].
    injection He as <-. cbn [Projection.state annualDifference futureValue chartData fst snd] in *.
    exists savings. split; [assumption|]. split; [reflexivity|].
    split; [rewrite Hf; fold n; ring|]. split; [exact Hl|]. split; [exact Hlast|].
    intros ->. rewrite Hbase in Es. injection Es as <-.
    split; [ring | rewrite Hf; ring].
Qed.

Lemma projectionData_entries_witness :
  map Projection.state
      (projectionData 7 40 25 {[ "Texas"%string := 1000; "Ohio"%string := 900 ]} "Texas"
                      ["Ohio"; "Utah"; "Texas"]%string)
  = filter (fun s => is_Some (({[ "Texas"%string := 1000; "Ohio"%string := 900 ]}
                                 : gmap string R) !! s))
           ["Ohio"; "Utah"; "Texas"]%string.
Proof.
  apply (projectionData_entries 7 40 25 {[ "Texas"%string := 1000; "Ohio"%string := 900 ]}
           "Texas" ["Ohio"; "Utah"; "Texas"]%string 1000).
  - discriminate.
  - reflexivity.
Defined.

End ProjectionProperties.

(** ** The monthly housing cost *)

(** X30.  The monthly housing cost is 0, property tax and insurance
    included, when the amount or the rate is 0.  For a positive amount and
    a positive rate it is one twelfth of the property tax and of the
    insurance plus the payment that the interest schedule uses; that
    payment is more than the first month's interest and pays the loan
    off with the 360th payment and not before. *)
Theorem housing_cost_amortises amount rate propTax insurance :
  (amount == 0 \/ rate == 0 ->
   calculateMonthlyHousingCost amount rate propTax insurance = 0) /\
  (0 < amount -> 0 < rate ->
   let principalAndInterest :=
     calculateMonthlyHousingCost amount rate propTax insurance
     - propTax / 12 - insurance / 12 in
   principalAndInterest == monthlyPayment amount rate /\
   amount * monthlyRate rate < principalAndInterest /\
   (forall i, (i < 360)%nat ->
      0 < balance_after (monthlyRate rate) (monthlyPayment amount rate) amount i) /\
   balance_after (monthlyRate rate) (monthlyPayment amount rate) amount 360 == 0).
Proof.
  split.
  - intros [Ha|Hr]; unfold calculateMonthlyHousingCost.
    + rewrite (is_zero_true amount Ha). reflexivity.
    + rewrite (is_zero_true rate Hr), orb_true_r. reflexivity.
  - intros Ha Hr principalAndInterest.
    assert (E : principalAndInterest == monthlyPayment amount rate).
    { unfold principalAndInterest, calculateMonthlyHousingCost.
      rewrite (is_zero_false amount), (is_zero_false rate) by lraQ.
      cbn [orb]. cbv zeta. unfold monthlyPayment, monthlyRate.
      set (P := amount * _ / _).
      pose proof (or0_eq propTax) as Ep. pose proof (or0_eq insurance) as Ei.
      revert Ep Ei. generalize (or0 propTax), (or0 insurance), P. clear.
      intros p i P Ep Ei. rewrite Ep, Ei. field. }
    split; [exact E|]. split.
    + rewrite E. apply payment_covers_interest; assumption.
    + split.
      * intros i Hi. apply balance_positive; assumption.
      * apply balance_paid_off; assumption.
Qed.

Lemma housing_cost_amortises_witness :
  balance_after (monthlyRate 6) (monthlyPayment 400000 6) 400000 360 == 0.
Proof.
  apply (housing_cost_amortises 400000 6 7000 1200); reflexivity.
Defined.
